(** * cumulus-orca: the restore-request task and its status publisher

    A shallow embedding of [tasks/request_files/request_files.py] and of the
    enumerations and queue helper of
    [tasks/post_to_database/shared/shared_recovery.py].

    The Python code talks to three external services (an S3 client, an SQS
    client and the wall clock) and raises exceptions.  The embedding is a
    small monad that threads a state (how many SQS calls and clock readings
    were made so far), collects the calls made on the outside world in
    order, and returns either a value or the exception raised.  The answers
    of the outside world are given by oracles, which are variables of the
    section holding the code.

    Contents: the Python built-ins and [json.dumps]; the two modules; how
    the list of calls is read; [json.dumps] can be read back; the status
    publisher; the retry loop as a relation, and what follows from it for
    the orchestrator; the probe and [inner_task].  Then, under "Further
    properties": laws of the calls, [task] and the environment it reads,
    the status update of [shared_recovery], [shared_db], and
    [get_current_archive_list]. *)

From Stdlib Require Import ZArith List String Ascii Bool Lia.
From Stdlib Require Import DecimalString DecimalZ.
Import ListNotations.

Local Open Scope string_scope.
Local Open Scope Z_scope.

(** ** Python built-ins used by the code *)

Module py.

(** [range(lo, hi)]: the integers [lo], [lo + 1], ..., [hi - 1]. *)
Definition range (lo hi : Z) : list Z :=
  map (fun i => lo + Z.of_nat i) (seq 0 (Z.to_nat (hi - lo))).

(** [os.path.basename]: what follows the last slash. *)
Fixpoint basename_from (acc p : string) : string :=
  match p with
  | EmptyString => acc
  | String c rest =>
      if Ascii.eqb c "/"%char then basename_from EmptyString rest
      else basename_from (acc ++ String c EmptyString) rest
  end.

Definition basename (p : string) : string := basename_from EmptyString p.

End py.

(** ** [json.dumps] on the dictionaries the task builds

    The payloads are flat dictionaries from strings to strings and
    integers.  A dictionary keeps its insertion order, which is the order
    [json.dumps] writes the items in, so it is an association list. *)

Module json.

Inductive value : Type :=
| JStr (s : string)
| JInt (n : Z).

Definition dict : Type := list (string * value).

Definition dquote : ascii := "034"%char.
Definition backslash : ascii := "092"%char.
Definition newline : ascii := "010"%char.

Definition hex_digit (n : nat) : ascii :=
  nth n
    ["0"; "1"; "2"; "3"; "4"; "5"; "6"; "7";
     "8"; "9"; "a"; "b"; "c"; "d"; "e"; "f"]%char "0"%char.

(** One character of a string, as [json.dumps] writes it with its default
    [ensure_ascii=True]: the quote and the backslash are escaped, the
    control characters with a short escape use it, the printable ASCII
    characters stand for themselves, and any other character [c] becomes
    [\u00xy]. *)
Definition escape_char (c : ascii) : string :=
  let n := nat_of_ascii c in
  if Nat.eqb n 34 then String backslash (String dquote EmptyString)
  else if Nat.eqb n 92 then String backslash (String backslash EmptyString)
  else if Nat.eqb n 8 then String backslash "b"
  else if Nat.eqb n 12 then String backslash "f"
  else if Nat.eqb n 10 then String backslash "n"
  else if Nat.eqb n 13 then String backslash "r"
  else if Nat.eqb n 9 then String backslash "t"
  else if (Nat.leb 32 n && Nat.leb n 126)%bool then String c EmptyString
  else String backslash
         ("u00" ++ String (hex_digit (Nat.div n 16))
                     (String (hex_digit (Nat.modulo n 16)) EmptyString)).

Fixpoint escape (s : string) : string :=
  match s with
  | EmptyString => EmptyString
  | String c rest => escape_char c ++ escape rest
  end.

Definition quoted (s : string) : string :=
  String dquote (escape s ++ String dquote EmptyString).

Definition dump_int (n : Z) : string := NilZero.string_of_int (Z.to_int n).

Definition dump_value (v : value) : string :=
  match v with
  | JStr s => quoted s
  | JInt n => dump_int n
  end.

Definition dump_item (kv : string * value) : string :=
  quoted (fst kv) ++ ": " ++ dump_value (snd kv).

Fixpoint join (sep : string) (l : list string) : string :=
  match l with
  | [] => EmptyString
  | [x] => x
  | x :: rest => x ++ sep ++ join sep rest
  end.

(** [json.dumps(d, indent=4)]. *)
Definition dumps_indent4 (d : dict) : string :=
  match d with
  | [] => "{}"
  | _ =>
      let newline_indent := String newline "    " in
      "{" ++ newline_indent
          ++ join ("," ++ newline_indent) (map dump_item d)
          ++ String newline "}"
  end.

(** [json.dumps(d)]. *)
Definition dumps (d : dict) : string :=
  "{" ++ join ", " (map dump_item d) ++ "}".

(** [d.get(k)] *)
Fixpoint get (k : string) (d : dict) : option value :=
  match d with
  | [] => None
  | (k', v) :: rest => if String.eqb k k' then Some v else get k rest
  end.

End json.

(** ** shared_recovery.py *)

Module shared_recovery.

Inductive RequestMethod : Type :=
| NEW_JOB
| UPDATE_FILE.

Definition RequestMethod_value (m : RequestMethod) : string :=
  match m with
  | NEW_JOB => "new_job"
  | UPDATE_FILE => "update_file"
  end.

Inductive OrcaStatus : Type :=
| PENDING
| STAGED
| FAILED
| SUCCESS.

Definition OrcaStatus_value (s : OrcaStatus) : Z :=
  match s with
  | PENDING => 1
  | STAGED => 2
  | FAILED => 3
  | SUCCESS => 4
  end.

(** What [post_entry_to_queue] hands to [send_message]. *)
Record Message : Type := mkMessage {
  QueueUrl : string;
  MessageDeduplicationId : string;
  MessageGroupId : string;
  attr_RequestMethod : string;
  attr_TableName : string;
  MessageBody : string
}.

Definition post_entry_to_queue (table_name : string) (new_data : json.dict)
    (request_method : RequestMethod) (db_queue_url : string) : Message :=
  let body := json.dumps new_data in
  {| QueueUrl := db_queue_url;
     MessageDeduplicationId :=
       table_name ++ RequestMethod_value request_method ++ body;
     MessageGroupId := "request_files";
     attr_RequestMethod := RequestMethod_value request_method;
     attr_TableName := table_name;
     MessageBody := body |}.

End shared_recovery.

(** ** request_files.py *)

Module request_files.

Inductive RequestMethod : Type :=
| POST
| PUT.

Definition RequestMethod_value (m : RequestMethod) : string :=
  match m with
  | POST => "post"
  | PUT => "put"
  end.

Definition DEFAULT_RESTORE_EXPIRE_DAYS : Z := 5.
Definition DEFAULT_MAX_REQUEST_RETRIES : Z := 2.
Definition DEFAULT_RESTORE_RETRY_SLEEP_SECS : Z := 0.
Definition DEFAULT_RESTORE_RETRIEVAL_TYPE : string := "Standard".

Definition GRANULE_GRANULE_ID_KEY : string := "granuleId".
Definition GRANULE_KEYS_KEY : string := "keys".
Definition GRANULE_RECOVER_FILES_KEY : string := "recover_files".

Definition ORCA_STATUS_PENDING : Z := 1.
Definition ORCA_STATUS_FAILED : Z := 4.

(** *** Data *)

(** [time.sleep]'s argument.  It is a float in the source; the code only
    passes it on and [time.sleep] refuses a negative one, so the integers
    stand for it.  The infinities and the NaN of a float, which
    [time.sleep] refuses too, are left out. *)
Definition seconds : Type := Z.

(** A botocore [ClientError]: the code reads
    [err.response['Error']['Code']] and [str(err)]. *)
Record ClientError : Type := mkClientError {
  error_code : string;
  error_str : string
}.

(** An entry of a granule's ['keys']. *)
Record KeyEntry : Type := mkKeyEntry {
  k_key : string;
  k_dest_bucket : string
}.

(** An entry of ['recover_files'].  [err_msg] is read with [dict.get], so it
    may be absent. *)
Record File : Type := mkFile {
  key : string;
  dest_bucket : string;
  success : bool;
  err_msg : option string
}.

(** A granule dictionary; [None] is a key that is absent, so that
    [mkGranule None None None] is the empty dictionary. *)
Record Granule : Type := mkGranule {
  granuleId : option string;
  keys : option (list KeyEntry);
  recover_files : option (list File)
}.

(** The event [inner_task] receives: [event['config']['glacier-bucket']]
    (absent when either key is), [event['input']['granules']] and
    [event['input']['job_id']], which [task] has filled in. *)
Record Event : Type := mkEvent {
  config_glacier_bucket : option string;
  input_granules : list Granule;
  input_job_id : string
}.

(** What [inner_task] returns. *)
Record Output : Type := mkOutput {
  out_granules : list Granule;
  out_job_id : string
}.

(** The three messages of [RestoreRequestError], by what they embed. *)
Inductive RestoreRequestReason : Type :=
| NoGlacierBucket (event : Event)
| TooManyGranules (n : nat)
| FilesFailed (granule : Granule).

(** The exceptions of a run: [KeyError] of a dictionary, the [ClientError]
    of an S3 call, [RestoreRequestError], the error of a call on the SQS
    client, and the [ValueError] of [time.sleep]. *)
Inductive Exception : Type :=
| KeyError (k : string)
| BotoClientError (err : ClientError)
| RestoreRequestError (why : RestoreRequestReason)
| SendFailure (msg : string)
| ValueError (msg : string).

(** The calls the code makes, in the order it makes them.  [RestoreObject]
    and [HeadObject] are the calls on the S3 client, [SendQueueUrlOnly] and
    [SendMessage] the two calls on the SQS client, [Sleep] is [time.sleep].
    [PostEntry] records that [post_entry_to_queue] was entered with these
    arguments: it is the status event handed to the publisher, whatever the
    queue then does with it.  A call is recorded whether it returns or
    raises. *)
Inductive Effect : Type :=
| HeadObject (Bucket Key : string)
| RestoreObject (attempt : Z) (Bucket Key : string) (Days : Z) (Tier : string)
| PostEntry (table_name : string) (new_data : json.dict)
    (request_method : RequestMethod)
| SendQueueUrlOnly (QueueUrl : string)
| SendMessage (m : shared_recovery.Message)
| Sleep (secs : seconds).

(** *** The monad *)

Record State : Type := mkState {
  sqs_calls : nat;
  clock_reads : nat
}.

Inductive Outcome (A : Type) : Type :=
| Returned (a : A)
| Raised (e : Exception)
| OutOfFuel.

Arguments Returned {A} a.
Arguments Raised {A} e.
Arguments OutOfFuel {A}.

Record Run (A : Type) : Type := mkRun {
  outcome : Outcome A;
  calls : list Effect;
  final : State
}.

Arguments mkRun {A} outcome calls final.
Arguments outcome {A} r.
Arguments calls {A} r.
Arguments final {A} r.

Definition M (A : Type) : Type := State -> Run A.

Definition ret {A} (a : A) : M A := fun s => mkRun (Returned a) [] s.

Definition raise {A} (e : Exception) : M A := fun s => mkRun (Raised e) [] s.

Definition out_of_fuel {A} : M A := fun s => mkRun OutOfFuel [] s.

Definition bind {A B} (m : M A) (f : A -> M B) : M B :=
  fun s =>
    let r := m s in
    match outcome r with
    | Returned a =>
        let r' := f a (final r) in
        mkRun (outcome r') (calls r ++ calls r') (final r')
    | Raised e => mkRun (Raised e) (calls r) (final r)
    | OutOfFuel => mkRun OutOfFuel (calls r) (final r)
    end.

(** [try: m except Exception as e: h e] *)
Definition try_except_Exception {A} (m : M A) (h : Exception -> M A) : M A :=
  fun s =>
    let r := m s in
    match outcome r with
    | Raised e =>
        let r' := h e (final r) in
        mkRun (outcome r') (calls r ++ calls r') (final r')
    | _ => r
    end.

(** [try: m except ClientError as err: h err] *)
Definition try_except_ClientError {A} (m : M A) (h : ClientError -> M A)
    : M A :=
  fun s =>
    let r := m s in
    match outcome r with
    | Raised (BotoClientError err) =>
        let r' := h err (final r) in
        mkRun (outcome r') (calls r ++ calls r') (final r')
    | _ => r
    end.

(** [try: m except KeyError: h] *)
Definition try_except_KeyError {A} (m : M A) (h : M A) : M A :=
  fun s =>
    let r := m s in
    match outcome r with
    | Raised (KeyError _) =>
        let r' := h (final r) in
        mkRun (outcome r') (calls r ++ calls r') (final r')
    | _ => r
    end.

(** [d[k]] on a dictionary whose key [k] may be absent. *)
Definition lookup {A} (k : string) (x : option A) : M A :=
  match x with
  | Some a => ret a
  | None => raise (KeyError k)
  end.

Definition emit (e : Effect) : M unit := fun s => mkRun (Returned tt) [e] s.

Declare Scope py_scope.
Delimit Scope py_scope with py.
Notation "x <- m ;; k" := (bind m (fun x => k))
  (at level 100, m at next level, right associativity) : py_scope.
Notation "m ;; k" := (bind m (fun _ => k))
  (at level 100, right associativity) : py_scope.
Local Open Scope py_scope.

(** [for x in l: x = body(x)] on a list of dictionaries that the body
    updates in place. *)
Fixpoint for_each {A} (body : A -> M A) (l : list A) : M (list A) :=
  match l with
  | [] => ret []
  | x :: rest =>
      x' <- body x ;;
      rest' <- for_each body rest ;;
      ret (x' :: rest')
  end.

Section Task.

(** *** The outside world

    [s3_head_object bucket key] and [s3_restore_object attempt bucket key]
    are the answers of the S3 client: [None] when the call returns, the
    [ClientError] when it raises.  The answer to a restore request may
    change from one pass of the retry loop to the next, so it depends on
    the pass, [attempt].  [sqs_send_message n] is the answer to the [n]-th
    call made on the SQS client and [utcnow n] the [n]-th reading of the
    clock, as an ISO string. *)
Variable s3_head_object : string -> string -> option ClientError.
Variable s3_restore_object : Z -> string -> string -> option ClientError.
Variable sqs_send_message : nat -> option string.
Variable utcnow : nat -> string.

(** [datetime.now(timezone.utc).isoformat()] *)
Definition now : M string :=
  fun s =>
    mkRun (Returned (utcnow (clock_reads s))) []
      (mkState (sqs_calls s) (S (clock_reads s))).

(** [time.sleep(secs)]: the call is made, and raises [ValueError] when the
    length is negative. *)
Definition negative_sleep : Exception :=
  ValueError "sleep length must be non-negative".

Definition sleep (secs : seconds) : M unit :=
  emit (Sleep secs) ;;
  if secs <? 0 then raise negative_sleep else ret tt.

(** A call of [sqs.send_message], recorded as [call]. *)
Definition sqs_call (call : Effect) : M unit :=
  fun s =>
    mkRun
      match sqs_send_message (sqs_calls s) with
      | None => Returned tt
      | Some msg => Raised (SendFailure msg)
      end
      [call]
      (mkState (S (sqs_calls s)) (clock_reads s)).

(** *** post_entry_to_queue *)

(** The keyword arguments of the second [sqs.send_message] call. *)
Definition queue_message (table_name body : string)
    (request_method : RequestMethod) (db_queue_url : string)
    : shared_recovery.Message :=
  shared_recovery.mkMessage db_queue_url
    (table_name ++ RequestMethod_value request_method ++ body)
    "request_files"
    (RequestMethod_value request_method)
    table_name
    body.

Inductive LoopExit : Type :=
| Return
| Continue.

(** The body of the [for attempt in range(1, max_retries + 1)] loop, over
    the attempts still to make. *)
Fixpoint post_entry_attempts (attempts : list Z) (table_name : string)
    (body : string) (request_method : RequestMethod) (db_queue_url : string)
    (max_retries : Z) (retry_sleep_secs : seconds) : M unit :=
  match attempts with
  | [] => ret tt
  | attempt :: rest =>
      exit <-
        try_except_Exception
          (sqs_call (SendQueueUrlOnly db_queue_url) ;;
           sqs_call
             (SendMessage
                (queue_message table_name body request_method
                   db_queue_url)) ;;
           ret Return)
          (fun e =>
             if attempt =? max_retries + 1 then raise e
             else (sleep retry_sleep_secs ;; ret Continue)) ;;
      match exit with
      | Return => ret tt
      | Continue =>
          post_entry_attempts rest table_name body request_method
            db_queue_url max_retries retry_sleep_secs
      end
  end.

Definition post_entry_to_queue (table_name : string) (new_data : json.dict)
    (request_method : RequestMethod) (db_queue_url : string)
    (max_retries : Z) (retry_sleep_secs : seconds) : M unit :=
  emit (PostEntry table_name new_data request_method) ;;
  let body := json.dumps_indent4 new_data in
  post_entry_attempts (py.range 1 (max_retries + 1)) table_name body
    request_method db_queue_url max_retries retry_sleep_secs.

(** [if x is not None: new_data[k] = x] *)
Definition set_if_not_None (k : string) (x : option json.value)
    (new_data : json.dict) : json.dict :=
  match x with
  | Some v => (new_data ++ [(k, v)])%list
  | None => new_data
  end.

Definition post_status_for_job_to_queue (job_id granule_id : string)
    (status_id : option Z) (request_time completion_time : option string)
    (archive_destination : option string) (request_method : RequestMethod)
    (db_queue_url : string) (max_retries : Z) (retry_sleep_secs : seconds)
    : M unit :=
  let new_data :=
    [("job_id", json.JStr job_id); ("granule_id", json.JStr granule_id)] in
  let new_data :=
    set_if_not_None "status_id" (option_map json.JInt status_id) new_data in
  let new_data :=
    set_if_not_None "request_time" (option_map json.JStr request_time)
      new_data in
  let new_data :=
    set_if_not_None "completion_time" (option_map json.JStr completion_time)
      new_data in
  let new_data :=
    set_if_not_None "archive_destination"
      (option_map json.JStr archive_destination) new_data in
  post_entry_to_queue "orca_recoveryjob" new_data request_method db_queue_url
    max_retries retry_sleep_secs.

Definition file_status_data (job_id granule_id filename : string)
    (key_path restore_destination : option string) (status_id : option Z)
    (error_message request_time last_update completion_time : option string)
    : json.dict :=
  let new_data :=
    [("job_id", json.JStr job_id); ("granule_id", json.JStr granule_id);
     ("filename", json.JStr filename)] in
  let new_data :=
    set_if_not_None "key_path" (option_map json.JStr key_path) new_data in
  let new_data :=
    set_if_not_None "restore_destination"
      (option_map json.JStr restore_destination) new_data in
  let new_data :=
    set_if_not_None "status_id" (option_map json.JInt status_id) new_data in
  let new_data :=
    set_if_not_None "error_message" (option_map json.JStr error_message)
      new_data in
  let new_data :=
    set_if_not_None "request_time" (option_map json.JStr request_time)
      new_data in
  let new_data :=
    set_if_not_None "last_update" (option_map json.JStr last_update)
      new_data in
  set_if_not_None "completion_time" (option_map json.JStr completion_time)
    new_data.

Definition post_status_for_file_to_queue (job_id granule_id filename : string)
    (key_path restore_destination : option string) (status_id : option Z)
    (error_message request_time : option string) (last_update : string)
    (completion_time : option string) (request_method : RequestMethod)
    (db_queue_url : string) (max_retries : Z) (retry_sleep_secs : seconds)
    : M unit :=
  post_entry_to_queue "orca_recoverfile"
    (file_status_data job_id granule_id filename key_path restore_destination
       status_id error_message request_time (Some last_update)
       completion_time)
    request_method db_queue_url max_retries retry_sleep_secs.

(** *** object_exists and restore_object *)

Definition head_object (Bucket Key : string) : M unit :=
  emit (HeadObject Bucket Key) ;;
  match s3_head_object Bucket Key with
  | None => ret tt
  | Some err => raise (BotoClientError err)
  end.

Definition object_exists (glacier_bucket file_key : string) : M bool :=
  try_except_ClientError
    (head_object glacier_bucket file_key ;; ret true)
    (fun err =>
       let code := error_code err in
       if (String.eqb code "NoSuchKey" || String.eqb code "NotFound")%bool
       then ret false
       else raise (BotoClientError err)).

Definition restore_object (key : string) (days : Z)
    (db_glacier_bucket_key : string) (attempt : Z) (job_id : string)
    (retrieval_type : string) : M unit :=
  try_except_ClientError
    (emit (RestoreObject attempt db_glacier_bucket_key key days
             retrieval_type) ;;
     match s3_restore_object attempt db_glacier_bucket_key key with
     | None => ret tt
     | Some err => raise (BotoClientError err)
     end)
    (fun c_err => raise (BotoClientError c_err)).

(** *** process_granule *)

Definition set_recover_files (granule : Granule) (files : list File)
    : Granule :=
  mkGranule (granuleId granule) (keys granule) (Some files).

Definition set_err_msg (a_file : File) (msg : string) : File :=
  mkFile (key a_file) (dest_bucket a_file) (success a_file) (Some msg).

Section Loops.

Variables (glacier_bucket : string) (restore_expire_days : Z)
  (max_retries : Z) (retry_sleep_secs : seconds) (retrieval_type : string)
  (job_id : string) (db_queue_url : string).
Variables (request_time : string) (granule_id : string).

(** The body of [for a_file in granule['recover_files']] inside the retry
    loop.  The file is updated in place before the status is posted, so a
    [ClientError] raised after the update would find the updated file: the
    [try] block is split at the update. *)
Definition restore_one_file (attempt : Z) (a_file : File) : M File :=
  if success a_file then ret a_file
  else
    try_except_ClientError
      (restore_object (key a_file) restore_expire_days glacier_bucket attempt
         job_id retrieval_type ;;
       let a_file := mkFile (key a_file) (dest_bucket a_file) true (Some "") in
       try_except_ClientError
         (last_update <- now ;;
          post_status_for_file_to_queue job_id granule_id
            (py.basename (key a_file)) (Some (key a_file))
            (Some (dest_bucket a_file)) (Some ORCA_STATUS_PENDING) None
            (Some request_time) last_update None POST db_queue_url
            max_retries retry_sleep_secs ;;
          ret a_file)
         (fun err => ret (set_err_msg a_file (error_str err))))
      (fun err => ret (set_err_msg a_file (error_str err))).

(** [while attempt <= max_retries + 1: ...].  [attempt] grows by one at
    each turn, so [fuel] turns are enough when [fuel] is at least
    [max_retries + 2 - attempt]. *)
Fixpoint retry_loop (fuel : nat) (attempt : Z) (granule : Granule)
    : M Granule :=
  if attempt <=? max_retries + 1 then
    match fuel with
    | O => out_of_fuel
    | S fuel =>
        files <- lookup GRANULE_RECOVER_FILES_KEY (recover_files granule) ;;
        files <- for_each (restore_one_file attempt) files ;;
        let granule := set_recover_files granule files in
        let attempt := attempt + 1 in
        if attempt <=? max_retries + 1 then
          files <- lookup GRANULE_RECOVER_FILES_KEY (recover_files granule) ;;
          if forallb success files then ret granule
          else (sleep retry_sleep_secs ;; retry_loop fuel attempt granule)
        else retry_loop fuel attempt granule
    end
  else ret granule.

(** The loop after the retries: a FAILED status for each file that never
    succeeded.  Returns [any_error]. *)
Fixpoint report_failures (files : list File) (any_error : bool) : M bool :=
  match files with
  | [] => ret any_error
  | a_file :: rest =>
      if negb (success a_file) then
        last_update <- now ;;
        post_status_for_file_to_queue job_id granule_id
          (py.basename (key a_file)) (Some (key a_file))
          (Some (dest_bucket a_file)) (Some ORCA_STATUS_FAILED)
          (err_msg a_file) (Some request_time) last_update None POST
          db_queue_url max_retries retry_sleep_secs ;;
        report_failures rest true
      else report_failures rest any_error
  end.

(** What follows the retry loop. *)
Definition after_retries (granule : Granule) : M Granule :=
  files <- lookup GRANULE_RECOVER_FILES_KEY (recover_files granule) ;;
  any_error <- report_failures files false ;;
  if any_error then raise (RestoreRequestError (FilesFailed granule))
  else ret granule.

End Loops.

(** The source updates [granule] in place and returns nothing; here the
    updated granule is the value returned, and the value a
    [RestoreRequestError] embeds. *)
Definition process_granule (granule : Granule) (glacier_bucket : string)
    (restore_expire_days : Z) (max_retries : Z) (retry_sleep_secs : seconds)
    (retrieval_type : string) (job_id : string) (db_queue_url : string)
    : M Granule :=
  request_time <- now ;;
  let attempt := 1 in
  granule_id <- lookup GRANULE_GRANULE_ID_KEY (granuleId granule) ;;
  post_status_for_job_to_queue job_id granule_id (Some ORCA_STATUS_PENDING)
    (Some request_time) None (Some glacier_bucket) POST db_queue_url
    max_retries retry_sleep_secs ;;
  granule <-
    retry_loop glacier_bucket restore_expire_days max_retries
      retry_sleep_secs retrieval_type job_id db_queue_url request_time
      granule_id (Z.to_nat (max_retries + 1)) attempt granule ;;
  after_retries max_retries retry_sleep_secs job_id db_queue_url request_time
    granule_id granule.

(** *** inner_task *)

(** [for keys in granule['keys']: ...], with the list [files] built so
    far. *)
Fixpoint collect_files (glacier_bucket : string) (keys : list KeyEntry)
    (files : list File) : M (list File) :=
  match keys with
  | [] => ret files
  | keys :: rest =>
      let file_key := k_key keys in
      let destination_bucket_name := k_dest_bucket keys in
      found <- object_exists glacier_bucket file_key ;;
      if found then
        let a_file := mkFile file_key destination_bucket_name false (Some "") in
        collect_files glacier_bucket rest (files ++ [a_file])
      else collect_files glacier_bucket rest files
  end.

(** [for granule in granules: ...], with the [copied_granule] of the
    previous turn. *)
Fixpoint copy_granules (glacier_bucket : string) (granules : list Granule)
    (copied_granule : Granule) : M Granule :=
  match granules with
  | [] => ret copied_granule
  | granule :: rest =>
      keys <- lookup GRANULE_KEYS_KEY (keys granule) ;;
      files <- collect_files glacier_bucket keys [] ;;
      copy_granules glacier_bucket rest (set_recover_files granule files)
  end.

Definition inner_task (event : Event) (max_retries : Z)
    (retry_sleep_secs : seconds) (retrieval_type : string)
    (restore_expire_days : Z) (db_queue_url : string) : M Output :=
  glacier_bucket <-
    try_except_KeyError
      (lookup "glacier-bucket" (config_glacier_bucket event))
      (raise (RestoreRequestError (NoGlacierBucket event))) ;;
  let granules := input_granules event in
  if (1 <? List.length granules)%nat then
    raise (RestoreRequestError (TooManyGranules (List.length granules)))
  else
    copied_granule <-
      copy_granules glacier_bucket granules (mkGranule None None None) ;;
    copied_granule <-
      process_granule copied_granule glacier_bucket restore_expire_days
        max_retries retry_sleep_secs retrieval_type (input_job_id event)
        db_queue_url ;;
    ret (mkOutput [copied_granule] (input_job_id event)).

End Task.

End request_files.

Import request_files.
Local Open Scope py_scope.
Local Open Scope list_scope.

(** ** Reading the list of calls *)

(** The calls [post_entry_to_queue] makes after it was entered. *)
Definition is_queue_call (e : Effect) : bool :=
  match e with
  | SendQueueUrlOnly _ | SendMessage _ | Sleep _ => true
  | _ => false
  end.

Definition is_HeadObject (e : Effect) : bool :=
  match e with
  | HeadObject _ _ => true
  | _ => false
  end.

(** The payloads handed to the publisher for [table], in order. *)
Definition posted (table : string) (tr : list Effect) : list json.dict :=
  flat_map
    (fun e =>
       match e with
       | PostEntry t d _ => if String.eqb t table then [d] else []
       | _ => []
       end)
    tr.

(** The restore requests made, as pairs of the pass and the key. *)
Definition restored (tr : list Effect) : list (Z * string) :=
  flat_map
    (fun e =>
       match e with
       | RestoreObject k _ x _ _ => [(k, x)]
       | _ => []
       end)
    tr.

Definition has_status (status : Z) (d : json.dict) : bool :=
  match json.get "status_id" d with
  | Some (json.JInt n) => Z.eqb n status
  | _ => false
  end.

Definition has_key_path (x : string) (d : json.dict) : bool :=
  match json.get "key_path" d with
  | Some (json.JStr y) => String.eqb x y
  | _ => false
  end.

(** The number of file events for the key [x]. *)
Definition events_for (x : string) (tr : list Effect) : nat :=
  List.length (filter (has_key_path x) (posted "orca_recoverfile" tr)).

(** The number of files of key [x] whose restore is still to succeed. *)
Definition unfinished (x : string) (fs : list File) : nat :=
  List.length
    (filter (fun f => negb (success f) && String.eqb x (key f))%bool fs).

(** ** Scenarios *)

Module scenario.

(** An SQS client every call of which raises. *)
Definition queue_down (n : nat) : option string := Some "unreachable".

(** An SQS client that accepts the first call of each attempt and raises at
    the second, the one that carries the message. *)
Definition queue_rejects_messages (n : nat) : option string :=
  if Nat.even n then None else Some "rejected".

Definition queue_up (n : nat) : option string := None.

Definition clock (n : nat) : string :=
  ("2021-06-01T00:00:0" ++ NilZero.string_of_uint (Nat.to_uint n))%string.

Definition a_job_row : json.dict :=
  [("job_id", json.JStr "job"); ("granule_id", json.JStr "G1")].

Definition start : State := mkState 0 0.

(** A bucket that refuses every restore request. *)
Definition access_denied : ClientError :=
  mkClientError "AccessDenied"
    "An error occurred (AccessDenied) when calling the RestoreObject operation: Access Denied".

Definition always_denied (k : Z) (bucket x : string) : option ClientError :=
  Some access_denied.

(** A bucket that accepts every restore request. *)
Definition always_restored (k : Z) (bucket x : string)
    : option ClientError :=
  None.


Definition one_file : list File := [mkFile "dir/a.nc" "dest" false (Some "")].


(** A bucket in which [missing.nc] is not found and the probe of
    [locked.nc] is refused. *)
Definition probes (bucket x : string) : option ClientError :=
  if String.eqb x "missing.nc" then Some (mkClientError "NotFound" "Not Found")
  else if String.eqb x "locked.nc" then Some access_denied
  else None.

Definition some_keys : list KeyEntry :=
  [mkKeyEntry "a.nc" "dest"; mkKeyEntry "locked.nc" "dest"].

End scenario.

(** ** [json.dumps] can be read back

    Two dictionaries that [json.dumps] writes as the same text are the same
    dictionary.  The text is read from left to right: an escaped character
    is read back by [unescape_char], a string ends at the first quote that
    is not escaped, and a number at the first character that is not a
    digit. *)

Module json_facts.

Import json.

Lemma append_assoc (a b c : string) : ((a ++ b) ++ c = a ++ (b ++ c))%string.
Proof. induction a as [|x a IH]; cbn; [reflexivity|]. now rewrite IH. Qed.

Lemma append_inv_head (a b c : string) : (a ++ b = a ++ c)%string -> b = c.
Proof. induction a as [|x a IH]; cbn; [auto|]. intros [= H]. auto. Qed.

Definition unhex (c : ascii) : nat :=
  let n := nat_of_ascii c in
  if Nat.leb n 57 then n - 48 else n - 87.

(** Reads one character of an escaped string; [None] at a quote. *)
Definition unescape_char (s : string) : option (ascii * string) :=
  match s with
  | EmptyString => None
  | String c r =>
      if Ascii.eqb c backslash then
        match r with
        | EmptyString => None
        | String c2 r2 =>
            if Ascii.eqb c2 dquote then Some (dquote, r2)
            else if Ascii.eqb c2 backslash then Some (backslash, r2)
            else if Ascii.eqb c2 "b" then Some ("008"%char, r2)
            else if Ascii.eqb c2 "f" then Some ("012"%char, r2)
            else if Ascii.eqb c2 "n" then Some ("010"%char, r2)
            else if Ascii.eqb c2 "r" then Some ("013"%char, r2)
            else if Ascii.eqb c2 "t" then Some ("009"%char, r2)
            else
              match r2 with
              | String _ (String _ (String h (String l r3))) =>
                  Some (ascii_of_nat (16 * unhex h + unhex l), r3)
              | _ => None
              end
        end
      else if Ascii.eqb c dquote then None
      else Some (c, r)
  end.

Lemma unescape_escape_char c r :
  unescape_char (escape_char c ++ r) = Some (c, r).
Proof. destruct c as [[] [] [] [] [] [] [] []]; reflexivity. Qed.

Lemma unescape_quote r : unescape_char (String dquote r) = None.
Proof. reflexivity. Qed.

(** An escaped string ends at the first quote. *)
Lemma escape_inj s s' r r' :
  (escape s ++ String dquote r = escape s' ++ String dquote r')%string ->
  s = s' /\ r = r'.
Proof.
  revert s'. induction s as [|c s IH]; intros [|c' s']; cbn [escape append];
    rewrite ?append_assoc; intros H.
  - injection H as <-. auto.
  - apply (f_equal unescape_char) in H.
    rewrite unescape_quote, unescape_escape_char in H. discriminate.
  - apply (f_equal unescape_char) in H.
    rewrite unescape_quote, unescape_escape_char in H. discriminate.
  - apply (f_equal unescape_char) in H.
    rewrite !unescape_escape_char in H. injection H as <- H.
    destruct (IH _ H) as (<- & <-). auto.
Qed.

Lemma quoted_inj s s' r r' :
  (quoted s ++ r = quoted s' ++ r')%string -> s = s' /\ r = r'.
Proof.
  unfold quoted. cbn [append]. rewrite !append_assoc. cbn [append].
  intros [= H]. now apply escape_inj.
Qed.

(** *** Numbers *)

Definition is_digit (c : ascii) : bool :=
  let n := nat_of_ascii c in (Nat.leb 48 n && Nat.leb n 57)%bool.

(** The digits end at the first character that is not one. *)
Lemma string_of_uint_inj d d' c r c' r' :
  is_digit c = false -> is_digit c' = false ->
  (NilEmpty.string_of_uint d ++ String c r
   = NilEmpty.string_of_uint d' ++ String c' r')%string ->
  d = d' /\ String c r = String c' r'.
Proof.
  intros Hc Hc'. revert d'.
  induction d as [|d IH|d IH|d IH|d IH|d IH|d IH|d IH|d IH|d IH|d IH];
    intros [|d'|d'|d'|d'|d'|d'|d'|d'|d'|d']; cbn [NilEmpty.string_of_uint append];
    intros H; try discriminate H;
    try (injection H as H0 H'; subst; vm_compute in Hc; discriminate Hc);
    try (injection H as H0 H'; subst; vm_compute in Hc'; discriminate Hc');
    try (injection H as H; destruct (IH _ H) as (<- & Heq); auto).
  auto.
Qed.

Lemma string_of_uint_head d :
  d <> Decimal.Nil ->
  exists c rest,
    NilEmpty.string_of_uint d = String c rest /\ is_digit c = true.
Proof. destruct d; [congruence|..]; intros _; cbn; eauto. Qed.

(** The digits of an integer, without its sign. *)
Definition digits (n : Z) : Decimal.uint :=
  match n with
  | Z0 => Decimal.D0 Decimal.Nil
  | Zpos p | Zneg p => Pos.to_uint p
  end.

Lemma dump_int_digits n :
  dump_int n
  = ((if Z.ltb n 0 then "-" else "") ++ NilEmpty.string_of_uint (digits n))%string
  /\ digits n <> Decimal.Nil
  /\ Z.to_int n
     = (if Z.ltb n 0 then Decimal.Neg (digits n) else Decimal.Pos (digits n)).
Proof.
  unfold dump_int.
  destruct n as [|p|p]; cbn [Z.to_int NilZero.string_of_int digits Z.ltb Z.compare].
  - repeat split. discriminate.
  - pose proof (DecimalPos.Unsigned.to_uint_nonnil p) as Hp.
    unfold NilZero.string_of_uint.
    destruct (Pos.to_uint p); [congruence|..]; repeat split; auto.
  - pose proof (DecimalPos.Unsigned.to_uint_nonnil p) as Hp.
    unfold NilZero.string_of_uint.
    destruct (Pos.to_uint p); [congruence|..]; repeat split; auto.
Qed.

Lemma dump_int_head n :
  exists c rest, dump_int n = String c rest /\ c <> dquote.
Proof.
  destruct (dump_int_digits n) as (-> & Hd & _).
  destruct (string_of_uint_head _ Hd) as (c & rest & -> & Hc).
  destruct (Z.ltb n 0); cbn; eexists _, _; split; try reflexivity.
  - discriminate.
  - intros ->. discriminate Hc.
Qed.

Lemma dump_int_inj n n' c r c' r' :
  is_digit c = false -> is_digit c' = false ->
  (dump_int n ++ String c r = dump_int n' ++ String c' r')%string ->
  n = n' /\ String c r = String c' r'.
Proof.
  intros Hc Hc'.
  destruct (dump_int_digits n) as (-> & Hd & Hn).
  destruct (dump_int_digits n') as (-> & Hd' & Hn').
  destruct (string_of_uint_head _ Hd) as (x & rest & Hx & Hdx).
  destruct (string_of_uint_head _ Hd') as (x' & rest' & Hx' & Hdx').
  destruct (Z.ltb n 0), (Z.ltb n' 0); cbn [append]; intros H.
  - injection H as H.
    destruct (string_of_uint_inj _ _ _ _ _ _ Hc Hc' H) as (Heq & Hrest).
    split; [|exact Hrest]. apply DecimalZ.to_int_inj. congruence.
  - rewrite Hx' in H. injection H as <- _. discriminate Hdx'.
  - rewrite Hx in H. injection H as -> _. discriminate Hdx.
  - destruct (string_of_uint_inj _ _ _ _ _ _ Hc Hc' H) as (Heq & Hrest).
    split; [|exact Hrest]. apply DecimalZ.to_int_inj. congruence.
Qed.

(** *** Values, items and dictionaries *)

Lemma quoted_head s : exists rest, quoted s = String dquote rest.
Proof. unfold quoted. eauto. Qed.

Lemma dump_value_inj v v' c r c' r' :
  is_digit c = false -> is_digit c' = false ->
  (dump_value v ++ String c r = dump_value v' ++ String c' r')%string ->
  v = v' /\ String c r = String c' r'.
Proof.
  intros Hc Hc'. destruct v as [s|n], v' as [s'|n']; cbn [dump_value]; intros H.
  - apply quoted_inj in H. destruct H as (-> & H). auto.
  - destruct (dump_int_head n') as (x & rest & Hx & Hq).
    rewrite Hx in H. unfold quoted in H. cbn in H. congruence.
  - destruct (dump_int_head n) as (x & rest & Hx & Hq).
    rewrite Hx in H. unfold quoted in H. cbn in H. congruence.
  - apply dump_int_inj in H; auto. destruct H as (-> & H). auto.
Qed.

Lemma dump_item_inj kv kv' c r c' r' :
  is_digit c = false -> is_digit c' = false ->
  (dump_item kv ++ String c r = dump_item kv' ++ String c' r')%string ->
  kv = kv' /\ String c r = String c' r'.
Proof.
  intros Hc Hc'. destruct kv as [k v], kv' as [k' v'].
  unfold dump_item. cbn [fst snd]. rewrite !append_assoc. intros H.
  apply quoted_inj in H. destruct H as (-> & H).
  cbn [append] in H. injection H as H.
  apply dump_value_inj in H; auto. destruct H as (-> & H). auto.
Qed.

(** The items of a dictionary, up to the text [close] that follows the
    last one.  [sep] and [close] start with different characters, neither
    of which is a digit, and [close] does not start with a quote. *)
Lemma join_inj c0 sep c1 close d d' :
  is_digit c0 = false -> is_digit c1 = false -> c0 <> c1 -> c1 <> dquote ->
  (join (String c0 sep) (map dump_item d) ++ String c1 close
   = join (String c0 sep) (map dump_item d') ++ String c1 close)%string ->
  d = d'.
Proof.
  intros H0 H1 H01 Hq.
  assert (Hhead : forall kv l rest,
            (join (String c0 sep) (map dump_item (kv :: l)) ++ rest)%string
            <> String c1 close).
  { intros [k v] l rest. cbn [map].
    destruct (quoted_head k) as (t & Ht).
    assert (Hitem : exists t', dump_item (k, v) = String dquote t').
    { unfold dump_item. cbn [fst]. rewrite Ht. cbn. eauto. }
    destruct Hitem as (t' & ->).
    destruct (map dump_item l); cbn; congruence. }
  assert (Hcons : forall kv l,
            (join (String c0 sep) (map dump_item (kv :: l)) ++ String c1 close
             = dump_item kv ++
               match l with
               | [] => String c1 close
               | _ => String c0 (sep ++ join (String c0 sep) (map dump_item l)
                                     ++ String c1 close)
               end)%string).
  { intros kv [|kv2 l]; [reflexivity|].
    cbn [map join]. rewrite !append_assoc. reflexivity. }
  revert d'. induction d as [|kv d IH]; intros [|kv' d'] H.
  - reflexivity.
  - symmetry in H. now apply Hhead in H.
  - now apply Hhead in H.
  - rewrite !Hcons in H.
    destruct d as [|kv2 d], d' as [|kv2' d'];
      apply dump_item_inj in H; auto; destruct H as (-> & H).
    + reflexivity.
    + congruence.
    + congruence.
    + injection H as H. apply append_inv_head in H.
      f_equal. now apply IH.
Qed.

Theorem dumps_inj d d' : dumps d = dumps d' -> d = d'.
Proof.
  unfold dumps. cbn [append]. intros [= H].
  eapply (join_inj ","%char " " "}"%char ""); try exact H;
    try reflexivity; discriminate.
Qed.

Theorem dumps_indent4_inj d d' : dumps_indent4 d = dumps_indent4 d' -> d = d'.
Proof.
  unfold dumps_indent4.
  destruct d as [|kv d], d' as [|kv' d']; try reflexivity;
    try discriminate.
  cbn [append]. intros [= H].
  eapply (join_inj ","%char (String newline "    ") newline "}");
    try exact H; try reflexivity; discriminate.
Qed.

End json_facts.

(** ** The runs of the monad *)

Lemma bind_run {A B} (m : M A) (f : A -> M B) s o c s' :
  m s = mkRun o c s' ->
  bind m f s =
  match o with
  | Returned a =>
      mkRun (outcome (f a s')) (c ++ calls (f a s')) (final (f a s'))
  | Raised e => mkRun (Raised e) c s'
  | OutOfFuel => mkRun OutOfFuel c s'
  end.
Proof. intros H. unfold bind. rewrite H. destruct o; reflexivity. Qed.

Lemma run_eta {A} (r : Run A) : r = mkRun (outcome r) (calls r) (final r).
Proof. destruct r; reflexivity. Qed.

Lemma bind_ret {A B} (a : A) (f : A -> M B) s : bind (ret a) f s = f a s.
Proof. unfold bind, ret. cbn. now destruct (f a s). Qed.

Lemma bind_emit {B} (e : Effect) (f : unit -> M B) s :
  bind (emit e) f s
  = mkRun (outcome (f tt s)) (e :: calls (f tt s)) (final (f tt s)).
Proof. reflexivity. Qed.

(** ** Lists related element by element *)

Lemma Forall2_refl_all {A} (R : A -> A -> Prop) l :
  (forall a, R a a) -> Forall2 R l l.
Proof. intros H. induction l; constructor; auto. Qed.

Lemma Forall2_compose {A} (R1 R2 R3 : A -> A -> Prop) l1 l2 l3 :
  (forall a b c, R1 a b -> R2 b c -> R3 a c) ->
  Forall2 R1 l1 l2 -> Forall2 R2 l2 l3 -> Forall2 R3 l1 l3.
Proof.
  intros H H12. revert l3.
  induction H12; intros l3 H23; inversion H23; subst; constructor; eauto.
Qed.

Lemma Forall2_with_right {A} (R R' : A -> A -> Prop) (p : A -> bool) l1 l2 :
  (forall a b, R a b -> p b = true -> R' a b) ->
  Forall2 R l1 l2 -> forallb p l2 = true -> Forall2 R' l1 l2.
Proof.
  intros H H12. induction H12; cbn; intros Hp; constructor;
    apply andb_prop in Hp; destruct Hp; auto.
Qed.

Lemma Forall2_In_r {A} (R : A -> A -> Prop) l1 l2 b :
  Forall2 R l1 l2 -> In b l2 -> exists a, In a l1 /\ R a b.
Proof.
  induction 1; cbn; [tauto|].
  intros [<-|Hin]; [eauto|].
  destruct (IHForall2 Hin) as (a & Ha & HR). eauto.
Qed.



(** ** The calls by kind *)

Lemma posted_app table t1 t2 :
  posted table (t1 ++ t2) = posted table t1 ++ posted table t2.
Proof. apply flat_map_app. Qed.

Lemma restored_app t1 t2 : restored (t1 ++ t2) = restored t1 ++ restored t2.
Proof. apply flat_map_app. Qed.

Lemma posted_queue table q : forallb is_queue_call q = true -> posted table q = [].
Proof.
  induction q as [|e q IH]; cbn; [reflexivity|].
  intros H. apply andb_prop in H. destruct H as (He & Hq).
  destruct e; try discriminate; cbn; auto.
Qed.

Lemma restored_queue q : forallb is_queue_call q = true -> restored q = [].
Proof.
  induction q as [|e q IH]; cbn; [reflexivity|].
  intros H. apply andb_prop in H. destruct H as (He & Hq).
  destruct e; try discriminate; cbn; auto.
Qed.

Lemma events_for_app x t1 t2 :
  events_for x (t1 ++ t2) = (events_for x t1 + events_for x t2)%nat.
Proof.
  unfold events_for. now rewrite posted_app, filter_app, length_app.
Qed.

Lemma events_for_queue x q : forallb is_queue_call q = true -> events_for x q = 0%nat.
Proof. intros H. unfold events_for. now rewrite posted_queue. Qed.

(** ** The status publisher *)

Section Publisher.

Variable sqs_send_message : nat -> option string.

Lemma attempt_body_run (A B : Effect) s :
  (sqs_call sqs_send_message A ;; sqs_call sqs_send_message B ;; ret Return) s =
  match sqs_send_message (sqs_calls s) with
  | Some msg =>
      mkRun (Raised (SendFailure msg)) [A]
        (mkState (S (sqs_calls s)) (clock_reads s))
  | None =>
      match sqs_send_message (S (sqs_calls s)) with
      | Some msg =>
          mkRun (Raised (SendFailure msg)) [A; B]
            (mkState (S (S (sqs_calls s))) (clock_reads s))
      | None =>
          mkRun (Returned Return) [A; B]
            (mkState (S (S (sqs_calls s))) (clock_reads s))
      end
  end.
Proof.
  unfold bind, sqs_call, ret. cbn.
  destruct (sqs_send_message (sqs_calls s)); cbn; [reflexivity|].
  destruct (sqs_send_message (S (sqs_calls s))); reflexivity.
Qed.

Lemma sleep_run secs s :
  sleep secs s
  = mkRun (if secs <? 0 then Raised negative_sleep else Returned tt)
      [Sleep secs] s.
Proof. unfold sleep. rewrite bind_emit. now destruct (secs <? 0). Qed.

(** One turn of the loop of the publisher.  An attempt is never the one
    after the last, so the handler does not raise the error of the queue
    again: it sleeps, and the sleep raises when its length is negative. *)
Lemma post_entry_attempts_cons attempt rest table body method url
    max_retries secs s :
  attempt <> max_retries + 1 ->
  post_entry_attempts sqs_send_message (attempt :: rest) table body method
    url max_retries secs s
  = let after_failure made s' :=
      if secs <? 0
      then mkRun (Raised negative_sleep) (made ++ [Sleep secs]) s'
      else
        let r :=
          post_entry_attempts sqs_send_message rest table body method url
            max_retries secs s' in
        mkRun (outcome r) (made ++ Sleep secs :: calls r) (final r) in
    match sqs_send_message (sqs_calls s) with
    | Some _ =>
        after_failure [SendQueueUrlOnly url]
          (mkState (S (sqs_calls s)) (clock_reads s))
    | None =>
        match sqs_send_message (S (sqs_calls s)) with
        | Some _ =>
            after_failure
              [SendQueueUrlOnly url;
               SendMessage (queue_message table body method url)]
              (mkState (S (S (sqs_calls s))) (clock_reads s))
        | None =>
            mkRun (Returned tt)
              [SendQueueUrlOnly url;
               SendMessage (queue_message table body method url)]
              (mkState (S (S (sqs_calls s))) (clock_reads s))
        end
    end.
Proof.
  intros Hne. apply Z.eqb_neq in Hne.
  cbn [post_entry_attempts].
  unfold bind at 1, try_except_Exception. rewrite attempt_body_run, Hne.
  unfold sleep.
  destruct (sqs_send_message (sqs_calls s)) as [msg|];
    [|destruct (sqs_send_message (S (sqs_calls s))) as [msg|]];
    cbv zeta; destruct (secs <? 0); reflexivity.
Qed.

(** The calls [tr] end with the sleep. *)
Definition sleeps_last (secs : seconds) (tr : list Effect) : Prop :=
  exists pre, tr = pre ++ [Sleep secs].

Lemma sleeps_last_app secs pre tr :
  sleeps_last secs tr -> sleeps_last secs (pre ++ tr).
Proof. intros (p & ->). exists (pre ++ p). now rewrite app_assoc. Qed.

Lemma sleeps_last_cons secs e tr :
  sleeps_last secs tr -> sleeps_last secs (e :: tr).
Proof. apply (sleeps_last_app secs [e]). Qed.

(** The attempts end in one of two ways on every queue: they return, or a
    negative sleep raises, and that sleep is then their last call.  They
    make queue calls and sleeps only and leave the clock alone. *)
Lemma post_entry_attempts_ends attempts table body method url max_retries
    secs :
  Forall (fun a => a <> max_retries + 1) attempts ->
  forall s, exists o q s',
    post_entry_attempts sqs_send_message attempts table body method url
      max_retries secs s = mkRun o q s' /\
    forallb is_queue_call q = true /\
    clock_reads s' = clock_reads s /\
    (o = Returned tt \/
     secs < 0 /\ o = Raised negative_sleep /\ sleeps_last secs q).
Proof.
  induction 1 as [|attempt rest Hne _ IH]; intros s.
  { exists (Returned tt), [], s. cbn. auto. }
  rewrite post_entry_attempts_cons by exact Hne. cbv beta zeta.
  destruct (sqs_send_message (sqs_calls s)) as [msg|];
    [|destruct (sqs_send_message (S (sqs_calls s))) as [msg|]];
    try (eexists _, _, _; split; [reflexivity|now cbn; auto]);
    (destruct (Z.ltb_spec secs 0) as [Hsecs|Hsecs];
     [eexists _, _, _; split; [reflexivity|];
      split; [reflexivity|]; split; [reflexivity|];
      right; split; [exact Hsecs|]; split; [reflexivity|];
      eexists; reflexivity|]);
    match goal with
    | |- context [post_entry_attempts _ _ _ _ _ _ _ _ ?s'] =>
        destruct (IH s') as (o & q & s'' & -> & H2 & H3 & H4)
    end;
    (eexists _, _, _; split; [reflexivity|]); cbn; repeat split; auto;
    (destruct H4 as [->|(Hneg & -> & Hlast)]; [now left|lia]).
Qed.

(** An attempt is never the one after the last, so the handler does not
    raise the error of the queue again; it sleeps, and the sleep returns
    when its length is not negative. *)
Lemma post_entry_attempts_Returned attempts table body method url
    max_retries secs :
  0 <= secs ->
  Forall (fun a => a <> max_retries + 1) attempts ->
  forall s, exists q s',
    post_entry_attempts sqs_send_message attempts table body method url
      max_retries secs s = mkRun (Returned tt) q s' /\
    forallb is_queue_call q = true /\
    clock_reads s' = clock_reads s.
Proof.
  intros Hsecs. apply Z.ltb_ge in Hsecs.
  induction 1 as [|attempt rest Hne _ IH]; intros s.
  { exists [], s. now cbn. }
  apply Z.eqb_neq in Hne.
  cbn [post_entry_attempts].
  unfold bind at 1, try_except_Exception. rewrite attempt_body_run, Hne.
  unfold sleep. rewrite Hsecs.
  destruct (sqs_send_message (sqs_calls s)) as [msg|];
    [|destruct (sqs_send_message (S (sqs_calls s))) as [msg|]];
    cbn [outcome calls final sleep emit bind ret app];
    try (eexists _, _; split; [reflexivity|now cbn]);
    match goal with
    | |- context [post_entry_attempts _ _ _ _ _ _ _ _ ?s'] =>
        destruct (IH s') as (q & s'' & -> & H2 & H3)
    end;
    (eexists _, _; split; [reflexivity|]); cbn; auto.
Qed.

(** The attempts make no other call than the two sends and the sleep. *)
Lemma post_entry_attempts_calls attempts table body method url max_retries
    secs s :
  Forall
    (fun e =>
       e = SendQueueUrlOnly url \/
       e = SendMessage (queue_message table body method url) \/
       e = Sleep secs)
    (calls
       (post_entry_attempts sqs_send_message attempts table body method url
          max_retries secs s)).
Proof.
  revert s. induction attempts as [|attempt rest IH]; intros s.
  { constructor. }
  cbn [post_entry_attempts].
  unfold bind at 1, try_except_Exception. rewrite attempt_body_run.
  destruct (sqs_send_message (sqs_calls s)) as [msg|];
    [|destruct (sqs_send_message (S (sqs_calls s))) as [msg|]];
    cbn [outcome calls final];
    try destruct (attempt =? max_retries + 1);
    unfold sleep; try destruct (secs <? 0);
    cbn [outcome calls final emit bind ret raise app];
    repeat (constructor; auto);
    rewrite ?app_nil_r; repeat (constructor; auto); apply IH.
Qed.

Lemma range_below lo hi : Forall (fun a => a <> hi) (py.range lo hi).
Proof.
  unfold py.range. apply Forall_forall. intros a Ha.
  apply in_map_iff in Ha. destruct Ha as (i & <- & Hi).
  apply in_seq in Hi. lia.
Qed.

(** Whatever the queue answers, [post_entry_to_queue] returns when the
    length of its sleep is not negative: it records the entry, makes queue
    calls only, and leaves the clock alone. *)
Lemma post_entry_to_queue_Returned table new_data method url max_retries
    secs s :
  0 <= secs ->
  exists q s',
    post_entry_to_queue sqs_send_message table new_data method url
      max_retries secs s
    = mkRun (Returned tt) (PostEntry table new_data method :: q) s' /\
    forallb is_queue_call q = true /\
    clock_reads s' = clock_reads s.
Proof.
  intros Hsecs.
  destruct (post_entry_attempts_Returned
              (py.range 1 (max_retries + 1)) table
              (json.dumps_indent4 new_data) method url max_retries secs
              Hsecs (range_below 1 (max_retries + 1)) s)
    as (q & s' & H1 & H2 & H3).
  exists q, s'. unfold post_entry_to_queue, bind, emit.
  cbn -[Z.add]. rewrite H1. now cbn.
Qed.

(** The same on every queue and for every argument. *)
Lemma post_entry_to_queue_ends table new_data method url max_retries secs s :
  exists o q s',
    post_entry_to_queue sqs_send_message table new_data method url
      max_retries secs s
    = mkRun o (PostEntry table new_data method :: q) s' /\
    forallb is_queue_call q = true /\
    clock_reads s' = clock_reads s /\
    (o = Returned tt \/
     secs < 0 /\ o = Raised negative_sleep /\ sleeps_last secs q).
Proof.
  destruct (post_entry_attempts_ends
              (py.range 1 (max_retries + 1)) table
              (json.dumps_indent4 new_data) method url max_retries secs
              (range_below 1 (max_retries + 1)) s)
    as (o & q & s' & H1 & H2 & H3 & H4).
  exists o, q, s'. unfold post_entry_to_queue. rewrite bind_emit.
  cbn beta. rewrite H1. now cbn.
Qed.

End Publisher.

(** C1.  [post_entry_to_queue] is meant to raise the transport error again
    once its attempts are used up, but the attempts run over
    [range(1, max_retries + 1)] while the handler raises at
    [attempt == max_retries + 1], a value the loop never reaches.  With
    [max_retries = 2] and a queue that rejects every message (or every
    call), the two attempts are made, each followed by a sleep, and the call
    returns normally. *)
Theorem post_entry_to_queue_swallows_the_error :
  post_entry_to_queue scenario.queue_rejects_messages "orca_recoveryjob"
    scenario.a_job_row POST "url" 2 5 scenario.start
  = mkRun (Returned tt)
      (let m :=
         queue_message "orca_recoveryjob"
           (json.dumps_indent4 scenario.a_job_row) POST "url" in
       [PostEntry "orca_recoveryjob" scenario.a_job_row POST;
        SendQueueUrlOnly "url"; SendMessage m; Sleep 5;
        SendQueueUrlOnly "url"; SendMessage m; Sleep 5])
      (mkState 4 0)
  /\
  post_entry_to_queue scenario.queue_down "orca_recoveryjob"
    scenario.a_job_row POST "url" 2 5 scenario.start
  = mkRun (Returned tt)
      [PostEntry "orca_recoveryjob" scenario.a_job_row POST;
       SendQueueUrlOnly "url"; Sleep 5; SendQueueUrlOnly "url"; Sleep 5]
      (mkState 2 0).
Proof. split; reflexivity. Qed.

(** The same for every queue and every argument with a sleep that is not
    negative: no call of [post_entry_to_queue] raises. *)
Lemma post_entry_to_queue_never_raises sqs_send_message table new_data
    method url max_retries secs s e :
  0 <= secs ->
  outcome
    (post_entry_to_queue sqs_send_message table new_data method url
       max_retries secs s)
  <> Raised e.
Proof.
  intros Hsecs.
  destruct (post_entry_to_queue_Returned sqs_send_message table new_data
              method url max_retries secs s Hsecs) as (q & s' & H & _).
  rewrite H. discriminate.
Qed.

(** C7.  The two modules do not share one enumeration: the code that
    [request_files] attaches to a FAILED file event is 4, which the shared
    [OrcaStatus] gives to SUCCESS, whose FAILED is 3.  The PENDING codes
    agree. *)
Theorem ORCA_STATUS_FAILED_is_shared_SUCCESS :
  ORCA_STATUS_FAILED
    = shared_recovery.OrcaStatus_value shared_recovery.SUCCESS /\
  ORCA_STATUS_FAILED
    <> shared_recovery.OrcaStatus_value shared_recovery.FAILED /\
  ORCA_STATUS_PENDING
    = shared_recovery.OrcaStatus_value shared_recovery.PENDING.
Proof. repeat split. discriminate. Qed.

(** ** What reaches the queue

    A status event is handed to [post_entry_to_queue], and what the queue
    then receives depends on [max_retries]: one message when the queue
    accepts the two calls of the first attempt and [max_retries] is at
    least 1, and nothing at all when [max_retries] is 0 or less, since
    [range(1, max_retries + 1)] is then empty. *)

Lemma range_cons lo hi : lo < hi -> py.range lo hi = lo :: py.range (lo + 1) hi.
Proof.
  intros H. unfold py.range.
  replace (Z.to_nat (hi - lo)) with (S (Z.to_nat (hi - (lo + 1)))) by lia.
  cbn [seq map]. f_equal; [lia|].
  rewrite <- seq_shift, map_map. apply map_ext. intros i. lia.
Qed.

Lemma range_empty lo hi : hi <= lo -> py.range lo hi = [].
Proof.
  intros H. unfold py.range.
  replace (Z.to_nat (hi - lo)) with 0%nat by lia. reflexivity.
Qed.

Lemma post_entry_to_queue_delivers_once sqs_send_message table_name new_data
    request_method db_queue_url max_retries retry_sleep_secs s :
  1 <= max_retries ->
  sqs_send_message (sqs_calls s) = None ->
  sqs_send_message (S (sqs_calls s)) = None ->
  post_entry_to_queue sqs_send_message table_name new_data request_method
    db_queue_url max_retries retry_sleep_secs s
  = mkRun (Returned tt)
      [PostEntry table_name new_data request_method;
       SendQueueUrlOnly db_queue_url;
       SendMessage
         (queue_message table_name (json.dumps_indent4 new_data)
            request_method db_queue_url)]
      (mkState (S (S (sqs_calls s))) (clock_reads s)).
Proof.
  intros Hmax H0 H1.
  assert (Hrun :
    post_entry_attempts sqs_send_message (py.range 1 (max_retries + 1))
      table_name (json.dumps_indent4 new_data) request_method db_queue_url
      max_retries retry_sleep_secs s
    = mkRun (Returned tt)
        [SendQueueUrlOnly db_queue_url;
         SendMessage
           (queue_message table_name (json.dumps_indent4 new_data)
              request_method db_queue_url)]
        (mkState (S (S (sqs_calls s))) (clock_reads s))).
  { rewrite range_cons by lia.
    cbn [post_entry_attempts]. unfold bind at 1, try_except_Exception.
    rewrite attempt_body_run, H0, H1. reflexivity. }
  unfold post_entry_to_queue. rewrite bind_emit. cbn beta.
  rewrite Hrun. reflexivity.
Qed.

Lemma post_entry_to_queue_sends_nothing sqs_send_message table_name new_data
    request_method db_queue_url max_retries retry_sleep_secs s :
  max_retries <= 0 ->
  post_entry_to_queue sqs_send_message table_name new_data request_method
    db_queue_url max_retries retry_sleep_secs s
  = mkRun (Returned tt) [PostEntry table_name new_data request_method] s.
Proof.
  intros Hmax. unfold post_entry_to_queue.
  rewrite bind_emit. cbn beta. rewrite range_empty by lia. reflexivity.
Qed.

(** ** The retry loop as a relation

    What one pass and the whole loop do to the files and which calls they
    make, without the counters of the state: [pass k fs fs' tr] reads "pass
    [k] over the files [fs] leaves them as [fs'] and makes the calls
    [tr]".  The functions of the embedding are shown to run inside these
    relations, and the properties of the orchestrator are then proved by
    induction on them. *)

Section Orchestrator.

Variable s3_restore_object : Z -> string -> string -> option ClientError.
Variable sqs_send_message : nat -> option string.
Variable utcnow : nat -> string.

Variables (glacier_bucket : string) (restore_expire_days : Z)
  (max_retries : Z) (retry_sleep_secs : seconds) (retrieval_type : string)
  (job_id : string) (db_queue_url : string).
Variables (request_time : string) (granule_id : string).

(** The payload of the status event of a file. *)
Definition file_event (a_file : File) (status : Z) (error : option string)
    (last_update : string) : json.dict :=
  file_status_data job_id granule_id (py.basename (key a_file))
    (Some (key a_file)) (Some (dest_bucket a_file)) (Some status) error
    (Some request_time) (Some last_update) None.

Definition restore_call (k : Z) (a_file : File) : Effect :=
  RestoreObject k glacier_bucket (key a_file) restore_expire_days
    retrieval_type.

Definition restored_file (a_file : File) : File :=
  mkFile (key a_file) (dest_bucket a_file) true (Some "").

Inductive pass (k : Z) : list File -> list File -> list Effect -> Prop :=
| pass_nil : pass k [] [] []
| pass_skip f fs fs' tr :
    success f = true ->
    pass k fs fs' tr ->
    pass k (f :: fs) (f :: fs') tr
| pass_error f err fs fs' tr :
    success f = false ->
    s3_restore_object k glacier_bucket (key f) = Some err ->
    pass k fs fs' tr ->
    pass k (f :: fs) (set_err_msg f (error_str err) :: fs')
      (restore_call k f :: tr)
| pass_restored f last_update q fs fs' tr :
    success f = false ->
    s3_restore_object k glacier_bucket (key f) = None ->
    forallb is_queue_call q = true ->
    pass k fs fs' tr ->
    pass k (f :: fs) (restored_file f :: fs')
      (restore_call k f
         :: PostEntry "orca_recoverfile"
              (file_event f ORCA_STATUS_PENDING None last_update) POST
         :: q ++ tr).

Inductive passes : Z -> list File -> list File -> list Effect -> Prop :=
| passes_over k fs :
    max_retries + 1 < k ->
    passes k fs fs []
| passes_early_exit k fs fs' tr :
    k <= max_retries + 1 ->
    pass k fs fs' tr ->
    k + 1 <= max_retries + 1 ->
    forallb success fs' = true ->
    passes k fs fs' tr
| passes_sleep k fs fs1 fs' tr1 tr :
    k <= max_retries + 1 ->
    pass k fs fs1 tr1 ->
    k + 1 <= max_retries + 1 ->
    forallb success fs1 = false ->
    passes (k + 1) fs1 fs' tr ->
    passes k fs fs' (tr1 ++ Sleep retry_sleep_secs :: tr)
| passes_last k fs fs1 fs' tr1 tr :
    k <= max_retries + 1 ->
    pass k fs fs1 tr1 ->
    max_retries + 1 < k + 1 ->
    passes (k + 1) fs1 fs' tr ->
    passes k fs fs' (tr1 ++ tr).

(** The reports that follow the loop. *)
Inductive reports : list File -> list Effect -> Prop :=
| reports_nil : reports [] []
| reports_skip f fs tr :
    success f = true ->
    reports fs tr ->
    reports (f :: fs) tr
| reports_failed f last_update q fs tr :
    success f = false ->
    forallb is_queue_call q = true ->
    reports fs tr ->
    reports (f :: fs)
      (PostEntry "orca_recoverfile"
         (file_event f ORCA_STATUS_FAILED (err_msg f) last_update) POST
         :: q ++ tr).

Local Abbreviation restore_one_file' :=
  (restore_one_file s3_restore_object sqs_send_message utcnow glacier_bucket
     restore_expire_days max_retries retry_sleep_secs retrieval_type job_id
     db_queue_url request_time granule_id).
Local Abbreviation retry_loop' :=
  (retry_loop s3_restore_object sqs_send_message utcnow glacier_bucket
     restore_expire_days max_retries retry_sleep_secs retrieval_type job_id
     db_queue_url request_time granule_id).
Local Abbreviation report_failures' :=
  (report_failures sqs_send_message utcnow max_retries retry_sleep_secs
     job_id db_queue_url request_time granule_id).
Local Abbreviation after_retries' :=
  (after_retries sqs_send_message utcnow max_retries retry_sleep_secs
     job_id db_queue_url request_time granule_id).

Lemma restore_object_run k x job s :
  restore_object s3_restore_object x restore_expire_days glacier_bucket k job
    retrieval_type s
  = mkRun
      match s3_restore_object k glacier_bucket x with
      | None => Returned tt
      | Some err => Raised (BotoClientError err)
      end
      [RestoreObject k glacier_bucket x restore_expire_days retrieval_type]
      s.
Proof.
  unfold restore_object, try_except_ClientError, bind, emit, ret, raise.
  cbn. destruct (s3_restore_object k glacier_bucket x); reflexivity.
Qed.

Lemma now_run s :
  now utcnow s
  = mkRun (Returned (utcnow (clock_reads s))) []
      (mkState (sqs_calls s) (S (clock_reads s))).
Proof. reflexivity. Qed.

(** *** Runs that a negative sleep cuts short

    [time.sleep] raises [ValueError] when its length is negative, and
    nothing in [process_granule] catches it.  The run is then the beginning
    of a run that the relations describe: [cut_short o tr full] reads "the
    run raised [negative_sleep] after the calls [tr], the last of which is
    the sleep and which are the first of [full]", and [ends o tr o' full]
    "the run ended as [o'] after the calls [full], or was cut short". *)
Definition cut_short {A} (o : Outcome A) (tr full : list Effect) : Prop :=
  retry_sleep_secs < 0 /\
  o = Raised negative_sleep /\
  sleeps_last retry_sleep_secs tr /\
  exists rest, full = tr ++ rest.

Definition ends {A} (o : Outcome A) (tr : list Effect) (o' : Outcome A)
    (full : list Effect) : Prop :=
  o = o' /\ tr = full \/ cut_short o tr full.

Lemma ends_full {A} (o : Outcome A) tr o' full :
  0 <= retry_sleep_secs -> ends o tr o' full -> o = o' /\ tr = full.
Proof. intros Hsecs [H|(Hneg & _)]; [exact H|lia]. Qed.

Lemma ends_prefix {A} (o : Outcome A) tr o' full :
  ends o tr o' full -> exists rest, full = tr ++ rest.
Proof.
  intros [[_ ->]|(_ & _ & _ & H)]; [|exact H].
  exists []. now rewrite app_nil_r.
Qed.

Lemma ends_app {A} pre (o : Outcome A) tr o' full :
  ends o tr o' full -> ends o (pre ++ tr) o' (pre ++ full).
Proof.
  intros [[-> ->]|(Hneg & -> & Hlast & rest & ->)]; [now left|right].
  split; [exact Hneg|]. split; [reflexivity|].
  split; [now apply sleeps_last_app|]. exists rest. now rewrite app_assoc.
Qed.

Lemma cut_short_app {A} (tr rest more : list Effect) :
  retry_sleep_secs < 0 ->
  sleeps_last retry_sleep_secs tr ->
  cut_short (A := A) (Raised negative_sleep) tr ((tr ++ rest) ++ more).
Proof.
  intros Hneg Hlast. split; [exact Hneg|]. split; [reflexivity|].
  split; [exact Hlast|]. exists (rest ++ more). now rewrite app_assoc.
Qed.

Lemma cut_short_here {A} (tr rest : list Effect) :
  retry_sleep_secs < 0 ->
  sleeps_last retry_sleep_secs tr ->
  cut_short (A := A) (Raised negative_sleep) tr (tr ++ rest).
Proof.
  intros Hneg Hlast. split; [exact Hneg|]. split; [reflexivity|].
  split; [exact Hlast|]. now exists rest.
Qed.

Lemma post_status_for_file_to_queue_ends f status error last_update s :
  exists o q s',
    post_status_for_file_to_queue sqs_send_message job_id granule_id
      (py.basename (key f)) (Some (key f)) (Some (dest_bucket f))
      (Some status) error (Some request_time) last_update None POST
      db_queue_url max_retries retry_sleep_secs s
    = mkRun o
        (PostEntry "orca_recoverfile"
           (file_event f status error last_update) POST :: q)
        s' /\
    forallb is_queue_call q = true /\
    clock_reads s' = clock_reads s /\
    (o = Returned tt \/
     retry_sleep_secs < 0 /\ o = Raised negative_sleep /\
     sleeps_last retry_sleep_secs q).
Proof.
  unfold post_status_for_file_to_queue.
  apply post_entry_to_queue_ends.
Qed.

Lemma restore_one_file_ends k f s fs fs' tr :
  pass k fs fs' tr ->
  exists f' o tr1 s',
    restore_one_file' k f s = mkRun o tr1 s' /\
    pass k (f :: fs) (f' :: fs') (tr1 ++ tr) /\
    (o = Returned f' \/
     retry_sleep_secs < 0 /\ o = Raised negative_sleep /\
     sleeps_last retry_sleep_secs tr1).
Proof.
  intros Hrest. unfold restore_one_file.
  destruct (success f) eqn:Hf.
  { exists f, (Returned f), [], s.
    split; [reflexivity|]. split; [now apply pass_skip|now left]. }
  unfold try_except_ClientError at 1.
  erewrite bind_run by apply restore_object_run.
  destruct (s3_restore_object k glacier_bucket (key f)) as [err|] eqn:Hk.
  { exists (set_err_msg f (error_str err)),
      (Returned (set_err_msg f (error_str err))), [restore_call k f], s.
    split; [reflexivity|]. split; [now apply pass_error|now left]. }
  destruct (post_status_for_file_to_queue_ends f ORCA_STATUS_PENDING None
              (utcnow (clock_reads s))
              (mkState (sqs_calls s) (S (clock_reads s))))
    as (o & q & s' & H1 & H2 & H3 & H4).
  match goal with
  | |- context [try_except_ClientError ?m ?h s] =>
      assert (Hin : try_except_ClientError m h s
                    = mkRun
                        match o with
                        | Returned _ => Returned (restored_file f)
                        | Raised e => Raised e
                        | OutOfFuel => OutOfFuel
                        end
                        (PostEntry "orca_recoverfile"
                           (file_event f ORCA_STATUS_PENDING None
                              (utcnow (clock_reads s))) POST :: q) s')
  end.
  { unfold try_except_ClientError. cbn [dest_bucket key].
    erewrite bind_run by apply now_run. cbn [app].
    erewrite bind_run by exact H1.
    destruct H4 as [->|(_ & -> & _)]; cbn; now rewrite ?app_nil_r. }
  rewrite Hin. cbn [outcome calls final].
  exists (restored_file f),
    match o with
    | Returned _ => Returned (restored_file f)
    | Raised e => Raised e
    | OutOfFuel => OutOfFuel
    end,
    (restore_call k f
       :: PostEntry "orca_recoverfile"
            (file_event f ORCA_STATUS_PENDING None (utcnow (clock_reads s)))
            POST
       :: q),
    s'.
  split; [destruct H4 as [->|(_ & -> & _)]; reflexivity|].
  split; [cbn [app]; now apply pass_restored|].
  destruct H4 as [->|(Hneg & -> & Hlast)]; [now left|right].
  split; [exact Hneg|]. split; [reflexivity|].
  now do 2 apply sleeps_last_cons.
Qed.

Lemma for_each_ends k fs s :
  exists fs' full o tr s',
    for_each (restore_one_file' k) fs s = mkRun o tr s' /\
    pass k fs fs' full /\
    ends o tr (Returned fs') full.
Proof.
  revert s. induction fs as [|f fs IH]; intros s.
  { exists [], [], (Returned []), [], s.
    split; [reflexivity|]. split; [constructor|now left]. }
  cbn [for_each].
  destruct (restore_one_file_ends k f s [] [] [] (pass_nil k))
    as (f0 & o1 & tr1 & s1 & H1 & _ & _).
  destruct (IH s1) as (fs' & full & o2 & tr2 & s2 & H2 & Hp & He).
  destruct (restore_one_file_ends k f s fs fs' full Hp)
    as (f' & o1' & tr1' & s1' & H1' & Hp' & Ho1).
  rewrite H1 in H1'. injection H1' as <- <- <-.
  erewrite bind_run by exact H1.
  destruct Ho1 as [->|(Hneg & -> & Hlast)].
  - erewrite bind_run by exact H2.
    destruct He as [[-> ->]|(Hneg & -> & Hlast & rest & ->)]; cbn.
    + exists (f' :: fs'), (tr1 ++ full), (Returned (f' :: fs')),
        (tr1 ++ full), s2.
      rewrite app_nil_r. split; [reflexivity|]. split; [exact Hp'|now left].
    + exists (f' :: fs'), (tr1 ++ tr2 ++ rest), (Raised negative_sleep),
        (tr1 ++ tr2), s2.
      split; [reflexivity|]. split; [exact Hp'|].
      right. rewrite app_assoc.
      apply cut_short_here; [exact Hneg|now apply sleeps_last_app].
  - exists (f' :: fs'), (tr1 ++ full), (Raised negative_sleep), tr1, s1.
    split; [reflexivity|]. split; [exact Hp'|].
    right. now apply cut_short_here.
Qed.

(** A pass is followed by the passes that remain. *)
Lemma passes_after_pass k fs fs1 full1 fs' full :
  k <= max_retries + 1 -> pass k fs fs1 full1 ->
  passes (k + 1) fs1 fs' full ->
  exists fs'' full2, passes k fs fs'' (full1 ++ full2).
Proof.
  intros Hk Hp Hps.
  destruct (Z.le_gt_cases (k + 1) (max_retries + 1)) as [Hk1|Hk1].
  - destruct (forallb success fs1) eqn:Hall.
    + exists fs1, []. rewrite app_nil_r. now apply passes_early_exit.
    + exists fs', (Sleep retry_sleep_secs :: full).
      now eapply passes_sleep; eauto.
  - exists fs', full. eapply passes_last; eauto.
Qed.

(** The loop ends when it is given a turn for each pass that remains: it
    never runs out of fuel. *)
Lemma retry_loop_ends fuel k id ks fs s :
  (Z.to_nat (max_retries + 2 - k) <= fuel)%nat ->
  exists fs' full o tr s',
    retry_loop' fuel k (mkGranule id ks (Some fs)) s = mkRun o tr s' /\
    passes k fs fs' full /\
    ends o tr (Returned (mkGranule id ks (Some fs'))) full.
Proof.
  revert k fs s. induction fuel as [|fuel IH]; intros k fs s Hfuel.
  - exists fs, [], (Returned (mkGranule id ks (Some fs))), [], s.
    cbn [retry_loop].
    destruct (Z.leb_spec k (max_retries + 1)); [lia|].
    split; [reflexivity|]. split; [now constructor|now left].
  - cbn [retry_loop].
    destruct (Z.leb_spec k (max_retries + 1)) as [Hk|Hk].
    2: { exists fs, [], (Returned (mkGranule id ks (Some fs))), [], s.
         split; [reflexivity|]. split; [now constructor|now left]. }
    cbn [recover_files lookup]. rewrite bind_ret.
    destruct (for_each_ends k fs s)
      as (fs1 & full1 & o1 & tr1 & s1 & H1 & Hp & He).
    erewrite bind_run by exact H1.
    destruct He as [[-> ->]|(Hneg & -> & Hlast & rest & ->)].
    2: { destruct (IH (k + 1) fs1 s ltac:(lia))
           as (fs' & full & _ & _ & _ & _ & Hps & _).
         destruct (passes_after_pass k fs fs1 (tr1 ++ rest) fs' full Hk Hp Hps)
           as (fs'' & full2 & Hps').
         exists fs'', ((tr1 ++ rest) ++ full2), (Raised negative_sleep), tr1,
           s1.
         split; [reflexivity|]. split; [exact Hps'|].
         right. now apply cut_short_app. }
    cbn match.
    unfold set_recover_files. cbn [recover_files granuleId keys lookup].
    destruct (Z.leb_spec (k + 1) (max_retries + 1)) as [Hk1|Hk1].
    + rewrite bind_ret.
      destruct (forallb success fs1) eqn:Hall.
      * exists fs1, full1, (Returned (mkGranule id ks (Some fs1))), full1, s1.
        cbn. rewrite app_nil_r.
        split; [reflexivity|].
        split; [now apply passes_early_exit|now left].
      * destruct (IH (k + 1) fs1 s1 ltac:(lia))
          as (fs' & full & o & tr & s' & H2 & Hps & He).
        erewrite bind_run by apply sleep_run.
        exists fs', (full1 ++ Sleep retry_sleep_secs :: full).
        destruct (Z.ltb_spec retry_sleep_secs 0) as [Hneg|Hsecs].
        -- exists (Raised negative_sleep),
             (full1 ++ [Sleep retry_sleep_secs]), s1.
           split; [reflexivity|].
           split; [now eapply passes_sleep; eauto|].
           right.
           change (full1 ++ Sleep retry_sleep_secs :: full)
             with (full1 ++ [Sleep retry_sleep_secs] ++ full).
           rewrite app_assoc.
           apply cut_short_here; [exact Hneg|now exists full1].
        -- rewrite H2. cbn [outcome final calls app].
           exists o, (full1 ++ Sleep retry_sleep_secs :: tr), s'.
           split; [reflexivity|].
           split; [now eapply passes_sleep; eauto|].
           apply ends_app.
           change (ends o ([Sleep retry_sleep_secs] ++ tr)
                     (Returned (mkGranule id ks (Some fs')))
                     ([Sleep retry_sleep_secs] ++ full)).
           now apply ends_app.
    + destruct (IH (k + 1) fs1 s1 ltac:(lia))
        as (fs' & full & o & tr & s' & H2 & Hps & He).
      rewrite H2. cbn [outcome final calls].
      exists fs', (full1 ++ full), o, (full1 ++ tr), s'.
      split; [reflexivity|].
      split; [now eapply passes_last; eauto|now apply ends_app].
Qed.

Lemma report_failures_ends fs any s :
  exists full o tr s',
    report_failures' fs any s = mkRun o tr s' /\
    reports fs full /\
    ends o tr
      (Returned (any || existsb (fun f => negb (success f)) fs)%bool) full.
Proof.
  revert any s. induction fs as [|f fs IH]; intros any s.
  { exists [], (Returned any), [], s. cbn. rewrite orb_false_r.
    split; [reflexivity|]. split; [constructor|now left]. }
  cbn [report_failures existsb].
  destruct (success f) eqn:Hf; cbn [negb].
  - destruct (IH any s) as (full & o & tr & s' & H & Hr & He).
    exists full, o, tr, s'. split; [exact H|]. split; [now constructor|].
    exact He.
  - erewrite bind_run by apply now_run. cbn [app].
    destruct (post_status_for_file_to_queue_ends f ORCA_STATUS_FAILED
                (err_msg f) (utcnow (clock_reads s))
                (mkState (sqs_calls s) (S (clock_reads s))))
      as (o1 & q & s1 & H1 & H2 & H3 & H4).
    destruct (IH true s1) as (full & o & tr & s' & H & Hr & He).
    erewrite bind_run by exact H1.
    exists (PostEntry "orca_recoverfile"
              (file_event f ORCA_STATUS_FAILED (err_msg f)
                 (utcnow (clock_reads s))) POST :: q ++ full).
    destruct H4 as [->|(Hneg & -> & Hlast)].
    + rewrite H. cbn [outcome final calls].
      exists o,
        (PostEntry "orca_recoverfile"
           (file_event f ORCA_STATUS_FAILED (err_msg f)
              (utcnow (clock_reads s))) POST :: q ++ tr), s'.
      rewrite orb_true_r. split; [reflexivity|].
      split; [now constructor|].
      rewrite orb_true_l in He.
      change (ends o
                ((PostEntry "orca_recoverfile"
                    (file_event f ORCA_STATUS_FAILED (err_msg f)
                       (utcnow (clock_reads s))) POST :: q) ++ tr)
                (Returned true)
                ((PostEntry "orca_recoverfile"
                    (file_event f ORCA_STATUS_FAILED (err_msg f)
                       (utcnow (clock_reads s))) POST :: q) ++ full)).
      now apply ends_app.
    + exists (Raised negative_sleep),
        (PostEntry "orca_recoverfile"
           (file_event f ORCA_STATUS_FAILED (err_msg f)
              (utcnow (clock_reads s))) POST :: q), s1.
      split; [reflexivity|]. split; [now constructor|].
      right.
      change (cut_short (A := bool) (Raised negative_sleep)
                (PostEntry "orca_recoverfile"
                   (file_event f ORCA_STATUS_FAILED (err_msg f)
                      (utcnow (clock_reads s))) POST :: q)
                ((PostEntry "orca_recoverfile"
                    (file_event f ORCA_STATUS_FAILED (err_msg f)
                       (utcnow (clock_reads s))) POST :: q) ++ full)).
      apply cut_short_here; [exact Hneg|now apply sleeps_last_cons].
Qed.

(** *** With a sleep that is not negative

    No run is cut short: every function returns, inside its relation. *)
Lemma post_status_for_file_to_queue_run f status error last_update s :
  0 <= retry_sleep_secs ->
  exists q s',
    post_status_for_file_to_queue sqs_send_message job_id granule_id
      (py.basename (key f)) (Some (key f)) (Some (dest_bucket f))
      (Some status) error (Some request_time) last_update None POST
      db_queue_url max_retries retry_sleep_secs s
    = mkRun (Returned tt)
        (PostEntry "orca_recoverfile"
           (file_event f status error last_update) POST :: q)
        s' /\
    forallb is_queue_call q = true /\
    clock_reads s' = clock_reads s.
Proof.
  intros Hsecs. unfold post_status_for_file_to_queue.
  now apply post_entry_to_queue_Returned.
Qed.


Lemma for_each_run k fs s :
  0 <= retry_sleep_secs ->
  exists fs' tr s',
    for_each (restore_one_file' k) fs s = mkRun (Returned fs') tr s' /\
    pass k fs fs' tr.
Proof.
  intros Hsecs.
  destruct (for_each_ends k fs s) as (fs' & full & o & tr & s' & H & Hp & He).
  apply (ends_full _ _ _ _ Hsecs) in He. destruct He as [-> ->].
  now exists fs', full, s'.
Qed.


Lemma report_failures_run fs any s :
  0 <= retry_sleep_secs ->
  exists tr s',
    report_failures' fs any s
    = mkRun (Returned (any || existsb (fun f => negb (success f)) fs)%bool)
        tr s' /\
    reports fs tr.
Proof.
  intros Hsecs.
  destruct (report_failures_ends fs any s)
    as (full & o & tr & s' & H & Hr & He).
  apply (ends_full _ _ _ _ Hsecs) in He. destruct He as [-> ->].
  now exists full, s'.
Qed.

(** *** What the passes do to a file *)

(** One pass. *)
Definition step (k : Z) (f f' : File) : Prop :=
  if success f then f' = f
  else
    match s3_restore_object k glacier_bucket (key f) with
    | Some err => f' = set_err_msg f (error_str err)
    | None => f' = restored_file f
    end.

(** The passes from [k] on. *)
Definition outcome_from (k : Z) (f f' : File) : Prop :=
  key f' = key f /\
  dest_bucket f' = dest_bucket f /\
  (success f' = true <->
   success f = true \/
   exists j, k <= j <= max_retries + 1 /\
             s3_restore_object j glacier_bucket (key f) = None) /\
  (success f' = false -> k <= max_retries + 1 ->
   exists err,
     s3_restore_object (max_retries + 1) glacier_bucket (key f) = Some err /\
     err_msg f' = Some (error_str err)) /\
  (max_retries + 1 < k -> f' = f) /\
  (success f = true -> f' = f) /\
  (success f = false -> success f' = true -> err_msg f' = Some "").

Lemma pass_step k fs fs' tr : pass k fs fs' tr -> Forall2 (step k) fs fs'.
Proof.
  induction 1; constructor; auto; unfold step;
    match goal with H : success _ = _ |- _ => rewrite H end;
    try match goal with H : s3_restore_object _ _ _ = _ |- _ => rewrite H end;
    reflexivity.
Qed.

Ltac step_cases H :=
  unfold step in H;
  destruct (success _) eqn:?;
  [|destruct (s3_restore_object _ _ _) eqn:?]; subst;
  unfold outcome_from, set_err_msg, restored_file in *;
  cbn [key dest_bucket success err_msg] in *.

Lemma outcome_over k f : max_retries + 1 < k -> outcome_from k f f.
Proof.
  intros Hk. repeat split; auto; try lia; try congruence.
  intros [H|(j & Hj & _)]; [exact H|lia].
Qed.

Lemma outcome_last k f f1 :
  k = max_retries + 1 -> step k f f1 -> outcome_from k f f1.
Proof.
  intros -> H. step_cases H; repeat split; auto; try lia;
    try congruence; eauto.
  - intros [H|(j & Hj & Hnone)]; [congruence|].
    assert (j = max_retries + 1) by lia. congruence.
  - intros _. right. exists (max_retries + 1). split; [lia|assumption].
Qed.

Lemma outcome_exit k f f1 :
  k <= max_retries + 1 -> step k f f1 -> success f1 = true ->
  outcome_from k f f1.
Proof.
  intros Hk H H1. step_cases H; cbn in *; repeat split; auto; try lia;
    try congruence.
  right. exists k. split; [lia|assumption].
Qed.

Lemma outcome_more k f f1 f' :
  k + 1 <= max_retries + 1 -> step k f f1 -> outcome_from (k + 1) f1 f' ->
  outcome_from k f f'.
Proof.
  intros Hk H (Hkey & Hdest & Hiff & Herr & Hover & Hkeep & Hclear).
  step_cases H; cbn in *.
  - rewrite Hkeep by assumption. repeat split; auto; try lia; congruence.
  - repeat split; auto; try lia; try congruence.
    + intros H1. apply Hiff in H1.
      destruct H1 as [H1|(j & Hj & Hnone)]; [congruence|].
      right. exists j. split; [lia|assumption].
    + intros [H1|(j & Hj & Hnone)]; [congruence|].
      apply Hiff. right. exists j. split; [|assumption].
      assert (j <> k) by congruence. lia.
  - rewrite Hkeep by reflexivity. cbn.
    repeat split; auto; try lia; try congruence.
    intros _. right. exists k. split; [lia|assumption].
Qed.

Lemma passes_outcome k fs fs' tr :
  passes k fs fs' tr -> Forall2 (outcome_from k) fs fs'.
Proof.
  induction 1 as [k fs Hk|k fs fs' tr Hk Hp Hk1 Hall
                 |k fs fs1 fs' tr1 tr Hk Hp Hk1 Hall Hps IH
                 |k fs fs1 fs' tr1 tr Hk Hp Hk1 Hps IH].
  - apply Forall2_refl_all. intros f. now apply outcome_over.
  - eapply Forall2_with_right; [|eapply pass_step; eassumption|exact Hall].
    intros f f1 Hs H1. now apply outcome_exit.
  - eapply Forall2_compose; [|eapply pass_step; eassumption|exact IH].
    intros f f1 f' Hs Ho. now eapply outcome_more; eauto.
  - eapply Forall2_compose; [|eapply pass_step; eassumption|exact IH].
    intros f f1 f' Hs (_ & _ & _ & _ & Hover & _ & _).
    rewrite Hover by lia. apply outcome_last; [lia|assumption].
Qed.

(** *** The whole of process_granule *)

Definition job_event : json.dict :=
  [("job_id", json.JStr job_id); ("granule_id", json.JStr granule_id);
   ("status_id", json.JInt ORCA_STATUS_PENDING);
   ("request_time", json.JStr request_time);
   ("archive_destination", json.JStr glacier_bucket)].

Definition some_failed (fs : list File) : bool :=
  existsb (fun f => negb (success f)) fs.

(** How [process_granule] ends on the files the loop left. *)
Definition ending (id : option string) (ks : option (list KeyEntry))
    (fs : list File) : Outcome Granule :=
  if some_failed fs then
    Raised (RestoreRequestError (FilesFailed (mkGranule id ks (Some fs))))
  else Returned (mkGranule id ks (Some fs)).

Lemma after_retries_ends id ks fs s :
  exists full o tr s',
    after_retries' (mkGranule id ks (Some fs)) s = mkRun o tr s' /\
    reports fs full /\
    ends o tr (ending id ks fs) full.
Proof.
  unfold after_retries. cbn [recover_files lookup]. rewrite bind_ret.
  destruct (report_failures_ends fs false s)
    as (full & o & tr & s' & H & Hr & He).
  erewrite bind_run by exact H. cbn [orb] in He.
  exists full.
  destruct He as [[-> ->]|(Hneg & -> & Hlast & rest & ->)].
  - eexists _, _, _. split; [reflexivity|]. split; [exact Hr|].
    left. unfold ending, some_failed.
    destruct (existsb _ fs); cbn; now rewrite app_nil_r.
  - exists (Raised negative_sleep), tr, s'.
    split; [reflexivity|]. split; [exact Hr|].
    right. now apply cut_short_here.
Qed.

(** [process_granule] on every queue and with every sleep: the job event is
    handed over first, and the calls that follow are those of the passes
    and of the reports, all of them or, when a negative sleep raises, the
    first of them. *)
Lemma process_granule_ends ks fs s :
  utcnow (clock_reads s) = request_time ->
  exists fs' q tr1 tr2 o tr s',
    process_granule s3_restore_object sqs_send_message utcnow
      (mkGranule (Some granule_id) ks (Some fs)) glacier_bucket
      restore_expire_days max_retries retry_sleep_secs retrieval_type job_id
      db_queue_url s
    = mkRun o (PostEntry "orca_recoveryjob" job_event POST :: tr) s' /\
    forallb is_queue_call q = true /\
    passes 1 fs fs' tr1 /\
    reports fs' tr2 /\
    ends o tr (ending (Some granule_id) ks fs') (q ++ tr1 ++ tr2).
Proof.
  intros Hnow. unfold process_granule.
  erewrite bind_run by apply now_run. rewrite Hnow.
  cbn [granuleId lookup app]. rewrite bind_ret.
  unfold post_status_for_job_to_queue. cbn [option_map set_if_not_None app].
  destruct (post_entry_to_queue_ends sqs_send_message "orca_recoveryjob"
              job_event POST db_queue_url max_retries retry_sleep_secs
              (mkState (sqs_calls s) (S (clock_reads s))))
    as (o0 & q & s0 & H0 & Hq & _ & Ho0).
  unfold job_event in H0. erewrite bind_run by exact H0.
  destruct (retry_loop_ends (Z.to_nat (max_retries + 1)) 1 (Some granule_id)
              ks fs s0 ltac:(lia))
    as (fs' & full1 & o1 & tr1 & s1 & H1 & Hps & He1).
  destruct (after_retries_ends (Some granule_id) ks fs' s1)
    as (full2 & o2 & tr2 & s2 & H2 & Hr & He2).
  exists fs', q, full1, full2.
  destruct Ho0 as [->|(Hneg & -> & Hlast)].
  2: { exists (Raised negative_sleep), q, s0.
       split; [reflexivity|]. repeat split; auto.
       right. now apply cut_short_here. }
  erewrite bind_run by exact H1.
  destruct He1 as [[-> ->]|(Hneg & -> & Hlast & rest & ->)].
  - rewrite H2. cbn [outcome calls final].
    exists o2, (q ++ full1 ++ tr2), s2.
    split; [reflexivity|]. repeat split; auto.
    now do 2 apply ends_app.
  - exists (Raised negative_sleep), (q ++ tr1), s1.
    split; [reflexivity|]. repeat split; auto.
    right. rewrite <- app_assoc, (app_assoc q).
    apply cut_short_here; [exact Hneg|now apply sleeps_last_app].
Qed.

Lemma after_retries_run id ks fs s :
  0 <= retry_sleep_secs ->
  exists tr s',
    after_retries' (mkGranule id ks (Some fs)) s
    = mkRun (ending id ks fs) tr s' /\
    reports fs tr.
Proof.
  intros Hsecs.
  destruct (after_retries_ends id ks fs s)
    as (full & o & tr & s' & H & Hr & He).
  apply (ends_full _ _ _ _ Hsecs) in He. destruct He as [-> ->].
  now exists full, s'.
Qed.

Lemma process_granule_run ks fs s :
  0 <= retry_sleep_secs ->
  utcnow (clock_reads s) = request_time ->
  exists fs' q tr1 tr2 s',
    process_granule s3_restore_object sqs_send_message utcnow
      (mkGranule (Some granule_id) ks (Some fs)) glacier_bucket
      restore_expire_days max_retries retry_sleep_secs retrieval_type job_id
      db_queue_url s
    = mkRun (ending (Some granule_id) ks fs')
        (PostEntry "orca_recoveryjob" job_event POST :: q ++ tr1 ++ tr2) s' /\
    forallb is_queue_call q = true /\
    passes 1 fs fs' tr1 /\
    reports fs' tr2.
Proof.
  intros Hsecs Hnow.
  destruct (process_granule_ends ks fs s Hnow)
    as (fs' & q & tr1 & tr2 & o & tr & s' & H & Hq & Hps & Hr & He).
  apply (ends_full _ _ _ _ Hsecs) in He. destruct He as [-> ->].
  now exists fs', q, tr1, tr2, s'.
Qed.

(** *** The calls of the passes *)

Lemma file_event_key_path x f status error last_update :
  has_key_path x (file_event f status error last_update)
  = String.eqb x (key f).
Proof. destruct error; reflexivity. Qed.

Lemma file_event_status f status error last_update :
  has_status status (file_event f status error last_update) = true.
Proof.
  unfold has_status. destruct error; cbn; apply Z.eqb_refl.
Qed.

Lemma file_event_completion_time f status error last_update :
  json.get "completion_time" (file_event f status error last_update) = None.
Proof. destruct error; reflexivity. Qed.

Lemma file_event_error_message f status error last_update :
  json.get "error_message" (file_event f status error last_update)
  = option_map json.JStr error.
Proof. destruct error; reflexivity. Qed.

Lemma pass_restored_calls k fs fs' tr :
  pass k fs fs' tr ->
  restored tr
  = map (fun f => (k, key f)) (filter (fun f => negb (success f)) fs).
Proof.
  induction 1 as [|f fs fs' tr Hf _ IH|f err fs fs' tr Hf Hk _ IH
                 |f lu q fs fs' tr Hf Hk Hq _ IH];
    cbn [filter]; try rewrite Hf; cbn [negb map]; auto.
  - change (restore_call k f :: tr) with ([restore_call k f] ++ tr).
    now rewrite restored_app, IH.
  - change (restore_call k f :: ?a :: q ++ tr)
      with ([restore_call k f; a] ++ q ++ tr).
    now rewrite !restored_app, (restored_queue q Hq), IH.
Qed.

Lemma pass_posted_job k fs fs' tr :
  pass k fs fs' tr -> posted "orca_recoveryjob" tr = [].
Proof.
  induction 1 as [|f fs fs' tr Hf _ IH|f err fs fs' tr Hf Hk _ IH
                 |f lu q fs fs' tr Hf Hk Hq _ IH]; auto.
  change (restore_call k f :: ?a :: q ++ tr)
    with ([restore_call k f; a] ++ q ++ tr).
  now rewrite !posted_app, (posted_queue _ q Hq), IH.
Qed.

Lemma pass_posted_pending k fs fs' tr :
  pass k fs fs' tr ->
  forallb (has_status ORCA_STATUS_PENDING) (posted "orca_recoverfile" tr)
  = true.
Proof.
  induction 1 as [|f fs fs' tr Hf _ IH|f err fs fs' tr Hf Hk _ IH
                 |f lu q fs fs' tr Hf Hk Hq _ IH]; auto.
  change (restore_call k f :: ?a :: q ++ tr)
    with ([restore_call k f; a] ++ q ++ tr).
  rewrite !posted_app, (posted_queue _ q Hq). cbn [app].
  rewrite forallb_app, IH.
  change (posted "orca_recoverfile" [restore_call k f; PostEntry _ ?d _])
    with [d].
  cbn [forallb]. now rewrite file_event_status.
Qed.

Lemma pass_events_for x k fs fs' tr :
  pass k fs fs' tr ->
  (events_for x tr + unfinished x fs' = unfinished x fs)%nat.
Proof.
  induction 1 as [|f fs fs' tr Hf _ IH|f err fs fs' tr Hf Hk _ IH
                 |f lu q fs fs' tr Hf Hk Hq _ IH]; auto.
  - unfold unfinished in *. cbn [filter]. rewrite Hf. cbn [negb andb].
    exact IH.
  - change (restore_call k f :: tr) with ([restore_call k f] ++ tr).
    rewrite events_for_app. unfold unfinished in *. cbn [filter].
    unfold set_err_msg at 1 2. cbn [success key]. rewrite Hf. cbn [negb andb].
    destruct (String.eqb x (key f)); cbn [List.length];
      change (events_for x [restore_call k f]) with 0%nat; lia.
  - change (restore_call k f :: ?a :: q ++ tr)
      with ([restore_call k f; a] ++ q ++ tr).
    rewrite !events_for_app, (events_for_queue x q Hq).
    unfold unfinished in *. cbn [filter]. rewrite Hf.
    unfold restored_file at 1. cbn [success negb andb].
    unfold events_for at 1.
    change (posted "orca_recoverfile" [restore_call k f; PostEntry _ ?d _])
      with [d].
    cbn [filter]. rewrite file_event_key_path.
    destruct (String.eqb x (key f)); cbn [List.length]; lia.
Qed.

(** *** The calls of the loop *)

Lemma step_unsuccessful k f f1 :
  step k f f1 -> success f1 = false ->
  success f = false /\ key f1 = key f /\
  s3_restore_object k glacier_bucket (key f) <> None.
Proof.
  intros H H1. step_cases H; try congruence; try discriminate.
  repeat split; congruence.
Qed.

Lemma passes_posted_job k fs fs' tr :
  passes k fs fs' tr -> posted "orca_recoveryjob" tr = [].
Proof.
  induction 1 as [k fs Hk|k fs fs' tr Hk Hp Hk1 Hall
                 |k fs fs1 fs' tr1 tr Hk Hp Hk1 Hall Hps IH
                 |k fs fs1 fs' tr1 tr Hk Hp Hk1 Hps IH];
    auto; try (eapply pass_posted_job; eassumption).
  - change (Sleep retry_sleep_secs :: tr) with ([Sleep retry_sleep_secs] ++ tr).
    now rewrite !posted_app, (pass_posted_job _ _ _ _ Hp), IH.
  - now rewrite !posted_app, (pass_posted_job _ _ _ _ Hp), IH.
Qed.

Lemma passes_posted_pending k fs fs' tr :
  passes k fs fs' tr ->
  forallb (has_status ORCA_STATUS_PENDING) (posted "orca_recoverfile" tr)
  = true.
Proof.
  induction 1 as [k fs Hk|k fs fs' tr Hk Hp Hk1 Hall
                 |k fs fs1 fs' tr1 tr Hk Hp Hk1 Hall Hps IH
                 |k fs fs1 fs' tr1 tr Hk Hp Hk1 Hps IH];
    auto; try (eapply pass_posted_pending; eassumption).
  - change (Sleep retry_sleep_secs :: tr) with ([Sleep retry_sleep_secs] ++ tr).
    rewrite !posted_app, !forallb_app, IH.
    now rewrite (pass_posted_pending _ _ _ _ Hp).
  - rewrite !posted_app, !forallb_app, IH.
    now rewrite (pass_posted_pending _ _ _ _ Hp).
Qed.


Lemma passes_restored_calls k fs fs' tr j x :
  passes k fs fs' tr ->
  In (j, x) (restored tr) ->
  k <= j /\ exists f, In f fs /\ key f = x /\ success f = false.
Proof.
  assert (Hone : forall k fs fs' tr,
             pass k fs fs' tr -> In (j, x) (restored tr) ->
             k <= j /\ exists f, In f fs /\ key f = x /\ success f = false).
  { intros k0 fs0 fs0' tr0 Hp Hin.
    rewrite (pass_restored_calls _ _ _ _ Hp) in Hin.
    apply in_map_iff in Hin. destruct Hin as (f & [= <- <-] & Hin).
    apply filter_In in Hin. destruct Hin as (Hin & Hf).
    split; [lia|]. exists f. repeat split; auto.
    now destruct (success f). }
  assert (Hnext : forall k fs fs1 tr1,
             pass k fs fs1 tr1 ->
             (exists f1, In f1 fs1 /\ key f1 = x /\ success f1 = false) ->
             exists f, In f fs /\ key f = x /\ success f = false).
  { intros k0 fs0 fs1 tr1 Hp (f1 & Hin & Hx & Hf1).
    destruct (Forall2_In_r _ _ _ _ (pass_step _ _ _ _ Hp) Hin)
      as (f & Hf & Hs).
    destruct (step_unsuccessful _ _ _ Hs Hf1) as (H1 & H2 & _).
    exists f. repeat split; congruence. }
  induction 1 as [k fs Hk|k fs fs' tr Hk Hp Hk1 Hall
                 |k fs fs1 fs' tr1 tr Hk Hp Hk1 Hall Hps IH
                 |k fs fs1 fs' tr1 tr Hk Hp Hk1 Hps IH]; intros Hin.
  - destruct Hin.
  - eapply Hone; eassumption.
  - change (Sleep retry_sleep_secs :: tr)
      with ([Sleep retry_sleep_secs] ++ tr) in Hin.
    rewrite !restored_app in Hin. cbn [restored flat_map app] in Hin.
    apply in_app_or in Hin. destruct Hin as [Hin|Hin].
    + eapply Hone; eassumption.
    + destruct (IH Hin) as (Hj & Hex). split; [lia|]. eapply Hnext; eauto.
  - rewrite !restored_app in Hin.
    apply in_app_or in Hin. destruct Hin as [Hin|Hin].
    + eapply Hone; eassumption.
    + destruct (IH Hin) as (Hj & Hex). split; [lia|]. eapply Hnext; eauto.
Qed.

(** *** Every file event of the loop follows its restore request *)











(** *** The calls of the reports *)


Lemma reports_posted_job fs tr : reports fs tr -> posted "orca_recoveryjob" tr = [].
Proof.
  induction 1 as [|f fs tr Hf _ IH|f lu q fs tr Hf Hq _ IH]; auto.
  change (?a :: q ++ tr) with ([a] ++ q ++ tr).
  now rewrite !posted_app, (posted_queue _ q Hq), IH.
Qed.

Lemma reports_restored fs tr : reports fs tr -> restored tr = [].
Proof.
  induction 1 as [|f fs tr Hf _ IH|f lu q fs tr Hf Hq _ IH]; auto.
  change (?a :: q ++ tr) with ([a] ++ q ++ tr).
  now rewrite !restored_app, (restored_queue q Hq), IH.
Qed.

(** One FAILED event for each file that is still to succeed, in the order
    of the files, with the message the file carries. *)
Lemma reports_posted fs tr :
  reports fs tr ->
  Forall2
    (fun f d =>
       exists last_update,
         d = file_event f ORCA_STATUS_FAILED (err_msg f) last_update)
    (filter (fun f => negb (success f)) fs)
    (posted "orca_recoverfile" tr).
Proof.
  induction 1 as [|f fs tr Hf _ IH|f lu q fs tr Hf Hq _ IH];
    cbn [filter]; try rewrite Hf; cbn [negb].
  - constructor.
  - exact IH.
  - change (?a :: q ++ tr) with ([a] ++ q ++ tr).
    rewrite !posted_app, (posted_queue _ q Hq).
    change (posted "orca_recoverfile" [PostEntry _ ?d _]) with [d].
    cbn [app]. constructor; eauto.
Qed.

(** *** No file event carries a completion time *)

Definition no_completion_time (d : json.dict) : Prop :=
  json.get "completion_time" d = None.

Lemma pass_no_completion_time k fs fs' tr :
  pass k fs fs' tr ->
  Forall no_completion_time (posted "orca_recoverfile" tr).
Proof.
  induction 1 as [|f fs fs' tr Hf _ IH|f err fs fs' tr Hf Hk _ IH
                 |f lu q fs fs' tr Hf Hk Hq _ IH].
  - constructor.
  - exact IH.
  - exact IH.
  - change (restore_call k f :: ?a :: q ++ tr)
      with ([restore_call k f; a] ++ q ++ tr).
    rewrite !posted_app, (posted_queue _ q Hq).
    change (posted "orca_recoverfile" [restore_call k f; PostEntry _ ?d _])
      with [d].
    constructor; [apply file_event_completion_time|exact IH].
Qed.

Lemma passes_no_completion_time k fs fs' tr :
  passes k fs fs' tr ->
  Forall no_completion_time (posted "orca_recoverfile" tr).
Proof.
  induction 1 as [k fs Hk|k fs fs' tr Hk Hp Hk1 Hall
                 |k fs fs1 fs' tr1 tr Hk Hp Hk1 Hall Hps IH
                 |k fs fs1 fs' tr1 tr Hk Hp Hk1 Hps IH].
  - constructor.
  - eapply pass_no_completion_time; eassumption.
  - change (Sleep retry_sleep_secs :: tr) with ([Sleep retry_sleep_secs] ++ tr).
    rewrite !posted_app. apply Forall_app. split; [|exact IH].
    eapply pass_no_completion_time; eassumption.
  - rewrite !posted_app. apply Forall_app. split; [|exact IH].
    eapply pass_no_completion_time; eassumption.
Qed.

Lemma reports_no_completion_time fs tr :
  reports fs tr -> Forall no_completion_time (posted "orca_recoverfile" tr).
Proof.
  intros H. apply reports_posted in H.
  induction H as [|f d l l' (lu & ->) _ IH]; constructor; auto.
  apply file_event_completion_time.
Qed.

Lemma reports_all_failed fs tr :
  reports fs tr ->
  filter (has_status ORCA_STATUS_FAILED) (posted "orca_recoverfile" tr)
  = posted "orca_recoverfile" tr.
Proof.
  intros H. apply reports_posted in H.
  induction H as [|f d l l' (lu & ->) _ IH]; cbn [filter]; [reflexivity|].
  now rewrite file_event_status, IH.
Qed.

Lemma passes_none_failed k fs fs' tr :
  passes k fs fs' tr ->
  filter (has_status ORCA_STATUS_FAILED) (posted "orca_recoverfile" tr) = [].
Proof.
  intros H. apply passes_posted_pending in H.
  induction (posted "orca_recoverfile" tr) as [|d l IH]; [reflexivity|].
  cbn in H |- *. apply andb_prop in H. destruct H as (Hd & Hl).
  rewrite (IH Hl). unfold has_status in *.
  destruct (json.get "status_id" d) as [[|n]|]; try discriminate.
  apply Z.eqb_eq in Hd. now subst n.
Qed.

End Orchestrator.




(** C4.  The PENDING events of a granule whose files are all restored are
    meant to be emitted, one for the job and one for each file.  With
    [max_retries = 0], one file that S3 restores at the first pass and a
    queue that accepts every call, [process_granule] returns the granule
    with the file marked successful, but the run makes no call on the
    queue: the job event and the file event are handed to
    [post_entry_to_queue], whose attempts run over [range(1, 1)], and
    neither is sent.  The same run with [max_retries = 1] sends the two
    events, the job event before the restore request and the file event
    right after it. *)
Theorem process_granule_without_retries_sends_no_event :
  let granule := mkGranule (Some "G1") None (Some scenario.one_file) in
  let job_row :=
    [("job_id", json.JStr "job"); ("granule_id", json.JStr "G1");
     ("status_id", json.JInt ORCA_STATUS_PENDING);
     ("request_time", json.JStr (scenario.clock 0));
     ("archive_destination", json.JStr "glacier")] in
  let file_row :=
    [("job_id", json.JStr "job"); ("granule_id", json.JStr "G1");
     ("filename", json.JStr "a.nc"); ("key_path", json.JStr "dir/a.nc");
     ("restore_destination", json.JStr "dest");
     ("status_id", json.JInt ORCA_STATUS_PENDING);
     ("request_time", json.JStr (scenario.clock 0));
     ("last_update", json.JStr (scenario.clock 1))] in
  let restored_granule :=
    mkGranule (Some "G1") None
      (Some [mkFile "dir/a.nc" "dest" true (Some "")]) in
  process_granule scenario.always_restored scenario.queue_up scenario.clock
    granule "glacier" 5 0 0 "Standard" "job" "url" scenario.start
  = mkRun (Returned restored_granule)
      [PostEntry "orca_recoveryjob" job_row POST;
       RestoreObject 1 "glacier" "dir/a.nc" 5 "Standard";
       PostEntry "orca_recoverfile" file_row POST]
      (mkState 0 2)
  /\
  process_granule scenario.always_restored scenario.queue_up scenario.clock
    granule "glacier" 5 1 0 "Standard" "job" "url" scenario.start
  = mkRun (Returned restored_granule)
      [PostEntry "orca_recoveryjob" job_row POST;
       SendQueueUrlOnly "url";
       SendMessage
         (queue_message "orca_recoveryjob" (json.dumps_indent4 job_row) POST
            "url");
       RestoreObject 1 "glacier" "dir/a.nc" 5 "Standard";
       PostEntry "orca_recoverfile" file_row POST;
       SendQueueUrlOnly "url";
       SendMessage
         (queue_message "orca_recoverfile" (json.dumps_indent4 file_row) POST
            "url")]
      (mkState 4 2).
Proof. split; vm_compute; reflexivity. Qed.


Lemma report_failures_none sqs_send_message utcnow max_retries
    retry_sleep_secs job_id db_queue_url request_time granule_id fs any s :
  forallb success fs = true ->
  report_failures sqs_send_message utcnow max_retries retry_sleep_secs job_id
    db_queue_url request_time granule_id fs any s
  = mkRun (Returned any) [] s.
Proof.
  induction fs as [|f fs IH]; cbn [forallb report_failures];
    [reflexivity|].
  intros H. apply andb_prop in H. destruct H as (-> & H). cbn [negb]. auto.
Qed.

(** C5.  Take any turn of the retry loop, at a pass [k] that is not the
    last ([k < max_retries + 1]), on any files and in any state.  If the
    files all have [success] true once pass [k] is over, the loop ends with
    the calls of that pass and nothing after them, and what follows the
    loop in [process_granule] makes no call at all: no sleep and no restore
    request come after pass [k]. *)
Theorem early_exit_after_pass
    (s3_restore_object : Z -> string -> string -> option ClientError)
    (sqs_send_message : nat -> option string) (utcnow : nat -> string)
    (glacier_bucket : string) (restore_expire_days max_retries : Z)
    (retry_sleep_secs : seconds)
    (retrieval_type job_id db_queue_url request_time granule_id : string)
    (fuel : nat) (k : Z) (id : option string) (ks : option (list KeyEntry))
    (fs fs1 : list File) (s : State) :
  let pass_k :=
    for_each
      (restore_one_file s3_restore_object sqs_send_message utcnow
         glacier_bucket restore_expire_days max_retries retry_sleep_secs
         retrieval_type job_id db_queue_url request_time granule_id k)
      fs s in
  k < max_retries + 1 ->
  outcome pass_k = Returned fs1 ->
  forallb success fs1 = true ->
  retry_loop s3_restore_object sqs_send_message utcnow glacier_bucket
    restore_expire_days max_retries retry_sleep_secs retrieval_type job_id
    db_queue_url request_time granule_id (S fuel) k
    (mkGranule id ks (Some fs)) s
  = mkRun (Returned (mkGranule id ks (Some fs1))) (calls pass_k)
      (final pass_k) /\
  after_retries sqs_send_message utcnow max_retries retry_sleep_secs job_id
    db_queue_url request_time granule_id (mkGranule id ks (Some fs1))
    (final pass_k)
  = mkRun (Returned (mkGranule id ks (Some fs1))) [] (final pass_k).
Proof.
  intros pass_k Hk Hout Hall. split.
  - cbn [retry_loop].
    destruct (Z.leb_spec k (max_retries + 1)); [|lia].
    cbn [recover_files lookup]. rewrite bind_ret.
    erewrite bind_run by apply (run_eta pass_k). rewrite Hout.
    unfold set_recover_files. cbn [recover_files granuleId keys lookup].
    destruct (Z.leb_spec (k + 1) (max_retries + 1)); [|lia].
    rewrite bind_ret, Hall. cbn. now rewrite app_nil_r.
  - unfold after_retries. cbn [recover_files lookup]. rewrite bind_ret.
    erewrite bind_run by (apply report_failures_none; exact Hall).
    reflexivity.
Qed.

(** ** The probe and the files of inner_task *)

Section Probe.

Variable s3_head_object : string -> string -> option ClientError.
Variable glacier_bucket : string.

(** The two codes [object_exists] reads as "the object is not there". *)
Definition not_found (err : ClientError) : bool :=
  (String.eqb (error_code err) "NoSuchKey"
   || String.eqb (error_code err) "NotFound")%bool.

(** The probe says the object of this entry is there. *)
Definition present (keys : KeyEntry) : bool :=
  match s3_head_object glacier_bucket (k_key keys) with
  | None => true
  | Some _ => false
  end.

(** The error of the first probe that fails otherwise than by "not
    found", if there is one. *)
Fixpoint first_probe_error (keys : list KeyEntry) : option ClientError :=
  match keys with
  | [] => None
  | entry :: rest =>
      match s3_head_object glacier_bucket (k_key entry) with
      | None => first_probe_error rest
      | Some err =>
          if not_found err then first_probe_error rest else Some err
      end
  end.

Definition new_file (keys : KeyEntry) : File :=
  mkFile (k_key keys) (k_dest_bucket keys) false (Some "").

Lemma object_exists_run x s :
  object_exists s3_head_object glacier_bucket x s
  = mkRun
      match s3_head_object glacier_bucket x with
      | None => Returned true
      | Some err =>
          if not_found err then Returned false
          else Raised (BotoClientError err)
      end
      [HeadObject glacier_bucket x] s.
Proof.
  unfold object_exists, try_except_ClientError, head_object, not_found.
  unfold bind, emit, ret, raise. cbn.
  destruct (s3_head_object glacier_bucket x) as [err|]; cbn; [|reflexivity].
  destruct (_ || _)%bool; reflexivity.
Qed.

Lemma collect_files_run keys files s :
  exists tr,
    collect_files s3_head_object glacier_bucket keys files s
    = mkRun
        match first_probe_error keys with
        | Some err => Raised (BotoClientError err)
        | None => Returned (files ++ map new_file (filter present keys))
        end
        tr s /\
    forallb is_HeadObject tr = true.
Proof.
  revert files. induction keys as [|entry keys IH]; intros files.
  { exists []. cbn. now rewrite app_nil_r. }
  cbn [collect_files first_probe_error filter].
  erewrite bind_run by apply object_exists_run. unfold present at 1.
  destruct (s3_head_object glacier_bucket (k_key entry)) as [err|].
  - destruct (not_found err).
    + destruct (IH files) as (tr & -> & Htr). cbn [outcome calls final].
      exists (HeadObject glacier_bucket (k_key entry) :: tr).
      split; [reflexivity|exact Htr].
    + exists [HeadObject glacier_bucket (k_key entry)]. split; reflexivity.
  - destruct (IH (files ++ [new_file entry])) as (tr & Hrun & Htr).
    unfold new_file at 1 in Hrun. rewrite Hrun.
    cbn [outcome calls final].
    exists (HeadObject glacier_bucket (k_key entry) :: tr).
    split; [|exact Htr].
    cbn [map app]. rewrite <- app_assoc. reflexivity.
Qed.

Lemma first_probe_error_In keys err :
  first_probe_error keys = Some err ->
  exists entry,
    In entry keys /\
    s3_head_object glacier_bucket (k_key entry) = Some err /\
    not_found err = false.
Proof.
  induction keys as [|entry keys IH]; cbn; [discriminate|].
  destruct (s3_head_object glacier_bucket (k_key entry)) as [e|] eqn:He.
  - destruct (not_found e) eqn:Hnf.
    + intros H. destruct (IH H) as (entry' & Hin & H'). eauto.
    + intros [= <-]. exists entry. auto.
  - intros H. destruct (IH H) as (entry' & Hin & H'). eauto.
Qed.

Lemma first_probe_error_None keys entry err :
  first_probe_error keys = None ->
  In entry keys ->
  s3_head_object glacier_bucket (k_key entry) = Some err ->
  not_found err = true.
Proof.
  induction keys as [|entry' keys IH]; cbn; [tauto|].
  intros Hnone [->|Hin] Herr.
  - rewrite Herr in Hnone. destruct (not_found err); [reflexivity|discriminate].
  - destruct (s3_head_object glacier_bucket (k_key entry')) as [e|];
      [destruct (not_found e); [|discriminate]|]; eauto.
Qed.

End Probe.

Lemma process_granule_no_id s3_restore_object sqs_send_message utcnow ks rf
    glacier_bucket restore_expire_days max_retries retry_sleep_secs
    retrieval_type job_id db_queue_url s :
  process_granule s3_restore_object sqs_send_message utcnow
    (mkGranule None ks rf) glacier_bucket restore_expire_days max_retries
    retry_sleep_secs retrieval_type job_id db_queue_url s
  = mkRun (Raised (KeyError GRANULE_GRANULE_ID_KEY)) []
      (mkState (sqs_calls s) (S (clock_reads s))).
Proof. reflexivity. Qed.

(** [inner_task] on one granule: the probes first, and [process_granule]
    on the files found when no probe raises. *)
Lemma inner_task_run s3_head_object s3_restore_object sqs_send_message utcnow
    glacier_bucket id keys rf job_id max_retries retry_sleep_secs
    retrieval_type restore_expire_days db_queue_url s :
  let r :=
    inner_task s3_head_object s3_restore_object sqs_send_message utcnow
      (mkEvent (Some glacier_bucket) [mkGranule id (Some keys) rf] job_id)
      max_retries retry_sleep_secs retrieval_type restore_expire_days
      db_queue_url s in
  let r' :=
    process_granule s3_restore_object sqs_send_message utcnow
      (mkGranule id (Some keys)
         (Some
            (map new_file
               (filter (present s3_head_object glacier_bucket) keys))))
      glacier_bucket restore_expire_days max_retries retry_sleep_secs
      retrieval_type job_id db_queue_url s in
  exists probes,
    forallb is_HeadObject probes = true /\
    match first_probe_error s3_head_object glacier_bucket keys with
    | Some err => r = mkRun (Raised (BotoClientError err)) probes s
    | None =>
        r = mkRun
              match outcome r' with
              | Returned g => Returned (mkOutput [g] job_id)
              | Raised e => Raised e
              | OutOfFuel => OutOfFuel
              end
              (probes ++ calls r') (final r')
    end.
Proof.
  intros r r'.
  destruct (collect_files_run s3_head_object glacier_bucket keys [] s)
    as (probes & Hrun & Hprobes).
  exists probes. split; [exact Hprobes|].
  assert (Hcopy :
    copy_granules s3_head_object glacier_bucket
      [mkGranule id (Some keys) rf] (mkGranule None None None) s
    = mkRun
        match first_probe_error s3_head_object glacier_bucket keys with
        | Some err => Raised (BotoClientError err)
        | None =>
            Returned
              (mkGranule id (Some keys)
                 (Some
                    (map new_file
                       (filter (present s3_head_object glacier_bucket)
                          keys))))
        end
        probes s).
  { cbn [copy_granules request_files.keys lookup]. rewrite bind_ret.
    erewrite bind_run by exact Hrun.
    destruct (first_probe_error s3_head_object glacier_bucket keys);
      [reflexivity|].
    cbn. now rewrite app_nil_r. }
  unfold r, inner_task.
  cbn [config_glacier_bucket input_granules input_job_id lookup List.length
       Nat.ltb Nat.leb].
  change (try_except_KeyError _ _) with (@ret string glacier_bucket).
  rewrite bind_ret. erewrite bind_run by exact Hcopy.
  destruct (first_probe_error s3_head_object glacier_bucket keys);
    [reflexivity|].
  erewrite bind_run by apply (run_eta r').
  destruct (outcome r'); cbn [outcome calls final ret]; now rewrite ?app_nil_r.
Qed.

Lemma Forall2_map_eq {A B} (R : A -> A -> Prop) (g : A -> B) l1 l2 :
  (forall a b, R a b -> g b = g a) -> Forall2 R l1 l2 -> map g l2 = map g l1.
Proof. intros H. induction 1; cbn; [reflexivity|]. f_equal; auto. Qed.

(** [process_granule] asks for the files it was given and for no other,
    and the granule it ends with holds the same keys. *)
Lemma process_granule_keys s3_restore_object sqs_send_message utcnow id ks fs
    glacier_bucket restore_expire_days max_retries retry_sleep_secs
    retrieval_type job_id db_queue_url s :
  let r :=
    process_granule s3_restore_object sqs_send_message utcnow
      (mkGranule id ks (Some fs)) glacier_bucket restore_expire_days
      max_retries retry_sleep_secs retrieval_type job_id db_queue_url s in
  (forall k x, In (k, x) (restored (calls r)) -> In x (map key fs)) /\
  (forall g,
     outcome r = Returned g \/
     outcome r = Raised (RestoreRequestError (FilesFailed g)) ->
     exists fs', recover_files g = Some fs' /\ map key fs' = map key fs).
Proof.
  intros r. destruct id as [id|].
  2: { unfold r. rewrite process_granule_no_id. cbn.
       split; [tauto|]. intros g [H|H]; discriminate. }
  destruct (process_granule_ends s3_restore_object sqs_send_message utcnow
              glacier_bucket restore_expire_days max_retries retry_sleep_secs
              retrieval_type job_id db_queue_url (utcnow (clock_reads s)) id
              ks fs s eq_refl)
    as (fs' & q & tr1 & tr2 & o & tr & s' & Hrun & Hq & Hps & Hr & He).
  fold r in Hrun. rewrite Hrun. cbn [outcome calls]. split.
  - intros k x Hin.
    destruct (ends_prefix _ _ _ _ _ He) as (rest & Hfull).
    assert (Hin' : In (k, x) (restored (q ++ tr1 ++ tr2))).
    { rewrite Hfull, restored_app. apply in_or_app. now left. }
    apply reports_restored in Hr.
    rewrite !restored_app, (restored_queue q Hq), Hr, app_nil_r in Hin'.
    cbn [app] in Hin'.
    eapply passes_restored_calls in Hin'; [|exact Hps].
    destruct Hin' as (_ & f & Hf & <- & _). now apply in_map.
  - intros g Hg. exists fs'.
    assert (Hkeys : map key fs' = map key fs).
    { apply passes_outcome in Hps.
      eapply Forall2_map_eq; [|exact Hps]. intros f f' H. apply H. }
    destruct He as [[-> _]|(_ & -> & _)];
      [|destruct Hg as [Hg|Hg]; discriminate].
    unfold ending in Hg.
    destruct (some_failed fs'), Hg as [[= <-]|[= <-]]; auto.
Qed.

(** C8.  Take [inner_task] on one granule (and a configured bucket).  If
    the probe of a key answers "not found" (code [NoSuchKey] or
    [NotFound]), no restore request is made for that key and the key is not
    among the ['recover_files'] of the granule returned, or embedded in the
    error raised.  If the probe of some entry fails with another code, then
    [inner_task] raises the error of such a probe and the only calls it
    made are probes: no restore request and no status event. *)
Theorem probe_decides_the_files
    (s3_head_object : string -> string -> option ClientError)
    (s3_restore_object : Z -> string -> string -> option ClientError)
    (sqs_send_message : nat -> option string) (utcnow : nat -> string)
    (glacier_bucket : string) (id : option string) (keys : list KeyEntry)
    (rf : option (list File)) (job_id : string) (max_retries : Z)
    (retry_sleep_secs : seconds) (retrieval_type : string)
    (restore_expire_days : Z) (db_queue_url : string) (s : State) :
  let r :=
    inner_task s3_head_object s3_restore_object sqs_send_message utcnow
      (mkEvent (Some glacier_bucket) [mkGranule id (Some keys) rf] job_id)
      max_retries retry_sleep_secs retrieval_type restore_expire_days
      db_queue_url s in
  (forall x err,
     s3_head_object glacier_bucket x = Some err ->
     error_code err = "NoSuchKey" \/ error_code err = "NotFound" ->
     (forall k, ~ In (k, x) (restored (calls r))) /\
     (forall g fs,
        outcome r = Returned (mkOutput [g] job_id) \/
        outcome r = Raised (RestoreRequestError (FilesFailed g)) ->
        recover_files g = Some fs ->
        ~ In x (map key fs))) /\
  (forall entry err,
     In entry keys ->
     s3_head_object glacier_bucket (k_key entry) = Some err ->
     error_code err <> "NoSuchKey" ->
     error_code err <> "NotFound" ->
     exists err',
       outcome r = Raised (BotoClientError err') /\
       (exists entry',
          In entry' keys /\
          s3_head_object glacier_bucket (k_key entry') = Some err' /\
          error_code err' <> "NoSuchKey" /\
          error_code err' <> "NotFound") /\
       forallb is_HeadObject (calls r) = true).
Proof.
  intros r.
  destruct (inner_task_run s3_head_object s3_restore_object sqs_send_message
              utcnow glacier_bucket id keys rf job_id max_retries
              retry_sleep_secs retrieval_type restore_expire_days
              db_queue_url s) as (probes & Hprobes & Hrun).
  fold r in Hrun.
  set (fs := map new_file (filter (present s3_head_object glacier_bucket) keys))
    in *.
  assert (Habsent : forall x err,
            s3_head_object glacier_bucket x = Some err ->
            ~ In x (map key fs)).
  { intros x err Hx Hin. unfold fs in Hin. rewrite map_map in Hin.
    apply in_map_iff in Hin. destruct Hin as (entry & <- & Hin).
    apply filter_In in Hin. destruct Hin as (_ & Hp).
    unfold present in Hp. cbn in Hx. now rewrite Hx in Hp. }
  assert (Hheads : restored probes = []).
  { clear -Hprobes. induction probes as [|e tr IH]; [reflexivity|].
    cbn in Hprobes. apply andb_prop in Hprobes. destruct Hprobes as (He & Htr).
    destruct e; try discriminate. cbn. now apply IH. }
  assert (Hcodes : forall err,
            not_found err = false <->
            error_code err <> "NoSuchKey" /\ error_code err <> "NotFound").
  { intros err. unfold not_found. rewrite orb_false_iff.
    now rewrite !String.eqb_neq. }
  split.
  - intros x err Hx Hcode.
    destruct (first_probe_error s3_head_object glacier_bucket keys)
      as [err'|] eqn:Hfirst.
    + rewrite Hrun. cbn [outcome calls]. rewrite Hheads.
      split; [tauto|]. intros g fs0 [H|H]; discriminate.
    + rewrite Hrun. cbn [outcome calls].
      match type of Hrun with
      | context [outcome ?r0] => set (r' := r0) in *
      end.
      destruct (process_granule_keys s3_restore_object sqs_send_message
                  utcnow id (Some keys) fs glacier_bucket restore_expire_days
                  max_retries retry_sleep_secs retrieval_type job_id
                  db_queue_url s) as (Hcalls & Hends).
      fold r' in Hcalls, Hends. split.
      * intros k Hin. rewrite restored_app, Hheads in Hin.
        apply (Habsent x err Hx). eapply Hcalls. exact Hin.
      * intros g fs0 Hg Hfs0 Hin.
        assert (Hg' : outcome r' = Returned g \/
                      outcome r' = Raised (RestoreRequestError (FilesFailed g))).
        { destruct (outcome r'), Hg as [H|H]; try discriminate;
            injection H as <-; auto. }
        destruct (Hends g Hg') as (fs' & Hfs' & Hkeys).
        rewrite Hfs0 in Hfs'. injection Hfs' as <-.
        rewrite Hkeys in Hin. exact (Habsent x err Hx Hin).
  - intros entry err Hin Herr Hc1 Hc2.
    destruct (first_probe_error s3_head_object glacier_bucket keys)
      as [err'|] eqn:Hfirst.
    + exists err'. rewrite Hrun. cbn [outcome calls].
      split; [reflexivity|]. split; [|exact Hprobes].
      destruct (first_probe_error_In _ _ _ _ Hfirst) as (entry' & H1 & H2 & H3).
      exists entry'. apply Hcodes in H3. tauto.
    + pose proof (first_probe_error_None _ _ _ _ _ Hfirst Hin Herr) as Hnf.
      assert (not_found err = false) by (apply Hcodes; tauto). congruence.
Qed.

(** C10.  With a configured bucket and an empty list of granules,
    [inner_task] passes the check on the number of granules, hands the
    empty dictionary to [process_granule] and ends with the [KeyError] of
    its ['granuleId'], having made no call at all: no probe, no restore
    request, no status event.  The check stops the lists of two granules
    or more, and only them. *)
Theorem inner_task_without_granules
    (s3_head_object : string -> string -> option ClientError)
    (s3_restore_object : Z -> string -> string -> option ClientError)
    (sqs_send_message : nat -> option string) (utcnow : nat -> string)
    (glacier_bucket job_id : string) (max_retries : Z)
    (retry_sleep_secs : seconds) (retrieval_type : string)
    (restore_expire_days : Z) (db_queue_url : string) (s : State) :
  inner_task s3_head_object s3_restore_object sqs_send_message utcnow
    (mkEvent (Some glacier_bucket) [] job_id) max_retries retry_sleep_secs
    retrieval_type restore_expire_days db_queue_url s
  = mkRun (Raised (KeyError "granuleId")) []
      (mkState (sqs_calls s) (S (clock_reads s))) /\
  process_granule s3_restore_object sqs_send_message utcnow
    (mkGranule None None None) glacier_bucket restore_expire_days max_retries
    retry_sleep_secs retrieval_type job_id db_queue_url s
  = mkRun (Raised (KeyError "granuleId")) []
      (mkState (sqs_calls s) (S (clock_reads s))) /\
  forall g1 g2 gs,
    inner_task s3_head_object s3_restore_object sqs_send_message utcnow
      (mkEvent (Some glacier_bucket) (g1 :: g2 :: gs) job_id) max_retries
      retry_sleep_secs retrieval_type restore_expire_days db_queue_url s
    = mkRun
        (Raised
           (RestoreRequestError
              (TooManyGranules (List.length (g1 :: g2 :: gs)))))
        [] s.
Proof. repeat split. Qed.



(** C2.  The FAILED event of a file that failed at every pass is posted
    once and carries the message of the last failure, but no
    ['completion_time']: [process_granule] passes [None] for it and the
    time of the report goes into ['last_update'].  Here on one file, with
    [max_retries = 2] and a bucket that refuses each of the 3 requests. *)
Theorem failed_event_lacks_completion_time :
  let r :=
    process_granule scenario.always_denied scenario.queue_up scenario.clock
      (mkGranule (Some "G1") None (Some scenario.one_file)) "glacier" 5 2 0
      "Standard" "job" "url" scenario.start in
  outcome r
  = Raised
      (RestoreRequestError
         (FilesFailed
            (mkGranule (Some "G1") None
               (Some
                  [mkFile "dir/a.nc" "dest" false
                     (Some (error_str scenario.access_denied))])))) /\
  restored (calls r) = [(1, "dir/a.nc"); (2, "dir/a.nc"); (3, "dir/a.nc")] /\
  posted "orca_recoverfile" (calls r)
  = [[("job_id", json.JStr "job"); ("granule_id", json.JStr "G1");
      ("filename", json.JStr "a.nc"); ("key_path", json.JStr "dir/a.nc");
      ("restore_destination", json.JStr "dest");
      ("status_id", json.JInt ORCA_STATUS_FAILED);
      ("error_message", json.JStr (error_str scenario.access_denied));
      ("request_time", json.JStr (scenario.clock 0));
      ("last_update", json.JStr (scenario.clock 1))]] /\
  map (json.get "completion_time") (posted "orca_recoverfile" (calls r))
  = [None].
Proof. vm_compute. repeat split. Qed.

(** What the code does keep of the FAILED events, on every granule that has its
    ['granuleId'] and ['recover_files'] and with a sleep that is not
    negative: the FAILED events are one for each
    file the retry loop left with [success] false, in the order of the
    files, each with the message the file carries; and no file event has a
    ['completion_time']. *)
Lemma process_granule_reports_each_failure_once
    (s3_restore_object : Z -> string -> string -> option ClientError)
    (sqs_send_message : nat -> option string) (utcnow : nat -> string)
    (id : string) (ks : option (list KeyEntry)) (fs : list File)
    (glacier_bucket : string) (restore_expire_days max_retries : Z)
    (retry_sleep_secs : seconds) (retrieval_type job_id db_queue_url : string)
    (s : State) :
  0 <= retry_sleep_secs ->
  let r :=
    process_granule s3_restore_object sqs_send_message utcnow
      (mkGranule (Some id) ks (Some fs)) glacier_bucket restore_expire_days
      max_retries retry_sleep_secs retrieval_type job_id db_queue_url s in
  exists fs',
    outcome r = ending (Some id) ks fs' /\
    Forall2
      (fun f d =>
         exists last_update,
           d = file_status_data job_id id (py.basename (key f))
                 (Some (key f)) (Some (dest_bucket f))
                 (Some ORCA_STATUS_FAILED) (err_msg f)
                 (Some (utcnow (clock_reads s))) (Some last_update) None)
      (filter (fun f => negb (success f)) fs')
      (filter (has_status ORCA_STATUS_FAILED)
         (posted "orca_recoverfile" (calls r))) /\
    Forall no_completion_time (posted "orca_recoverfile" (calls r)).
Proof.
  intros Hsecs r.
  destruct (process_granule_run s3_restore_object sqs_send_message utcnow
              glacier_bucket restore_expire_days max_retries retry_sleep_secs
              retrieval_type job_id db_queue_url (utcnow (clock_reads s)) id
              ks fs s Hsecs eq_refl)
    as (fs' & q & tr1 & tr2 & s' & Hrun & Hq & Hps & Hr).
  fold r in Hrun. exists fs'. rewrite Hrun. cbn [outcome calls].
  change (?a :: q ++ tr1 ++ tr2) with ([a] ++ q ++ tr1 ++ tr2).
  rewrite !posted_app, (posted_queue _ q Hq).
  change (posted "orca_recoverfile" [PostEntry "orca_recoveryjob" _ _])
    with (@nil json.dict).
  cbn [app]. split; [reflexivity|]. split.
  - rewrite filter_app.
    pose proof Hps as H1. apply passes_none_failed in H1. rewrite H1.
    pose proof Hr as H2. apply reports_all_failed in H2. rewrite H2.
    apply reports_posted in Hr. exact Hr.
  - apply Forall_app. split.
    + eapply passes_no_completion_time; eassumption.
    + eapply reports_no_completion_time; eassumption.
Qed.




(** A run with one file, restored at the first of three passes. *)
Lemma early_exit_after_pass_witness :
  1 < 2 + 1 /\
  outcome
    (for_each
       (restore_one_file scenario.always_restored scenario.queue_up
          scenario.clock "glacier" 5 2 0 "Standard" "job" "url"
          (scenario.clock 0) "G1" 1)
       scenario.one_file (mkState 2 1))
  = Returned [mkFile "dir/a.nc" "dest" true (Some "")] /\
  forallb success [mkFile "dir/a.nc" "dest" true (Some "")] = true /\
  calls
    (retry_loop scenario.always_restored scenario.queue_up scenario.clock
       "glacier" 5 2 0 "Standard" "job" "url" (scenario.clock 0) "G1" 3 1
       (mkGranule (Some "G1") None (Some scenario.one_file)) (mkState 2 1))
  = calls
      (for_each
         (restore_one_file scenario.always_restored scenario.queue_up
            scenario.clock "glacier" 5 2 0 "Standard" "job" "url"
            (scenario.clock 0) "G1" 1)
         scenario.one_file (mkState 2 1)).
Proof.
  assert (H1 : 1 < 2 + 1) by lia.
  split; [exact H1|]. split; [reflexivity|]. split; [reflexivity|].
  exact (f_equal calls
           (proj1
              (early_exit_after_pass scenario.always_restored
                 scenario.queue_up scenario.clock "glacier" 5 2 0 "Standard"
                 "job" "url" (scenario.clock 0) "G1" 2 1 (Some "G1") None
                 scenario.one_file [mkFile "dir/a.nc" "dest" true (Some "")]
                 (mkState 2 1) H1 eq_refl eq_refl))).
Defined.

(** Two runs: in one [missing.nc] is not found, in the other the probe of
    [locked.nc] is refused. *)
Lemma probe_decides_the_files_witness :
  (forall k,
     ~ In (k, "missing.nc")
         (restored
            (calls
               (inner_task scenario.probes scenario.always_restored
                  scenario.queue_up scenario.clock
                  (mkEvent (Some "glacier")
                     [mkGranule (Some "G1")
                        (Some
                           [mkKeyEntry "a.nc" "dest";
                            mkKeyEntry "missing.nc" "dest"])
                        None]
                     "job")
                  2 0 "Standard" 5 "url" scenario.start)))) /\
  exists err',
    outcome
      (inner_task scenario.probes scenario.always_restored scenario.queue_up
         scenario.clock
         (mkEvent (Some "glacier")
            [mkGranule (Some "G1") (Some scenario.some_keys) None] "job")
         2 0 "Standard" 5 "url" scenario.start)
    = Raised (BotoClientError err').
Proof.
  split.
  - exact (proj1
             (proj1
                (probe_decides_the_files scenario.probes
                   scenario.always_restored scenario.queue_up scenario.clock
                   "glacier" (Some "G1")
                   [mkKeyEntry "a.nc" "dest"; mkKeyEntry "missing.nc" "dest"]
                   None "job" 2 0 "Standard" 5 "url" scenario.start)
                "missing.nc" (mkClientError "NotFound" "Not Found") eq_refl
                (or_intror eq_refl))).
  - destruct (proj2
                (probe_decides_the_files scenario.probes
                   scenario.always_restored scenario.queue_up scenario.clock
                   "glacier" (Some "G1") scenario.some_keys None "job" 2 0
                   "Standard" 5 "url" scenario.start)
                (mkKeyEntry "locked.nc" "dest") scenario.access_denied
                (or_intror (or_introl eq_refl)) eq_refl
                ltac:(discriminate) ltac:(discriminate))
      as (err' & H & _).
    exists err'. exact H.
Defined.

(** C6.  When there is an attempt to make ([1 <= max_retries]) and the
    queue accepts the two calls of the first one, [post_entry_to_queue]
    sends one message, whose deduplication key is the table name, then the
    value of the request method, then the body, which is the payload as
    [json.dumps] writes it.  On every queue, every message it sends has
    this key and this body.  The same payload gives the same key, and two
    payloads that differ give two keys, under the same table and method.
    So it is in [request_files], whose body is written with [indent=4], and
    in [shared_recovery], whose [post_entry_to_queue] makes its one call
    with this key.  The payloads are dictionaries of strings (of one-byte
    characters) and integers, as [request_files] and
    [update_status_for_file] build them; the payload of
    [create_status_for_job], which holds the list of the files, is not
    among them. *)
Theorem deduplication_key_tells_payloads_apart :
  (forall sqs_send_message table_name new_data request_method db_queue_url
          max_retries retry_sleep_secs s,
     1 <= max_retries ->
     sqs_send_message (sqs_calls s) = None ->
     sqs_send_message (S (sqs_calls s)) = None ->
     let m :=
       queue_message table_name (json.dumps_indent4 new_data) request_method
         db_queue_url in
     post_entry_to_queue sqs_send_message table_name new_data request_method
       db_queue_url max_retries retry_sleep_secs s
     = mkRun (Returned tt)
         [PostEntry table_name new_data request_method;
          SendQueueUrlOnly db_queue_url; SendMessage m]
         (mkState (S (S (sqs_calls s))) (clock_reads s)) /\
     shared_recovery.MessageDeduplicationId m
     = (table_name ++ RequestMethod_value request_method
          ++ json.dumps_indent4 new_data)%string /\
     shared_recovery.MessageBody m = json.dumps_indent4 new_data) /\
  (forall sqs_send_message table_name new_data request_method db_queue_url
          max_retries retry_sleep_secs s m,
     In (SendMessage m)
       (calls
          (post_entry_to_queue sqs_send_message table_name new_data
             request_method db_queue_url max_retries retry_sleep_secs s)) ->
     shared_recovery.MessageDeduplicationId m
     = (table_name ++ RequestMethod_value request_method
          ++ json.dumps_indent4 new_data)%string /\
     shared_recovery.MessageBody m = json.dumps_indent4 new_data) /\
  (forall table_name request_method db_queue_url new_data new_data',
     shared_recovery.MessageDeduplicationId
       (queue_message table_name (json.dumps_indent4 new_data) request_method
          db_queue_url)
     = shared_recovery.MessageDeduplicationId
         (queue_message table_name (json.dumps_indent4 new_data')
            request_method db_queue_url)
     <-> new_data = new_data') /\
  (forall table_name new_data request_method db_queue_url,
     shared_recovery.MessageDeduplicationId
       (shared_recovery.post_entry_to_queue table_name new_data
          request_method db_queue_url)
     = (table_name ++ shared_recovery.RequestMethod_value request_method
          ++ json.dumps new_data)%string) /\
  (forall table_name request_method db_queue_url new_data new_data',
     shared_recovery.MessageDeduplicationId
       (shared_recovery.post_entry_to_queue table_name new_data
          request_method db_queue_url)
     = shared_recovery.MessageDeduplicationId
         (shared_recovery.post_entry_to_queue table_name new_data'
            request_method db_queue_url)
     <-> new_data = new_data').
Proof.
  split; [|split; [|split; [|split]]].
  - intros sqs table d method url max_retries secs s Hmax H0 H1 m.
    split; [|split; reflexivity].
    now apply post_entry_to_queue_delivers_once.
  - intros sqs table d method url max_retries secs s m Hin.
    unfold post_entry_to_queue in Hin. rewrite bind_emit in Hin.
    cbn [calls] in Hin. destruct Hin as [Hin|Hin]; [discriminate|].
    pose proof (post_entry_attempts_calls sqs (py.range 1 (max_retries + 1))
                  table (json.dumps_indent4 d) method url max_retries secs s)
      as Hall.
    rewrite Forall_forall in Hall.
    destruct (Hall _ Hin) as [H|[H|H]]; try discriminate.
    injection H as ->. split; reflexivity.
  - intros table method url d d'. cbn. split; [|now intros ->].
    intros H. do 2 apply json_facts.append_inv_head in H.
    now apply json_facts.dumps_indent4_inj.
  - reflexivity.
  - intros table method url d d'. cbn. split; [|now intros ->].
    intros H. do 2 apply json_facts.append_inv_head in H.
    now apply json_facts.dumps_inj.
Qed.

(** One attempt on a queue that accepts every call: the job row is sent
    once, with its key. *)
Lemma deduplication_key_tells_payloads_apart_witness :
  1 <= 1 /\
  let m :=
    queue_message "orca_recoveryjob" (json.dumps_indent4 scenario.a_job_row)
      POST "url" in
  In (SendMessage m)
    (calls
       (post_entry_to_queue scenario.queue_up "orca_recoveryjob"
          scenario.a_job_row POST "url" 1 5 scenario.start)) /\
  shared_recovery.MessageDeduplicationId m
  = ("orca_recoveryjob" ++ "post"
     ++ json.dumps_indent4 scenario.a_job_row)%string.
Proof.
  assert (H : 1 <= 1) by lia.
  split; [exact H|].
  pose proof (proj1 deduplication_key_tells_payloads_apart scenario.queue_up
                "orca_recoveryjob" scenario.a_job_row POST "url" 1 5
                scenario.start H eq_refl eq_refl) as Hw.
  cbv zeta in Hw. destruct Hw as (Hrun & Hkey & _).
  cbv zeta. split; [|exact Hkey].
  rewrite Hrun. cbn [calls]. right. right. left. reflexivity.
Defined.

(** * Further properties

    What follows covers more of the code than the statements above: laws of
    the calls that [process_granule], [inner_task] and [task] make, the
    behaviour of the publisher of [request_files] on every queue, the
    status update of [shared_recovery], and the configuration and the
    connections of [shared_db]. *)

(** ** Properties of every call

    A property of calls holds of every call of a sequence when it holds of
    the calls of each part. *)

Lemma calls_bind {A B} (P : Effect -> Prop) (m : M A) (f : A -> M B) s :
  Forall P (calls (m s)) ->
  (forall a s', Forall P (calls (f a s'))) ->
  Forall P (calls (bind m f s)).
Proof.
  intros Hm Hf. unfold bind. destruct (outcome (m s)); cbn [calls]; auto.
  apply Forall_app. auto.
Qed.

Lemma calls_try_except_ClientError {A} (P : Effect -> Prop) (m : M A)
    (h : ClientError -> M A) s :
  Forall P (calls (m s)) ->
  (forall err s', Forall P (calls (h err s'))) ->
  Forall P (calls (try_except_ClientError m h s)).
Proof.
  intros Hm Hh. unfold try_except_ClientError.
  destruct (outcome (m s)) as [a|[k|err|why|msg|msg]|]; cbn [calls]; auto.
  apply Forall_app. auto.
Qed.

Lemma calls_ret {A} (P : Effect -> Prop) (a : A) s : Forall P (calls (ret a s)).
Proof. constructor. Qed.

Lemma calls_raise {A} (P : Effect -> Prop) e s :
  Forall P (calls (@raise A e s)).
Proof. constructor. Qed.

Lemma calls_lookup {A} (P : Effect -> Prop) k (x : option A) s :
  Forall P (calls (lookup k x s)).
Proof. destruct x; constructor. Qed.

Lemma calls_for_each {A} (P : Effect -> Prop) (body : A -> M A) l :
  (forall a s, Forall P (calls (body a s))) ->
  forall s, Forall P (calls (for_each body l s)).
Proof.
  intros Hbody. induction l as [|a l IH]; intros s; cbn [for_each].
  - apply calls_ret.
  - apply calls_bind; [apply Hbody|]. intros a' s'.
    apply calls_bind; [apply IH|]. intros l' s''. apply calls_ret.
Qed.

Section CallsOfProcessGranule.

Variable s3_restore_object : Z -> string -> string -> option ClientError.
Variable sqs_send_message : nat -> option string.
Variable utcnow : nat -> string.

Variables (glacier_bucket : string) (restore_expire_days : Z)
  (max_retries : Z) (retry_sleep_secs : seconds) (retrieval_type : string)
  (job_id : string) (db_queue_url : string).
Variables (request_time : string) (granule_id : string).

Variable P : Effect -> Prop.

(** The restore requests of the passes [1] to [max_retries + 1]. *)
Hypothesis P_restore :
  forall k x,
    1 <= k <= max_retries + 1 ->
    P (RestoreObject k glacier_bucket x restore_expire_days retrieval_type).

(** The sleep between two passes: there is none unless [max_retries] is at
    least 1. *)
Hypothesis P_sleep : 1 <= max_retries -> P (Sleep retry_sleep_secs).

(** The calls of the publisher, on the payloads it is given. *)
Hypothesis P_job :
  forall s,
    Forall P
      (calls
         (post_entry_to_queue sqs_send_message "orca_recoveryjob"
            (job_event glacier_bucket job_id request_time granule_id) POST
            db_queue_url max_retries retry_sleep_secs s)).

Hypothesis P_file :
  forall f status error last_update s,
    status = ORCA_STATUS_PENDING /\ error = None \/
    status = ORCA_STATUS_FAILED /\ error = err_msg f ->
    Forall P
      (calls
         (post_entry_to_queue sqs_send_message "orca_recoverfile"
            (file_event job_id request_time granule_id f status error
               last_update)
            POST db_queue_url max_retries retry_sleep_secs s)).

Lemma calls_restore_one_file k f s :
  1 <= k <= max_retries + 1 ->
  Forall P
    (calls
       (restore_one_file s3_restore_object sqs_send_message utcnow
          glacier_bucket restore_expire_days max_retries retry_sleep_secs
          retrieval_type job_id db_queue_url request_time granule_id k f s)).
Proof.
  intros Hk. unfold restore_one_file.
  destruct (success f); [apply calls_ret|].
  apply calls_try_except_ClientError; [|intros; apply calls_ret].
  apply calls_bind.
  { rewrite restore_object_run. cbn [calls]. constructor; auto. }
  intros _ s1. cbn [key dest_bucket].
  apply calls_try_except_ClientError; [|intros; apply calls_ret].
  apply calls_bind; [constructor|]. intros last_update s2.
  apply calls_bind; [|intros; apply calls_ret].
  apply (P_file f ORCA_STATUS_PENDING None last_update s2). auto.
Qed.

Lemma calls_retry_loop fuel k granule s :
  1 <= k ->
  Forall P
    (calls
       (retry_loop s3_restore_object sqs_send_message utcnow glacier_bucket
          restore_expire_days max_retries retry_sleep_secs retrieval_type
          job_id db_queue_url request_time granule_id fuel k granule s)).
Proof.
  revert k granule s.
  induction fuel as [|fuel IH]; intros k granule s Hk; cbn [retry_loop];
    destruct (Z.leb_spec k (max_retries + 1)) as [Hle|Hgt];
    try apply calls_ret.
  { constructor. }
  apply calls_bind; [apply calls_lookup|]. intros files s1.
  apply calls_bind.
  { apply calls_for_each. intros f s'. apply calls_restore_one_file. lia. }
  intros files' s2.
  destruct (Z.leb_spec (k + 1) (max_retries + 1)) as [Hle'|Hgt'].
  - apply calls_bind; [apply calls_lookup|]. intros files'' s3.
    destruct (forallb success files''); [apply calls_ret|].
    apply calls_bind.
    + rewrite sleep_run. constructor; [apply P_sleep; lia|constructor].
    + intros _ s4. apply IH. lia.
  - apply IH. lia.
Qed.

Lemma calls_report_failures files any s :
  Forall P
    (calls
       (report_failures sqs_send_message utcnow max_retries retry_sleep_secs
          job_id db_queue_url request_time granule_id files any s)).
Proof.
  revert any s. induction files as [|f files IH]; intros any s;
    cbn [report_failures]; [apply calls_ret|].
  destruct (success f); cbn [negb]; [apply IH|].
  apply calls_bind; [constructor|]. intros last_update s1.
  apply calls_bind; [|intros; apply IH].
  apply (P_file f ORCA_STATUS_FAILED (err_msg f) last_update s1). auto.
Qed.

Lemma calls_after_retries granule s :
  Forall P
    (calls
       (after_retries sqs_send_message utcnow max_retries retry_sleep_secs
          job_id db_queue_url request_time granule_id granule s)).
Proof.
  unfold after_retries.
  apply calls_bind; [apply calls_lookup|]. intros files s1.
  apply calls_bind; [apply calls_report_failures|]. intros any s2.
  destruct any; [apply calls_raise|apply calls_ret].
Qed.

End CallsOfProcessGranule.

(** The calls of one call of the publisher. *)
Lemma post_entry_to_queue_calls sqs_send_message table new_data method url
    max_retries secs s :
  Forall
    (fun e =>
       e = PostEntry table new_data method \/
       e = SendQueueUrlOnly url \/
       e = SendMessage
             (queue_message table (json.dumps_indent4 new_data) method url) \/
       e = Sleep secs)
    (calls
       (post_entry_to_queue sqs_send_message table new_data method url
          max_retries secs s)).
Proof.
  unfold post_entry_to_queue. rewrite bind_emit. cbn [calls].
  constructor; [auto|].
  eapply Forall_impl; [|apply post_entry_attempts_calls]. cbn beta. tauto.
Qed.

(** A property of every call of [process_granule], from the same property
    of its restore requests, of the sleep between two passes and of the
    calls of the publisher. *)
Lemma calls_process_granule
    (s3_restore_object : Z -> string -> string -> option ClientError)
    (sqs_send_message : nat -> option string) (utcnow : nat -> string)
    (id : string) (ks : option (list KeyEntry)) (rf : option (list File))
    (glacier_bucket : string) (restore_expire_days max_retries : Z)
    (retry_sleep_secs : seconds) (retrieval_type job_id db_queue_url : string)
    (P : Effect -> Prop) (s : State) :
  (forall k x,
     1 <= k <= max_retries + 1 ->
     P (RestoreObject k glacier_bucket x restore_expire_days retrieval_type)) ->
  (1 <= max_retries -> P (Sleep retry_sleep_secs)) ->
  (forall s',
     Forall P
       (calls
          (post_entry_to_queue sqs_send_message "orca_recoveryjob"
             (job_event glacier_bucket job_id (utcnow (clock_reads s)) id)
             POST db_queue_url max_retries retry_sleep_secs s'))) ->
  (forall f status error last_update s',
     status = ORCA_STATUS_PENDING /\ error = None \/
     status = ORCA_STATUS_FAILED /\ error = err_msg f ->
     Forall P
       (calls
          (post_entry_to_queue sqs_send_message "orca_recoverfile"
             (file_event job_id (utcnow (clock_reads s)) id f status error
                last_update)
             POST db_queue_url max_retries retry_sleep_secs s'))) ->
  Forall P
    (calls
       (process_granule s3_restore_object sqs_send_message utcnow
          (mkGranule (Some id) ks rf) glacier_bucket restore_expire_days
          max_retries retry_sleep_secs retrieval_type job_id db_queue_url s)).
Proof.
  intros Hrestore Hsleep Hjob Hfile. unfold process_granule.
  erewrite bind_run by apply now_run. cbn [calls app].
  cbn [granuleId lookup]. rewrite bind_ret.
  apply calls_bind; [apply Hjob|]. intros _ s2.
  apply calls_bind.
  - apply calls_retry_loop; auto. lia.
  - intros granule s3. apply calls_after_retries; auto.
Qed.

(** ** More about the passes *)

(** The number of restore requests for the key [x]. *)
Definition requests_for (x : string) (tr : list Effect) : nat :=
  List.length (filter (fun p => String.eqb x (snd p)) (restored tr)).

Section MoreOfTheLoop.

Variable s3_restore_object : Z -> string -> string -> option ClientError.

Variables (glacier_bucket : string) (restore_expire_days : Z)
  (max_retries : Z) (retry_sleep_secs : seconds) (retrieval_type : string)
  (job_id : string).
Variables (request_time : string) (granule_id : string).

Local Abbreviation pass' :=
  (pass s3_restore_object glacier_bucket restore_expire_days retrieval_type
     job_id request_time granule_id).
Local Abbreviation passes' :=
  (passes s3_restore_object glacier_bucket restore_expire_days max_retries
     retry_sleep_secs retrieval_type job_id request_time granule_id).
Local Abbreviation reports' := (reports job_id request_time granule_id).

(** The files that are still to be restored. *)
Definition pending (fs : list File) : list File :=
  filter (fun f => negb (success f)) fs.

(** A pass leaves no more files to restore than it found. *)
Lemma pass_pending k fs fs' tr :
  pass' k fs fs' tr ->
  (List.length (pending fs') <= List.length (pending fs))%nat.
Proof.
  unfold pending.
  induction 1 as [|f fs fs' tr Hf _ IH|f err fs fs' tr Hf Hk _ IH
                 |f lu q fs fs' tr Hf Hk Hq _ IH];
    unfold set_err_msg, restored_file; cbn [filter success]; rewrite ?Hf;
    cbn [negb List.length]; try lia.
Qed.

(** There are at most as many restore requests as there are passes left,
    times the files that are still to be restored. *)
Lemma passes_restored_length k fs fs' tr :
  passes' k fs fs' tr ->
  (List.length (restored tr)
   <= Z.to_nat (max_retries + 2 - k) * List.length (pending fs))%nat.
Proof.
  induction 1 as [k fs Hk|k fs fs' tr Hk Hp Hk1 Hall
                 |k fs fs1 fs' tr1 tr Hk Hp Hk1 Hall Hps IH
                 |k fs fs1 fs' tr1 tr Hk Hp Hk1 Hps IH].
  - cbn. lia.
  - rewrite (pass_restored_calls _ _ _ _ _ _ _ _ _ _ _ Hp), length_map.
    fold (pending fs).
    replace (Z.to_nat (max_retries + 2 - k))
      with (S (Z.to_nat (max_retries + 1 - k))) by lia.
    nia.
  - change (Sleep retry_sleep_secs :: tr) with ([Sleep retry_sleep_secs] ++ tr).
    rewrite !restored_app, !length_app.
    rewrite (pass_restored_calls _ _ _ _ _ _ _ _ _ _ _ Hp), length_map.
    fold (pending fs). cbn [restored flat_map List.length].
    pose proof (pass_pending _ _ _ _ Hp) as Hless.
    apply (Nat.mul_le_mono_l _ _ (Z.to_nat (max_retries + 2 - (k + 1))))
      in Hless.
    replace (Z.to_nat (max_retries + 2 - k))
      with (S (Z.to_nat (max_retries + 2 - (k + 1)))) by lia.
    cbn [Nat.mul app List.length]. lia.
  - rewrite !restored_app, !length_app.
    rewrite (pass_restored_calls _ _ _ _ _ _ _ _ _ _ _ Hp), length_map.
    fold (pending fs).
    pose proof (pass_pending _ _ _ _ Hp) as Hless.
    apply (Nat.mul_le_mono_l _ _ (Z.to_nat (max_retries + 2 - (k + 1))))
      in Hless.
    replace (Z.to_nat (max_retries + 2 - k))
      with (S (Z.to_nat (max_retries + 2 - (k + 1)))) by lia.
    cbn [Nat.mul app List.length]. lia.
Qed.

(** The same for each key: a pass asks once for each file of key [x] that
    is still to be restored, and leaves no more such files than it found. *)
Lemma requests_for_app x t1 t2 :
  requests_for x (t1 ++ t2) = (requests_for x t1 + requests_for x t2)%nat.
Proof.
  unfold requests_for. now rewrite restored_app, filter_app, length_app.
Qed.

Lemma pass_requests_for x k fs fs' tr :
  pass' k fs fs' tr -> requests_for x tr = unfinished x fs.
Proof.
  intros Hp. unfold requests_for, unfinished.
  rewrite (pass_restored_calls _ _ _ _ _ _ _ _ _ _ _ Hp). clear.
  induction fs as [|f fs IH]; [reflexivity|].
  cbn [filter]. destruct (success f); cbn [negb andb map filter snd]; auto.
  destruct (String.eqb x (key f)); cbn [List.length]; auto.
Qed.

Lemma pass_unfinished x k fs fs' tr :
  pass' k fs fs' tr -> (unfinished x fs' <= unfinished x fs)%nat.
Proof.
  intros Hp. pose proof (pass_events_for _ _ _ _ _ _ _ x _ _ _ _ Hp). lia.
Qed.

Lemma passes_requests_for x k fs fs' tr :
  passes' k fs fs' tr ->
  (requests_for x tr <= Z.to_nat (max_retries + 2 - k) * unfinished x fs)%nat.
Proof.
  induction 1 as [k fs Hk|k fs fs' tr Hk Hp Hk1 Hall
                 |k fs fs1 fs' tr1 tr Hk Hp Hk1 Hall Hps IH
                 |k fs fs1 fs' tr1 tr Hk Hp Hk1 Hps IH].
  - cbn. lia.
  - rewrite (pass_requests_for x _ _ _ _ Hp).
    replace (Z.to_nat (max_retries + 2 - k))
      with (S (Z.to_nat (max_retries + 1 - k))) by lia.
    cbn [Nat.mul].
    generalize (Z.to_nat (max_retries + 1 - k) * unfinished x fs)%nat.
    intros; lia.
  - change (Sleep retry_sleep_secs :: tr) with ([Sleep retry_sleep_secs] ++ tr).
    rewrite !requests_for_app, (pass_requests_for x _ _ _ _ Hp).
    change (requests_for x [Sleep retry_sleep_secs]) with 0%nat.
    pose proof (pass_unfinished x _ _ _ _ Hp) as Hless.
    apply (Nat.mul_le_mono_l _ _ (Z.to_nat (max_retries + 2 - (k + 1))))
      in Hless.
    replace (Z.to_nat (max_retries + 2 - k))
      with (S (Z.to_nat (max_retries + 2 - (k + 1)))) by lia.
    cbn [Nat.mul].
    revert IH Hless.
    generalize (Z.to_nat (max_retries + 2 - (k + 1)) * unfinished x fs)%nat.
    generalize (Z.to_nat (max_retries + 2 - (k + 1)) * unfinished x fs1)%nat.
    intros; lia.
  - rewrite !requests_for_app, (pass_requests_for x _ _ _ _ Hp).
    pose proof (pass_unfinished x _ _ _ _ Hp) as Hless.
    apply (Nat.mul_le_mono_l _ _ (Z.to_nat (max_retries + 2 - (k + 1))))
      in Hless.
    replace (Z.to_nat (max_retries + 2 - k))
      with (S (Z.to_nat (max_retries + 2 - (k + 1)))) by lia.
    cbn [Nat.mul].
    revert IH Hless.
    generalize (Z.to_nat (max_retries + 2 - (k + 1)) * unfinished x fs)%nat.
    generalize (Z.to_nat (max_retries + 2 - (k + 1)) * unfinished x fs1)%nat.
    intros; lia.
Qed.





(** With no pass to make, the loop leaves the files as they are. *)
Lemma passes_none k fs fs' tr :
  passes' k fs fs' tr -> max_retries + 1 < k -> fs' = fs /\ tr = [].
Proof. intros [] Hk; try lia. auto. Qed.


End MoreOfTheLoop.

(** ** The calls of process_granule *)

(** The restore requests among the calls of a run of [process_granule]
    are those of its passes: all of them when the sleep is not negative,
    and the first of them in any case. *)
Lemma process_granule_restored
    (s3_restore_object : Z -> string -> string -> option ClientError)
    (sqs_send_message : nat -> option string) (utcnow : nat -> string)
    (id : string) (ks : option (list KeyEntry)) (fs : list File)
    (glacier_bucket : string) (restore_expire_days max_retries : Z)
    (retry_sleep_secs : seconds) (retrieval_type job_id db_queue_url : string)
    (s : State) :
  let r :=
    process_granule s3_restore_object sqs_send_message utcnow
      (mkGranule (Some id) ks (Some fs)) glacier_bucket restore_expire_days
      max_retries retry_sleep_secs retrieval_type job_id db_queue_url s in
  exists fs' tr1,
    passes s3_restore_object glacier_bucket restore_expire_days max_retries
      retry_sleep_secs retrieval_type job_id (utcnow (clock_reads s)) id 1
      fs fs' tr1 /\
    (exists rest, restored tr1 = restored (calls r) ++ rest) /\
    (0 <= retry_sleep_secs ->
     outcome r = ending (Some id) ks fs' /\
     restored (calls r) = restored tr1).
Proof.
  intros r.
  destruct (process_granule_ends s3_restore_object sqs_send_message utcnow
              glacier_bucket restore_expire_days max_retries retry_sleep_secs
              retrieval_type job_id db_queue_url (utcnow (clock_reads s)) id
              ks fs s eq_refl)
    as (fs' & q & tr1 & tr2 & o & tr & s' & Hrun & Hq & Hps & Hr & He).
  fold r in Hrun.
  assert (Hfull : restored (q ++ tr1 ++ tr2) = restored tr1).
  { rewrite !restored_app, (restored_queue q Hq).
    now rewrite (reports_restored _ _ _ _ _ Hr), app_nil_r. }
  assert (Hcalls : restored (calls r) = restored tr).
  { rewrite Hrun. cbn [calls].
    change (?a :: tr) with ([a] ++ tr). now rewrite restored_app. }
  exists fs', tr1. split; [exact Hps|]. split.
  - destruct (ends_prefix _ _ _ _ _ He) as (rest & Hrest).
    exists (restored rest). now rewrite Hcalls, <- restored_app, <- Hrest.
  - intros Hsecs. apply (ends_full _ _ _ _ _ Hsecs) in He.
    destruct He as [-> ->]. rewrite Hcalls, Hrun. auto.
Qed.

(** X1.  Whatever S3 and the queue answer and whatever the sleep, every
    restore request of [process_granule] is made on the glacier bucket,
    with the number of days and the tier it was given, at a pass between 1
    and [max_retries + 1]; [process_granule] never probes an object; and
    for each key [x] there are at most [max_retries + 1] requests for each
    file of that key that entered with [success] false, so none for a key
    that has no such file.  The same bound holds of the requests taken
    together. *)
Theorem restore_requests_stay_in_bounds
    (s3_restore_object : Z -> string -> string -> option ClientError)
    (sqs_send_message : nat -> option string) (utcnow : nat -> string)
    (id : string) (ks : option (list KeyEntry)) (fs : list File)
    (glacier_bucket : string) (restore_expire_days max_retries : Z)
    (retry_sleep_secs : seconds) (retrieval_type job_id db_queue_url : string)
    (s : State) :
  let r :=
    process_granule s3_restore_object sqs_send_message utcnow
      (mkGranule (Some id) ks (Some fs)) glacier_bucket restore_expire_days
      max_retries retry_sleep_secs retrieval_type job_id db_queue_url s in
  Forall
    (fun e =>
       match e with
       | RestoreObject k Bucket _ Days Tier =>
           1 <= k <= max_retries + 1 /\
           Bucket = glacier_bucket /\
           Days = restore_expire_days /\
           Tier = retrieval_type
       | HeadObject _ _ => False
       | _ => True
       end)
    (calls r) /\
  (forall x,
     (requests_for x (calls r)
      <= Z.to_nat (max_retries + 1) * unfinished x fs)%nat) /\
  (forall x,
     unfinished x fs = 0%nat -> forall k, ~ In (k, x) (restored (calls r))) /\
  (List.length (restored (calls r))
   <= Z.to_nat (max_retries + 1) * List.length (pending fs))%nat.
Proof.
  intros r.
  destruct (process_granule_restored s3_restore_object sqs_send_message
              utcnow id ks fs glacier_bucket restore_expire_days
              max_retries retry_sleep_secs retrieval_type job_id
              db_queue_url s) as (fs' & tr1 & Hps & (rest & Hrest) & _).
  fold r in Hrest.
  assert (Hkey : forall x,
            (requests_for x (calls r)
             <= Z.to_nat (max_retries + 1) * unfinished x fs)%nat).
  { intros x.
    pose proof (passes_requests_for _ _ _ _ _ _ _ _ _ x _ _ _ _ Hps) as H.
    replace (max_retries + 2 - 1) with (max_retries + 1) in H by lia.
    unfold requests_for in *. rewrite Hrest, filter_app, length_app in H.
    lia. }
  split; [|split; [exact Hkey|split]].
  - apply calls_process_granule; auto.
    + intros s'. eapply Forall_impl; [|apply post_entry_to_queue_calls].
      intros e [->|[->|[->| ->]]]; exact I.
    + intros f status error last_update s' _.
      eapply Forall_impl; [|apply post_entry_to_queue_calls].
      intros e [->|[->|[->| ->]]]; exact I.
  - intros x Hx k Hin. specialize (Hkey x). rewrite Hx in Hkey.
    unfold requests_for in Hkey.
    assert (Hin' : In (k, x)
                     (filter (fun p => String.eqb x (snd p))
                        (restored (calls r)))).
    { apply filter_In. split; [exact Hin|]. apply String.eqb_refl. }
    destruct (filter _ (restored (calls r))); [destruct Hin'|].
    cbn [List.length] in Hkey. lia.
  - apply passes_restored_length in Hps.
    replace (max_retries + 2 - 1) with (max_retries + 1) in Hps by lia.
    rewrite Hrest, length_app in Hps. lia.
Qed.


(** With [max_retries] at 0 or below no call of [process_granule] is a call
    on the queue or a sleep. *)
Lemma process_granule_without_retries_calls
    (s3_restore_object : Z -> string -> string -> option ClientError)
    (sqs_send_message : nat -> option string) (utcnow : nat -> string)
    (id : string) (ks : option (list KeyEntry)) (rf : option (list File))
    (glacier_bucket : string) (restore_expire_days max_retries : Z)
    (retry_sleep_secs : seconds) (retrieval_type job_id db_queue_url : string)
    (s : State) :
  max_retries <= 0 ->
  Forall
    (fun e =>
       match e with
       | SendQueueUrlOnly _ | SendMessage _ | Sleep _ => False
       | _ => True
       end)
    (calls
       (process_granule s3_restore_object sqs_send_message utcnow
          (mkGranule (Some id) ks rf) glacier_bucket restore_expire_days
          max_retries retry_sleep_secs retrieval_type job_id db_queue_url s)).
Proof.
  intros Hmax. apply calls_process_granule; auto.
  - intros H. lia.
  - intros s'. rewrite post_entry_to_queue_sends_nothing by exact Hmax.
    cbn [calls]. repeat constructor.
  - intros f status error last_update s' _.
    rewrite post_entry_to_queue_sends_nothing by exact Hmax.
    cbn [calls]. repeat constructor.
Qed.

(** So no run is cut short by a sleep then, whatever its length. *)
Lemma process_granule_without_retries_run
    (s3_restore_object : Z -> string -> string -> option ClientError)
    (sqs_send_message : nat -> option string) (utcnow : nat -> string)
    (id : string) (ks : option (list KeyEntry)) (fs : list File)
    (glacier_bucket : string) (restore_expire_days max_retries : Z)
    (retry_sleep_secs : seconds) (retrieval_type job_id db_queue_url : string)
    (s : State) :
  max_retries <= 0 ->
  exists fs' q tr1 tr2 s',
    process_granule s3_restore_object sqs_send_message utcnow
      (mkGranule (Some id) ks (Some fs)) glacier_bucket restore_expire_days
      max_retries retry_sleep_secs retrieval_type job_id db_queue_url s
    = mkRun (ending (Some id) ks fs')
        (PostEntry "orca_recoveryjob"
           (job_event glacier_bucket job_id (utcnow (clock_reads s)) id) POST
         :: q ++ tr1 ++ tr2) s' /\
    forallb is_queue_call q = true /\
    passes s3_restore_object glacier_bucket restore_expire_days max_retries
      retry_sleep_secs retrieval_type job_id (utcnow (clock_reads s)) id 1
      fs fs' tr1 /\
    reports job_id (utcnow (clock_reads s)) id fs' tr2.
Proof.
  intros Hmax.
  destruct (process_granule_ends s3_restore_object sqs_send_message utcnow
              glacier_bucket restore_expire_days max_retries retry_sleep_secs
              retrieval_type job_id db_queue_url (utcnow (clock_reads s)) id
              ks fs s eq_refl)
    as (fs' & q & tr1 & tr2 & o & tr & s' & Hrun & Hq & Hps & Hr & He).
  exists fs', q, tr1, tr2, s'. repeat split; auto.
  destruct He as [[-> ->]|(_ & _ & (pre & ->) & _)]; [exact Hrun|].
  exfalso.
  pose proof (process_granule_without_retries_calls s3_restore_object
                sqs_send_message utcnow id ks (Some fs) glacier_bucket
                restore_expire_days max_retries retry_sleep_secs
                retrieval_type job_id db_queue_url s Hmax) as Hno.
  rewrite Hrun in Hno. cbn [calls] in Hno.
  rewrite Forall_forall in Hno.
  apply (Hno (Sleep retry_sleep_secs)).
  right. apply in_or_app. right. now left.
Qed.

(** X3.  With a negative [max_retries] the retry loop is not entered:
    [process_granule] makes no restore request, leaves every file as it
    was, reports each file whose [success] is false as FAILED, and raises
    [RestoreRequestError] as soon as there is one such file. *)
Theorem negative_retries_ask_for_nothing
    (s3_restore_object : Z -> string -> string -> option ClientError)
    (sqs_send_message : nat -> option string) (utcnow : nat -> string)
    (id : string) (ks : option (list KeyEntry)) (fs : list File)
    (glacier_bucket : string) (restore_expire_days max_retries : Z)
    (retry_sleep_secs : seconds) (retrieval_type job_id db_queue_url : string)
    (s : State) :
  max_retries < 0 ->
  let r :=
    process_granule s3_restore_object sqs_send_message utcnow
      (mkGranule (Some id) ks (Some fs)) glacier_bucket restore_expire_days
      max_retries retry_sleep_secs retrieval_type job_id db_queue_url s in
  restored (calls r) = [] /\
  outcome r
  = (if existsb (fun f => negb (success f)) fs then
       Raised
         (RestoreRequestError
            (FilesFailed (mkGranule (Some id) ks (Some fs))))
     else Returned (mkGranule (Some id) ks (Some fs))) /\
  Forall2
    (fun f d =>
       exists last_update,
         d = file_status_data job_id id (py.basename (key f)) (Some (key f))
               (Some (dest_bucket f)) (Some ORCA_STATUS_FAILED) (err_msg f)
               (Some (utcnow (clock_reads s))) (Some last_update) None)
    (pending fs) (posted "orca_recoverfile" (calls r)).
Proof.
  intros Hmax r.
  destruct (process_granule_without_retries_run s3_restore_object
              sqs_send_message utcnow id ks fs glacier_bucket
              restore_expire_days max_retries retry_sleep_secs
              retrieval_type job_id db_queue_url s ltac:(lia))
    as (fs' & q & tr1 & tr2 & s' & Hrun & Hq & Hps & Hr).
  fold r in Hrun. rewrite Hrun. cbn [outcome calls].
  apply passes_none in Hps; [|lia]. destruct Hps as (-> & ->).
  change (?a :: q ++ [] ++ tr2) with ([a] ++ q ++ tr2).
  rewrite !restored_app, (restored_queue q Hq).
  rewrite (reports_restored _ _ _ _ _ Hr).
  rewrite !posted_app, (posted_queue _ q Hq).
  split; [reflexivity|]. split; [reflexivity|].
  cbn [posted flat_map String.eqb Ascii.eqb Bool.eqb app].
  apply reports_posted in Hr. exact Hr.
Qed.

(** X4.  With [max_retries] at 0 or below, [process_granule] never calls
    the queue and never sleeps.  The status events are still handed to
    the publisher, the job event first, but [range(1, max_retries + 1)] is
    empty there: no event of the run is sent. *)
Theorem without_retries_nothing_reaches_the_queue
    (s3_restore_object : Z -> string -> string -> option ClientError)
    (sqs_send_message : nat -> option string) (utcnow : nat -> string)
    (id : string) (ks : option (list KeyEntry)) (rf : option (list File))
    (glacier_bucket : string) (restore_expire_days max_retries : Z)
    (retry_sleep_secs : seconds) (retrieval_type job_id db_queue_url : string)
    (s : State) :
  max_retries <= 0 ->
  let r :=
    process_granule s3_restore_object sqs_send_message utcnow
      (mkGranule (Some id) ks rf) glacier_bucket restore_expire_days
      max_retries retry_sleep_secs retrieval_type job_id db_queue_url s in
  Forall
    (fun e =>
       match e with
       | SendQueueUrlOnly _ | SendMessage _ | Sleep _ => False
       | _ => True
       end)
    (calls r) /\
  exists rest,
    calls r
    = PostEntry "orca_recoveryjob"
        [("job_id", json.JStr job_id); ("granule_id", json.JStr id);
         ("status_id", json.JInt ORCA_STATUS_PENDING);
         ("request_time", json.JStr (utcnow (clock_reads s)));
         ("archive_destination", json.JStr glacier_bucket)]
        POST
      :: rest.
Proof.
  intros Hmax r. split.
  - now apply process_granule_without_retries_calls.
  - unfold r, process_granule.
    erewrite bind_run by apply now_run. cbn [granuleId lookup app].
    rewrite bind_ret.
    unfold post_status_for_job_to_queue. cbn [option_map set_if_not_None app].
    erewrite bind_run
      by (rewrite post_entry_to_queue_sends_nothing by exact Hmax;
          reflexivity).
    cbn [calls app]. eexists. reflexivity.
Qed.

(** X5.  In every run of [process_granule] on a granule that has its
    ['granuleId'] and ['recover_files'], whatever S3 and the queue answer
    and whether the run returns or raises, the first call is the job-level
    event, with the PENDING status, the time at which the run began and
    the glacier bucket as archive destination, and no other job-level
    event follows it. *)
Theorem process_granule_posts_one_job_event
    (s3_restore_object : Z -> string -> string -> option ClientError)
    (sqs_send_message : nat -> option string) (utcnow : nat -> string)
    (id : string) (ks : option (list KeyEntry)) (fs : list File)
    (glacier_bucket : string) (restore_expire_days max_retries : Z)
    (retry_sleep_secs : seconds) (retrieval_type job_id db_queue_url : string)
    (s : State) :
  let r :=
    process_granule s3_restore_object sqs_send_message utcnow
      (mkGranule (Some id) ks (Some fs)) glacier_bucket restore_expire_days
      max_retries retry_sleep_secs retrieval_type job_id db_queue_url s in
  exists rest,
    calls r
    = PostEntry "orca_recoveryjob"
        [("job_id", json.JStr job_id); ("granule_id", json.JStr id);
         ("status_id", json.JInt ORCA_STATUS_PENDING);
         ("request_time", json.JStr (utcnow (clock_reads s)));
         ("archive_destination", json.JStr glacier_bucket)]
        POST
      :: rest /\
    posted "orca_recoveryjob" rest = [].
Proof.
  intros r.
  destruct (process_granule_ends s3_restore_object sqs_send_message utcnow
              glacier_bucket restore_expire_days max_retries retry_sleep_secs
              retrieval_type job_id db_queue_url (utcnow (clock_reads s)) id
              ks fs s eq_refl)
    as (fs' & q & tr1 & tr2 & o & tr & s' & Hrun & Hq & Hps & Hr & He).
  fold r in Hrun. rewrite Hrun. cbn [calls].
  exists tr. split; [reflexivity|].
  assert (Hfull : posted "orca_recoveryjob" (q ++ tr1 ++ tr2) = []).
  { rewrite !posted_app, (posted_queue _ q Hq).
    rewrite (passes_posted_job _ _ _ _ _ _ _ _ _ _ _ _ _ Hps).
    now rewrite (reports_posted_job _ _ _ _ _ Hr). }
  destruct (ends_prefix _ _ _ _ _ He) as (rest & Hrest).
  rewrite Hrest, posted_app in Hfull.
  now apply app_eq_nil in Hfull.
Qed.


(** X7.  Every status event of a run of [process_granule] is handed to the
    publisher with the method POST, for one of the two recovery tables,
    and carries the job id and the granule id of the run.  Every message
    the publisher then sends goes to the queue it was given, in the group
    [request_files], with the method [post] and one of the two tables as
    attributes, a deduplication id made of the table, the method and the
    body, and a body that is such a payload written with [indent=4].  The
    only sleeps are of [retry_sleep_secs]. *)
Theorem status_messages_are_well_formed
    (s3_restore_object : Z -> string -> string -> option ClientError)
    (sqs_send_message : nat -> option string) (utcnow : nat -> string)
    (id : string) (ks : option (list KeyEntry)) (rf : option (list File))
    (glacier_bucket : string) (restore_expire_days max_retries : Z)
    (retry_sleep_secs : seconds) (retrieval_type job_id db_queue_url : string)
    (s : State) :
  let r :=
    process_granule s3_restore_object sqs_send_message utcnow
      (mkGranule (Some id) ks rf) glacier_bucket restore_expire_days
      max_retries retry_sleep_secs retrieval_type job_id db_queue_url s in
  let of_the_run (new_data : json.dict) :=
    json.get "job_id" new_data = Some (json.JStr job_id) /\
    json.get "granule_id" new_data = Some (json.JStr id) in
  let recovery_table (table_name : string) :=
    table_name = "orca_recoveryjob" \/ table_name = "orca_recoverfile" in
  Forall
    (fun e =>
       match e with
       | PostEntry table_name new_data request_method =>
           request_method = POST /\
           recovery_table table_name /\
           of_the_run new_data
       | SendQueueUrlOnly QueueUrl => QueueUrl = db_queue_url
       | SendMessage m =>
           shared_recovery.QueueUrl m = db_queue_url /\
           shared_recovery.MessageGroupId m = "request_files" /\
           shared_recovery.attr_RequestMethod m = "post" /\
           recovery_table (shared_recovery.attr_TableName m) /\
           shared_recovery.MessageDeduplicationId m
           = (shared_recovery.attr_TableName m ++ "post"
              ++ shared_recovery.MessageBody m)%string /\
           exists new_data,
             shared_recovery.MessageBody m = json.dumps_indent4 new_data /\
             of_the_run new_data
       | Sleep secs => secs = retry_sleep_secs
       | _ => True
       end)
    (calls r).
Proof.
  intros r of_the_run recovery_table.
  assert (Hfile : forall f status error last_update,
            of_the_run
              (file_event job_id (utcnow (clock_reads s)) id f status error
                 last_update)).
  { intros f status error last_update. destruct error; split; reflexivity. }
  apply calls_process_granule; auto.
  - intros s'. eapply Forall_impl; [|apply post_entry_to_queue_calls].
    intros e [->|[->|[->| ->]]]; auto.
    + unfold recovery_table, of_the_run. repeat split; auto.
    + unfold recovery_table, queue_message.
      cbn [shared_recovery.QueueUrl shared_recovery.MessageGroupId
           shared_recovery.attr_RequestMethod shared_recovery.attr_TableName
           shared_recovery.MessageDeduplicationId
           shared_recovery.MessageBody RequestMethod_value].
      repeat split; auto.
      eexists. split; [reflexivity|]. split; reflexivity.
  - intros f status error last_update s' _.
    eapply Forall_impl; [|apply post_entry_to_queue_calls].
    intros e [->|[->|[->| ->]]]; auto.
    + unfold recovery_table. repeat split; auto; apply Hfile.
    + unfold recovery_table, queue_message.
      cbn [shared_recovery.QueueUrl shared_recovery.MessageGroupId
           shared_recovery.attr_RequestMethod shared_recovery.attr_TableName
           shared_recovery.MessageDeduplicationId
           shared_recovery.MessageBody RequestMethod_value].
      repeat split; auto.
      eexists. split; [reflexivity|]. apply Hfile.
Qed.




(** A run with [max_retries = -1] on a file S3 would restore. *)
Lemma negative_retries_ask_for_nothing_witness :
  -1 < 0 /\
  restored
    (calls
       (process_granule scenario.always_restored scenario.queue_up
          scenario.clock
          (mkGranule (Some "G1") None (Some scenario.one_file)) "glacier" 5
          (-1) 0 "Standard" "job" "url" scenario.start))
  = [] /\
  outcome
    (process_granule scenario.always_restored scenario.queue_up
       scenario.clock (mkGranule (Some "G1") None (Some scenario.one_file))
       "glacier" 5 (-1) 0 "Standard" "job" "url" scenario.start)
  = Raised
      (RestoreRequestError
         (FilesFailed (mkGranule (Some "G1") None (Some scenario.one_file)))).
Proof.
  assert (H : -1 < 0) by lia.
  split; [exact H|].
  destruct (negative_retries_ask_for_nothing scenario.always_restored
              scenario.queue_up scenario.clock "G1" None scenario.one_file
              "glacier" 5 (-1) 0 "Standard" "job" "url" scenario.start H)
    as (H1 & H2 & _).
  split; [exact H1|exact H2].
Defined.

(** A run with [max_retries = 0] on a file that S3 restores. *)
Lemma without_retries_nothing_reaches_the_queue_witness :
  0 <= 0 /\
  Forall
    (fun e =>
       match e with
       | SendQueueUrlOnly _ | SendMessage _ | Sleep _ => False
       | _ => True
       end)
    (calls
       (process_granule scenario.always_restored scenario.queue_up
          scenario.clock
          (mkGranule (Some "G1") None (Some scenario.one_file)) "glacier" 5
          0 0 "Standard" "job" "url" scenario.start)).
Proof.
  assert (H : 0 <= 0) by lia.
  split; [exact H|].
  exact (proj1
           (without_retries_nothing_reaches_the_queue
              scenario.always_restored scenario.queue_up scenario.clock "G1"
              None (Some scenario.one_file) "glacier" 5 0 0 "Standard" "job"
              "url" scenario.start H)).
Defined.

(** ** The publisher on every queue *)

(** The two calls on the SQS client. *)
Definition is_send (e : Effect) : bool :=
  match e with
  | SendQueueUrlOnly _ | SendMessage _ => true
  | _ => false
  end.

Definition is_Sleep (e : Effect) : bool :=
  match e with
  | Sleep _ => true
  | _ => false
  end.


Section PublisherOnEveryQueue.

Variable sqs_send_message : nat -> option string.
Variables (table_name body : string) (request_method : RequestMethod)
  (db_queue_url : string) (max_retries : Z) (retry_sleep_secs : seconds).

Local Abbreviation attempts_run :=
  (fun attempts =>
     post_entry_attempts sqs_send_message attempts table_name body
       request_method db_queue_url max_retries retry_sleep_secs).

Lemma range_length lo hi : List.length (py.range lo hi) = Z.to_nat (hi - lo).
Proof. unfold py.range. now rewrite length_map, length_seq. Qed.

(** Each attempt makes two calls on the client at most, and one sleep at
    most; the counter of the calls on the client counts them. *)
Lemma post_entry_attempts_bounded attempts s :
  Forall (fun a => a <> max_retries + 1) attempts ->
  let r := attempts_run attempts s in
  sqs_calls (final r)
  = (sqs_calls s + List.length (filter is_send (calls r)))%nat /\
  (List.length (filter is_send (calls r)) <= 2 * List.length attempts)%nat /\
  (List.length (filter is_Sleep (calls r)) <= List.length attempts)%nat.
Proof.
  intros Hne. revert s.
  induction Hne as [|attempt rest Hne _ IH]; intros s.
  { cbn. lia. }
  cbv zeta. rewrite post_entry_attempts_cons by exact Hne.
  destruct (sqs_send_message (sqs_calls s)) as [msg|];
    [|destruct (sqs_send_message (S (sqs_calls s))) as [msg|]];
    cbv beta zeta; [destruct (retry_sleep_secs <? 0)
                   |destruct (retry_sleep_secs <? 0)|];
    cbn [outcome calls final];
    try match goal with
        | |- context [post_entry_attempts _ rest _ _ _ _ _ _ ?s'] =>
            specialize (IH s'); cbv zeta in IH;
            destruct IH as (IH1 & IH2 & IH3)
        end;
    cbn [filter is_send is_Sleep List.length app sqs_calls] in *;
    try rewrite IH1; lia.
Qed.


End PublisherOnEveryQueue.







(** ** inner_task from the probes to the output *)



Section ProbeOrder.

Variable s3_head_object : string -> string -> option ClientError.
Variable glacier_bucket : string.

(** The entries that are probed: all of them, up to the first whose probe
    fails otherwise than by "not found". *)
Fixpoint probed (keys : list KeyEntry) : list KeyEntry :=
  match keys with
  | [] => []
  | entry :: rest =>
      entry
      :: match s3_head_object glacier_bucket (k_key entry) with
         | None => probed rest
         | Some err => if not_found err then probed rest else []
         end
  end.

Definition probe (entry : KeyEntry) : Effect :=
  HeadObject glacier_bucket (k_key entry).

Lemma collect_files_calls keys files s :
  calls (collect_files s3_head_object glacier_bucket keys files s)
  = map probe (probed keys).
Proof.
  revert files. induction keys as [|entry keys IH]; intros files.
  { reflexivity. }
  cbn [collect_files probed map].
  erewrite bind_run by apply object_exists_run.
  destruct (s3_head_object glacier_bucket (k_key entry)) as [err|].
  - destruct (not_found err); cbn [calls app]; [|reflexivity].
    now rewrite IH.
  - cbn [calls app]. now rewrite IH.
Qed.

Lemma probed_all keys :
  first_probe_error s3_head_object glacier_bucket keys = None ->
  probed keys = keys.
Proof.
  induction keys as [|entry keys IH]; cbn; [reflexivity|].
  destruct (s3_head_object glacier_bucket (k_key entry)) as [err|].
  - destruct (not_found err); [|discriminate]. intros H. now rewrite IH.
  - intros H. now rewrite IH.
Qed.

(** When a probe fails otherwise than by "not found", the entries probed
    end with the first entry whose probe fails so. *)
Lemma probed_last keys err :
  first_probe_error s3_head_object glacier_bucket keys = Some err ->
  exists before entry,
    probed keys = before ++ [entry] /\
    s3_head_object glacier_bucket (k_key entry) = Some err /\
    not_found err = false /\
    Forall
      (fun e =>
         match s3_head_object glacier_bucket (k_key e) with
         | None => True
         | Some err' => not_found err' = true
         end)
      before.
Proof.
  induction keys as [|entry keys IH]; cbn [first_probe_error probed];
    [discriminate|].
  destruct (s3_head_object glacier_bucket (k_key entry)) as [e|] eqn:He.
  - destruct (not_found e) eqn:Hnf.
    + intros H. destruct (IH H) as (before & entry0 & Hp & H0 & Hnf0 & Hb).
      exists (entry :: before), entry0. rewrite Hp.
      repeat split; auto. constructor; [now rewrite He|exact Hb].
    + intros [= <-]. exists [], entry. repeat split; auto.
  - intros H. destruct (IH H) as (before & entry0 & Hp & H0 & Hnf0 & Hb).
    exists (entry :: before), entry0. rewrite Hp.
    repeat split; auto. constructor; [now rewrite He|exact Hb].
Qed.

Lemma probed_prefix keys : exists rest, keys = probed keys ++ rest.
Proof.
  induction keys as [|entry keys (rest & IH)]; [now exists []|].
  cbn [probed].
  destruct (s3_head_object glacier_bucket (k_key entry)) as [err|].
  - destruct (not_found err).
    + exists rest. cbn. now rewrite <- IH.
    + now exists keys.
  - exists rest. cbn. now rewrite <- IH.
Qed.

End ProbeOrder.

(** The calls of [inner_task] on one granule: the probes, then the calls
    of [process_granule] when no probe raised. *)
Lemma inner_task_calls s3_head_object s3_restore_object sqs_send_message
    utcnow glacier_bucket id keys rf job_id max_retries retry_sleep_secs
    retrieval_type restore_expire_days db_queue_url s :
  calls
    (inner_task s3_head_object s3_restore_object sqs_send_message utcnow
       (mkEvent (Some glacier_bucket) [mkGranule id (Some keys) rf] job_id)
       max_retries retry_sleep_secs retrieval_type restore_expire_days
       db_queue_url s)
  = map (probe glacier_bucket) (probed s3_head_object glacier_bucket keys)
    ++ match first_probe_error s3_head_object glacier_bucket keys with
       | Some _ => []
       | None =>
           calls
             (process_granule s3_restore_object sqs_send_message utcnow
                (mkGranule id (Some keys)
                   (Some
                      (map new_file
                         (filter (present s3_head_object glacier_bucket)
                            keys))))
                glacier_bucket restore_expire_days max_retries
                retry_sleep_secs retrieval_type job_id db_queue_url s)
       end.
Proof.
  assert (Hprobes :
    calls
      (inner_task s3_head_object s3_restore_object sqs_send_message utcnow
         (mkEvent (Some glacier_bucket) [mkGranule id (Some keys) rf] job_id)
         max_retries retry_sleep_secs retrieval_type restore_expire_days
         db_queue_url s)
    = calls (collect_files s3_head_object glacier_bucket keys [] s)
      ++ match first_probe_error s3_head_object glacier_bucket keys with
         | Some _ => []
         | None =>
             calls
               (process_granule s3_restore_object sqs_send_message utcnow
                  (mkGranule id (Some keys)
                     (Some
                        (map new_file
                           (filter (present s3_head_object glacier_bucket)
                              keys))))
                  glacier_bucket restore_expire_days max_retries
                  retry_sleep_secs retrieval_type job_id db_queue_url s)
         end).
  { destruct (collect_files_run s3_head_object glacier_bucket keys [] s)
      as (tr & Hc & _).
    assert (Hcopy :
      copy_granules s3_head_object glacier_bucket
        [mkGranule id (Some keys) rf] (mkGranule None None None) s
      = mkRun
          match first_probe_error s3_head_object glacier_bucket keys with
          | Some err => Raised (BotoClientError err)
          | None =>
              Returned
                (mkGranule id (Some keys)
                   (Some
                      (map new_file
                         (filter (present s3_head_object glacier_bucket)
                            keys))))
          end
          tr s).
    { cbn [copy_granules request_files.keys lookup]. rewrite bind_ret.
      erewrite bind_run by exact Hc.
      destruct (first_probe_error s3_head_object glacier_bucket keys);
        [reflexivity|].
      cbn. now rewrite app_nil_r. }
    rewrite Hc. cbn [calls]. unfold inner_task.
    cbn [config_glacier_bucket input_granules input_job_id lookup
         List.length Nat.ltb Nat.leb].
    change (try_except_KeyError _ _) with (@ret string glacier_bucket).
    rewrite bind_ret. erewrite bind_run by exact Hcopy.
    destruct (first_probe_error s3_head_object glacier_bucket keys);
      [now rewrite app_nil_r|].
    match goal with
    | |- context [process_granule ?a ?b ?c ?g ?d ?e ?f ?h ?i ?j ?k ?s] =>
        erewrite bind_run
          by apply (run_eta (process_granule a b c g d e f h i j k s));
        destruct (outcome (process_granule a b c g d e f h i j k s))
    end;
      cbn [outcome calls final ret]; now rewrite ?app_nil_r. }
  rewrite Hprobes, collect_files_calls. reflexivity.
Qed.





(** X14.  The probes of [inner_task] come before every other call, one
    for each entry probed in the order of ['keys'], on the glacier bucket,
    and no object is probed again after them.  The entries probed are
    those of [probed]: when no probe fails otherwise than by "not found",
    they are all the entries; when one does, they are the entries up to
    the first whose probe fails so, each entry before it having been found
    or not found, the entries after it are not probed, its probe is the
    last call and [inner_task] raises its error. *)
Theorem inner_task_probes_in_order
    (s3_head_object : string -> string -> option ClientError)
    (s3_restore_object : Z -> string -> string -> option ClientError)
    (sqs_send_message : nat -> option string) (utcnow : nat -> string)
    (glacier_bucket : string) (id : option string) (keys : list KeyEntry)
    (rf : option (list File)) (job_id : string) (max_retries : Z)
    (retry_sleep_secs : seconds) (retrieval_type : string)
    (restore_expire_days : Z) (db_queue_url : string) (s : State) :
  let r :=
    inner_task s3_head_object s3_restore_object sqs_send_message utcnow
      (mkEvent (Some glacier_bucket) [mkGranule id (Some keys) rf] job_id)
      max_retries retry_sleep_secs retrieval_type restore_expire_days
      db_queue_url s in
  let asked := probed s3_head_object glacier_bucket keys in
  exists skipped rest,
    keys = asked ++ skipped /\
    calls r
    = map (fun entry => HeadObject glacier_bucket (k_key entry)) asked
      ++ rest /\
    Forall (fun e => is_HeadObject e = false) rest /\
    match first_probe_error s3_head_object glacier_bucket keys with
    | None => skipped = [] /\ asked = keys
    | Some err =>
        rest = [] /\
        outcome r = Raised (BotoClientError err) /\
        exists before entry,
          asked = before ++ [entry] /\
          s3_head_object glacier_bucket (k_key entry) = Some err /\
          error_code err <> "NoSuchKey" /\
          error_code err <> "NotFound" /\
          Forall
            (fun e =>
               match s3_head_object glacier_bucket (k_key e) with
               | None => True
               | Some err' =>
                   error_code err' = "NoSuchKey" \/
                   error_code err' = "NotFound"
               end)
            before
    end.
Proof.
  intros r asked.
  assert (Hcodes : forall err,
            not_found err = true <->
            error_code err = "NoSuchKey" \/ error_code err = "NotFound").
  { intros err. unfold not_found. rewrite orb_true_iff.
    now rewrite !String.eqb_eq. }
  destruct (probed_prefix s3_head_object glacier_bucket keys)
    as (skipped & Hkeys).
  pose proof (inner_task_calls s3_head_object s3_restore_object
                sqs_send_message utcnow glacier_bucket id keys rf job_id
                max_retries retry_sleep_secs retrieval_type
                restore_expire_days db_queue_url s) as Hcalls.
  fold r in Hcalls.
  destruct (inner_task_run s3_head_object s3_restore_object sqs_send_message
              utcnow glacier_bucket id keys rf job_id max_retries
              retry_sleep_secs retrieval_type restore_expire_days
              db_queue_url s) as (probes & _ & Hrun).
  fold r in Hrun.
  destruct (first_probe_error s3_head_object glacier_bucket keys)
    as [err|] eqn:Hfirst.
  - exists skipped, [].
    split; [exact Hkeys|]. split; [exact Hcalls|]. split; [constructor|].
    split; [reflexivity|]. split; [now rewrite Hrun|].
    destruct (probed_last s3_head_object glacier_bucket keys err Hfirst)
      as (before & entry & Hp & He & Hnf & Hb).
    exists before, entry. split; [exact Hp|]. split; [exact He|].
    assert (Hno : ~ (error_code err = "NoSuchKey" \/
                     error_code err = "NotFound")).
    { rewrite <- Hcodes. congruence. }
    split; [tauto|]. split; [tauto|].
    eapply Forall_impl; [|exact Hb]. intros e. cbn beta.
    destruct (s3_head_object glacier_bucket (k_key e)); [apply Hcodes|auto].
  - unfold asked in *. rewrite (probed_all _ _ _ Hfirst) in *.
    eexists [], _. split; [now rewrite app_nil_r|].
    split; [exact Hcalls|]. split; [|split; reflexivity].
    destruct id as [id|]; [|rewrite process_granule_no_id; constructor].
    apply calls_process_granule; auto.
    + intros s'. eapply Forall_impl; [|apply post_entry_to_queue_calls].
      intros e [->|[->|[->| ->]]]; reflexivity.
    + intros f status error last_update s' _.
      eapply Forall_impl; [|apply post_entry_to_queue_calls].
      intros e [->|[->|[->| ->]]]; reflexivity.
Qed.

(** X15.  [inner_task] does not read the ['recover_files'] of the granule
    it is given: it builds the list anew from the probes, so two events
    that differ in it only run alike, to the same end, with the same
    calls. *)
Theorem inner_task_ignores_recover_files
    (s3_head_object : string -> string -> option ClientError)
    (s3_restore_object : Z -> string -> string -> option ClientError)
    (sqs_send_message : nat -> option string) (utcnow : nat -> string)
    (glacier_bucket : string) (id : option string)
    (ks : option (list KeyEntry)) (rf rf' : option (list File))
    (job_id : string) (max_retries : Z) (retry_sleep_secs : seconds)
    (retrieval_type : string) (restore_expire_days : Z)
    (db_queue_url : string) (s : State) :
  inner_task s3_head_object s3_restore_object sqs_send_message utcnow
    (mkEvent (Some glacier_bucket) [mkGranule id ks rf] job_id) max_retries
    retry_sleep_secs retrieval_type restore_expire_days db_queue_url s
  = inner_task s3_head_object s3_restore_object sqs_send_message utcnow
      (mkEvent (Some glacier_bucket) [mkGranule id ks rf'] job_id)
      max_retries retry_sleep_secs retrieval_type restore_expire_days
      db_queue_url s.
Proof.
  destruct ks as [keys|]; [|reflexivity].
  rewrite (run_eta (inner_task _ _ _ _ (mkEvent _ [mkGranule _ _ rf] _)
                      _ _ _ _ _ _)).
  rewrite (run_eta (inner_task _ _ _ _ (mkEvent _ [mkGranule _ _ rf'] _)
                      _ _ _ _ _ _)).
  rewrite !inner_task_calls.
  destruct (inner_task_run s3_head_object s3_restore_object sqs_send_message
              utcnow glacier_bucket id keys rf job_id max_retries
              retry_sleep_secs retrieval_type restore_expire_days
              db_queue_url s) as (probes & _ & Hrun).
  destruct (inner_task_run s3_head_object s3_restore_object sqs_send_message
              utcnow glacier_bucket id keys rf' job_id max_retries
              retry_sleep_secs retrieval_type restore_expire_days
              db_queue_url s) as (probes' & _ & Hrun').
  destruct (first_probe_error s3_head_object glacier_bucket keys);
    rewrite Hrun, Hrun'; reflexivity.
Qed.




(** ** The calls of inner_task *)

(** A property of every call of [inner_task], on every event: from the
    same property of the probes and the restore requests on the configured
    bucket, of the sleep between two passes, and of the calls of the
    publisher on a payload that carries the job id. *)
Lemma calls_inner_task
    (s3_head_object : string -> string -> option ClientError)
    (s3_restore_object : Z -> string -> string -> option ClientError)
    (sqs_send_message : nat -> option string) (utcnow : nat -> string)
    (event : Event) (max_retries : Z) (retry_sleep_secs : seconds)
    (retrieval_type : string) (restore_expire_days : Z)
    (db_queue_url : string) (P : Effect -> Prop) (s : State) :
  (forall bucket x,
     config_glacier_bucket event = Some bucket -> P (HeadObject bucket x)) ->
  (forall bucket k x,
     config_glacier_bucket event = Some bucket ->
     1 <= k <= max_retries + 1 ->
     P (RestoreObject k bucket x restore_expire_days retrieval_type)) ->
  (1 <= max_retries -> P (Sleep retry_sleep_secs)) ->
  (forall table new_data s',
     table = "orca_recoveryjob" \/ table = "orca_recoverfile" ->
     json.get "job_id" new_data = Some (json.JStr (input_job_id event)) ->
     Forall P
       (calls
          (post_entry_to_queue sqs_send_message table new_data POST
             db_queue_url max_retries retry_sleep_secs s'))) ->
  Forall P
    (calls
       (inner_task s3_head_object s3_restore_object sqs_send_message utcnow
          event max_retries retry_sleep_secs retrieval_type
          restore_expire_days db_queue_url s)).
Proof.
  intros Hhead Hrestore Hsleep Hpost.
  destruct event as [[glacier_bucket|] granules job_id].
  2: { constructor. }
  cbn [config_glacier_bucket input_job_id] in *.
  destruct granules as [|[id [keys|] rf] [|g2 gs]]; try constructor.
  rewrite inner_task_calls. apply Forall_app. split.
  - apply Forall_forall. intros e He. apply in_map_iff in He.
    destruct He as (entry & <- & _). now apply Hhead.
  - destruct (first_probe_error s3_head_object glacier_bucket keys);
      [constructor|].
    destruct id as [id|]; [|rewrite process_granule_no_id; constructor].
    apply calls_process_granule; auto.
    + intros f status error last_update s' _. apply Hpost; [now right|].
      destruct error; reflexivity.
Qed.

(** ** task: the settings read from the environment

    [task] reads its settings from [os.environ], gives the event a job id
    when it has none, and calls [inner_task].  [int] and [float] are the
    Python conversions of the text of a variable, [None] when they raise
    [ValueError]; [uuid4] is the identifier [uuid.uuid4()] draws. *)

Module request_files_environ.

Definition OS_ENVIRON_RESTORE_EXPIRE_DAYS_KEY : string := "RESTORE_EXPIRE_DAYS".
Definition OS_ENVIRON_RESTORE_REQUEST_RETRIES_KEY : string :=
  "RESTORE_REQUEST_RETRIES".
Definition OS_ENVIRON_RESTORE_RETRY_SLEEP_SECS_KEY : string :=
  "RESTORE_RETRY_SLEEP_SECS".
Definition OS_ENVIRON_RESTORE_RETRIEVAL_TYPE_KEY : string :=
  "RESTORE_RETRIEVAL_TYPE".
Definition OS_ENVIRON_DB_QUEUE_URL_KEY : string := "DB_QUEUE_URL".

(** [os.environ]: the text of a variable, [None] when it is not set. *)
Definition Environ : Type := string -> option string.

(** What [task] raises before it calls [inner_task]: the [KeyError] of
    [os.environ[k]] and the [ValueError] of [int(text)] or [float(text)]. *)
Inductive EnvironError : Type :=
| EnvironKeyError (k : string)
| ValueError (text : string).

(** The event [task] receives, in which ['job_id'] may be absent. *)
Record TaskEvent : Type := mkTaskEvent {
  task_config_glacier_bucket : option string;
  task_input_granules : list Granule;
  task_input_job_id : option string
}.

Section Task.

Variable s3_head_object : string -> string -> option ClientError.
Variable s3_restore_object : Z -> string -> string -> option ClientError.
Variable sqs_send_message : nat -> option string.
Variable utcnow : nat -> string.

Variable int : string -> option Z.
Variable float : string -> option seconds.
Variable uuid4 : string.
Variable environ : Environ.

(** [try: x = convert(os.environ[k])] / [except KeyError: x = default] *)
Definition environ_or {A} (convert : string -> option A) (k : string)
    (default : A) : EnvironError + A :=
  match environ k with
  | None => inr default
  | Some text =>
      match convert text with
      | Some a => inr a
      | None => inl (ValueError text)
      end
  end.

(** The tier: the variable when it holds one of the three valid values,
    the default when it holds another text or is not set. *)
Definition retrieval_type_setting : string :=
  match environ OS_ENVIRON_RESTORE_RETRIEVAL_TYPE_KEY with
  | Some retrieval_type =>
      if (String.eqb retrieval_type "Standard"
          || String.eqb retrieval_type "Bulk"
          || String.eqb retrieval_type "Expedited")%bool
      then retrieval_type
      else DEFAULT_RESTORE_RETRIEVAL_TYPE
  | None => DEFAULT_RESTORE_RETRIEVAL_TYPE
  end.

(** [if 'job_id' not in event['input']: event['input']['job_id'] = uuid4] *)
Definition with_job_id (event : TaskEvent) : Event :=
  mkEvent (task_config_glacier_bucket event) (task_input_granules event)
    match task_input_job_id event with
    | Some job_id => job_id
    | None => uuid4
    end.

Definition task (event : TaskEvent) : EnvironError + M Output :=
  match
    environ_or int OS_ENVIRON_RESTORE_REQUEST_RETRIES_KEY
      DEFAULT_MAX_REQUEST_RETRIES
  with
  | inl e => inl e
  | inr max_retries =>
  match
    environ_or float OS_ENVIRON_RESTORE_RETRY_SLEEP_SECS_KEY
      DEFAULT_RESTORE_RETRY_SLEEP_SECS
  with
  | inl e => inl e
  | inr retry_sleep_secs =>
  let retrieval_type := retrieval_type_setting in
  match environ OS_ENVIRON_DB_QUEUE_URL_KEY with
  | None => inl (EnvironKeyError OS_ENVIRON_DB_QUEUE_URL_KEY)
  | Some db_queue_url =>
  match
    environ_or int OS_ENVIRON_RESTORE_EXPIRE_DAYS_KEY
      DEFAULT_RESTORE_EXPIRE_DAYS
  with
  | inl e => inl e
  | inr exp_days =>
      inr
        (inner_task s3_head_object s3_restore_object sqs_send_message utcnow
           (with_job_id event) max_retries retry_sleep_secs retrieval_type
           exp_days db_queue_url)
  end
  end
  end
  end.

End Task.

End request_files_environ.

Import request_files_environ.

(** An environment with the queue only, and conversions that are not
    called. *)
Definition queue_only (k : string) : option string :=
  if String.eqb k "DB_QUEUE_URL" then Some "url" else None.

Definition no_number {A} (text : string) : option A := None.

(** An environment with the queue and the tier [Bulk]. *)
Definition queue_and_bulk (k : string) : option string :=
  if String.eqb k "DB_QUEUE_URL" then Some "url"
  else if String.eqb k "RESTORE_RETRIEVAL_TYPE" then Some "Bulk"
  else None.

Lemma environ_or_inr {A} environ (convert : string -> option A) k default :
  (exists a, environ_or environ convert k default = inr a) <->
  (forall text, environ k = Some text -> convert text <> None).
Proof.
  unfold environ_or. destruct (environ k) as [text|].
  - destruct (convert text) as [a|] eqn:Ha; split.
    + intros _ text' [= <-]. congruence.
    + eauto.
    + intros (a & H). discriminate.
    + intros H. now destruct (H text eq_refl).
  - split; [discriminate|eauto].
Qed.

(** X17.  [task] reaches [inner_task] exactly when [DB_QUEUE_URL] is set
    and each of the three numeric variables is either not set or a text
    that [int] (for the retries and the days) or [float] (for the sleep)
    converts.  The only [KeyError] it raises for a variable is that of
    [DB_QUEUE_URL]: the other four have defaults, and any text is accepted
    for [RESTORE_RETRIEVAL_TYPE].  A numeric variable that does not
    convert raises [ValueError]; it is not replaced by the default. *)
Theorem task_runs_iff
    (s3_head_object : string -> string -> option ClientError)
    (s3_restore_object : Z -> string -> string -> option ClientError)
    (sqs_send_message : nat -> option string) (utcnow : nat -> string)
    (int : string -> option Z) (float : string -> option seconds)
    (uuid4 : string) (environ : Environ) (event : TaskEvent) :
  let r :=
    task s3_head_object s3_restore_object sqs_send_message utcnow int float
      uuid4 environ event in
  ((exists run, r = inr run) <->
   environ "DB_QUEUE_URL" <> None /\
   (forall text,
      environ "RESTORE_REQUEST_RETRIES" = Some text -> int text <> None) /\
   (forall text,
      environ "RESTORE_RETRY_SLEEP_SECS" = Some text ->
      float text <> None) /\
   (forall text,
      environ "RESTORE_EXPIRE_DAYS" = Some text -> int text <> None)) /\
  (forall k, r = inl (EnvironKeyError k) ->
             k = "DB_QUEUE_URL" /\ environ "DB_QUEUE_URL" = None) /\
  (forall text,
     r = inl (ValueError text) ->
     environ "RESTORE_REQUEST_RETRIES" = Some text /\ int text = None \/
     environ "RESTORE_RETRY_SLEEP_SECS" = Some text /\ float text = None \/
     environ "RESTORE_EXPIRE_DAYS" = Some text /\ int text = None).
Proof.
  intros r. unfold r, task.
  pose proof (environ_or_inr environ int
                OS_ENVIRON_RESTORE_REQUEST_RETRIES_KEY
                DEFAULT_MAX_REQUEST_RETRIES) as H1.
  pose proof (environ_or_inr environ float
                OS_ENVIRON_RESTORE_RETRY_SLEEP_SECS_KEY
                DEFAULT_RESTORE_RETRY_SLEEP_SECS) as H2.
  pose proof (environ_or_inr environ int OS_ENVIRON_RESTORE_EXPIRE_DAYS_KEY
                DEFAULT_RESTORE_EXPIRE_DAYS) as H3.
  change OS_ENVIRON_RESTORE_REQUEST_RETRIES_KEY
    with "RESTORE_REQUEST_RETRIES" in *.
  change OS_ENVIRON_RESTORE_RETRY_SLEEP_SECS_KEY
    with "RESTORE_RETRY_SLEEP_SECS" in *.
  change OS_ENVIRON_RESTORE_EXPIRE_DAYS_KEY with "RESTORE_EXPIRE_DAYS" in *.
  change OS_ENVIRON_DB_QUEUE_URL_KEY with "DB_QUEUE_URL" in *.
  unfold environ_or in *.
  destruct (environ "RESTORE_REQUEST_RETRIES") as [t1|];
    [destruct (int t1) eqn:E1|];
    (destruct (environ "RESTORE_RETRY_SLEEP_SECS") as [t2|];
     [destruct (float t2) eqn:E2|]);
    (destruct (environ "DB_QUEUE_URL") as [url|]);
    (destruct (environ "RESTORE_EXPIRE_DAYS") as [t3|];
     [destruct (int t3) eqn:E3|]);
    (split; [split|split]);
    try (intros (run & Hrun); discriminate);
    try (intros (Hurl & Ha & Hb & Hc);
         try (now destruct Hurl);
         try (now destruct (Ha _ eq_refl));
         try (now destruct (Hb _ eq_refl));
         try (now destruct (Hc _ eq_refl)));
    try (intros _; repeat split; try discriminate;
         intros text [= <-]; congruence);
    try (intros k [= <-]; auto);
    try (intros k; discriminate);
    try (intros text [= <-]; auto);
    try (intros text; discriminate);
    eauto.
Qed.

(** A run of [inner_task] that returns gives back the job id of the
    event. *)
Lemma inner_task_out_job_id s3_head_object s3_restore_object
    sqs_send_message utcnow event max_retries retry_sleep_secs retrieval_type
    restore_expire_days db_queue_url s out :
  outcome
    (inner_task s3_head_object s3_restore_object sqs_send_message utcnow
       event max_retries retry_sleep_secs retrieval_type restore_expire_days
       db_queue_url s)
  = Returned out ->
  out_job_id out = input_job_id event.
Proof.
  destruct event as [[glacier_bucket|] granules job_id]; [|discriminate].
  destruct granules as [|[id [keys|] rf] [|g2 gs]]; try discriminate.
  destruct (inner_task_run s3_head_object s3_restore_object
              sqs_send_message utcnow glacier_bucket id keys rf job_id
              max_retries retry_sleep_secs retrieval_type
              restore_expire_days db_queue_url s) as (probes & _ & Hrun).
  destruct (first_probe_error s3_head_object glacier_bucket keys);
    rewrite Hrun; cbn [outcome]; [discriminate|].
  match goal with |- context [outcome ?r0] => destruct (outcome r0) end;
    try discriminate.
  now intros [= <-].
Qed.

(** X18.  The restore requests of [task] follow the environment.  Their
    tier is the text of [RESTORE_RETRIEVAL_TYPE] when it is one of
    [Standard], [Bulk] and [Expedited], and [Standard] when the variable
    holds another text or is not set, so always one of the three.  When
    [RESTORE_REQUEST_RETRIES] is not set, no file is asked for at a pass
    after the third; when [RESTORE_EXPIRE_DAYS] is not set, the requests
    are for 5 days.  All of them are made on the bucket of the
    configuration. *)
Theorem task_restore_requests_follow_the_environment
    (s3_head_object : string -> string -> option ClientError)
    (s3_restore_object : Z -> string -> string -> option ClientError)
    (sqs_send_message : nat -> option string) (utcnow : nat -> string)
    (int : string -> option Z) (float : string -> option seconds)
    (uuid4 : string) (environ : Environ) (event : TaskEvent)
    (run : M Output) (s : State) :
  task s3_head_object s3_restore_object sqs_send_message utcnow int float
    uuid4 environ event
  = inr run ->
  Forall
    (fun e =>
       match e with
       | RestoreObject k Bucket _ Days Tier =>
           (forall text,
              environ "RESTORE_RETRIEVAL_TYPE" = Some text ->
              text = "Standard" \/ text = "Bulk" \/ text = "Expedited" ->
              Tier = text) /\
           (forall text,
              environ "RESTORE_RETRIEVAL_TYPE" = Some text ->
              text <> "Standard" -> text <> "Bulk" ->
              text <> "Expedited" ->
              Tier = "Standard") /\
           (environ "RESTORE_RETRIEVAL_TYPE" = None -> Tier = "Standard") /\
           (Tier = "Standard" \/ Tier = "Bulk" \/ Tier = "Expedited") /\
           (environ "RESTORE_REQUEST_RETRIES" = None -> 1 <= k <= 3) /\
           (environ "RESTORE_EXPIRE_DAYS" = None -> Days = 5) /\
           task_config_glacier_bucket event = Some Bucket
       | _ => True
       end)
    (calls (run s)).
Proof.
  unfold task, environ_or.
  change OS_ENVIRON_RESTORE_REQUEST_RETRIES_KEY
    with "RESTORE_REQUEST_RETRIES".
  change OS_ENVIRON_RESTORE_EXPIRE_DAYS_KEY with "RESTORE_EXPIRE_DAYS".
  assert (Htier :
    let tier := retrieval_type_setting environ in
    (forall text,
       environ "RESTORE_RETRIEVAL_TYPE" = Some text ->
       text = "Standard" \/ text = "Bulk" \/ text = "Expedited" ->
       tier = text) /\
    (forall text,
       environ "RESTORE_RETRIEVAL_TYPE" = Some text ->
       text <> "Standard" -> text <> "Bulk" -> text <> "Expedited" ->
       tier = "Standard") /\
    (environ "RESTORE_RETRIEVAL_TYPE" = None -> tier = "Standard") /\
    (tier = "Standard" \/ tier = "Bulk" \/ tier = "Expedited")).
  { unfold retrieval_type_setting.
    change OS_ENVIRON_RESTORE_RETRIEVAL_TYPE_KEY
      with "RESTORE_RETRIEVAL_TYPE".
    destruct (environ "RESTORE_RETRIEVAL_TYPE") as [text|]; cbv zeta.
    2: { repeat split; auto; discriminate. }
    destruct (String.eqb_spec text "Standard") as [->|H1];
      [cbn [orb]; repeat split; auto; try discriminate;
       intros text [= <-]; auto; congruence|].
    destruct (String.eqb_spec text "Bulk") as [->|H2];
      [cbn [orb]; repeat split; auto; try discriminate;
       intros text [= <-]; auto; congruence|].
    destruct (String.eqb_spec text "Expedited") as [->|H3];
      [cbn [orb]; repeat split; auto; try discriminate;
       intros text [= <-]; auto; congruence|].
    cbn [orb]. repeat split; auto; try discriminate.
    intros text' [= <-] [H|[H|H]]; congruence. }
  cbv zeta in Htier. destruct Htier as (Hsame & Hother & Hunset & Hvalid).
  destruct (environ "RESTORE_REQUEST_RETRIES") as [t1|] eqn:E1;
    [destruct (int t1) as [max_retries|]; [|discriminate]|];
    (destruct (environ OS_ENVIRON_RESTORE_RETRY_SLEEP_SECS_KEY) as [t2|];
     [destruct (float t2) as [secs|]; [|discriminate]|]);
    (destruct (environ OS_ENVIRON_DB_QUEUE_URL_KEY) as [url|];
     [|discriminate]);
    (destruct (environ "RESTORE_EXPIRE_DAYS") as [t3|] eqn:E3;
     [destruct (int t3) as [days|]; [|discriminate]|]);
    intros [= <-];
    (apply calls_inner_task;
     [intros; exact I
     |intros bucket k x Hb Hk;
      split; [exact Hsame|]; split; [exact Hother|];
      split; [exact Hunset|]; split; [exact Hvalid|];
      split;
        [intros H; try discriminate H;
         unfold DEFAULT_MAX_REQUEST_RETRIES in Hk; lia|];
      split; [intros H; try discriminate H; reflexivity|exact Hb]
     |intros; exact I
     |intros table new_data s' _ _;
      eapply Forall_impl; [|apply post_entry_to_queue_calls];
      intros e [->|[->|[->| ->]]]; exact I]).
Qed.

(** X19.  The job id of a run of [task] is the ['job_id'] of the event
    when it has one and the identifier [uuid.uuid4()] draws when it has
    none.  Every status event of the run carries it, and the output
    returns it. *)
Theorem task_keeps_the_job_id
    (s3_head_object : string -> string -> option ClientError)
    (s3_restore_object : Z -> string -> string -> option ClientError)
    (sqs_send_message : nat -> option string) (utcnow : nat -> string)
    (int : string -> option Z) (float : string -> option seconds)
    (uuid4 : string) (environ : Environ) (event : TaskEvent)
    (run : M Output) (s : State) :
  task s3_head_object s3_restore_object sqs_send_message utcnow int float
    uuid4 environ event
  = inr run ->
  let job_id :=
    match task_input_job_id event with
    | Some job_id => job_id
    | None => uuid4
    end in
  (forall out, outcome (run s) = Returned out -> out_job_id out = job_id) /\
  Forall
    (fun e =>
       match e with
       | PostEntry _ new_data _ =>
           json.get "job_id" new_data = Some (json.JStr job_id)
       | SendMessage m =>
           exists new_data,
             shared_recovery.MessageBody m = json.dumps_indent4 new_data /\
             json.get "job_id" new_data = Some (json.JStr job_id)
       | _ => True
       end)
    (calls (run s)).
Proof.
  unfold task.
  destruct (environ_or environ int _ _) as [|max_retries]; [discriminate|].
  destruct (environ_or environ float _ _) as [|secs]; [discriminate|].
  destruct (environ OS_ENVIRON_DB_QUEUE_URL_KEY) as [url|]; [|discriminate].
  destruct (environ_or environ int _ _) as [|days]; [discriminate|].
  intros [= <-]. cbv zeta. split.
  - intros out Hout. apply inner_task_out_job_id in Hout. exact Hout.
  - apply calls_inner_task; try (intros; exact I).
    intros table new_data s' _ Hjob.
    eapply Forall_impl; [|apply post_entry_to_queue_calls].
    intros e [->|[->|[->| ->]]]; auto. exists new_data. auto.
Qed.

(** A run with the queue and the tier [Bulk] as the only variables: the
    one restore request is made with [Bulk]. *)
Lemma task_restore_requests_follow_the_environment_witness :
  exists run,
    task scenario.probes scenario.always_restored scenario.queue_up
      scenario.clock no_number no_number "4f2a" queue_and_bulk
      (mkTaskEvent (Some "glacier")
         [mkGranule (Some "G1") (Some [mkKeyEntry "a.nc" "dest"]) None] None)
    = inr run /\
    In (RestoreObject 1 "glacier" "a.nc" 5 "Bulk")
      (calls (run scenario.start)) /\
    Forall
      (fun e =>
         match e with
         | RestoreObject k Bucket _ Days Tier => Tier = "Bulk"
         | _ => True
         end)
      (calls (run scenario.start)).
Proof.
  eexists. split; [reflexivity|]. split; [vm_compute; tauto|].
  eapply Forall_impl;
    [|exact (task_restore_requests_follow_the_environment scenario.probes
               scenario.always_restored scenario.queue_up scenario.clock
               no_number no_number "4f2a" queue_and_bulk
               (mkTaskEvent (Some "glacier")
                  [mkGranule (Some "G1") (Some [mkKeyEntry "a.nc" "dest"])
                     None]
                  None)
               _ scenario.start eq_refl)].
  intros [| | | | |]; auto.
  intros (Hsame & _). apply Hsame; [reflexivity|auto].
Defined.

Lemma task_keeps_the_job_id_witness :
  exists run,
    task scenario.probes scenario.always_restored scenario.queue_up
      scenario.clock no_number no_number "4f2a" queue_only
      (mkTaskEvent (Some "glacier")
         [mkGranule (Some "G1") (Some [mkKeyEntry "a.nc" "dest"]) None] None)
    = inr run /\
    outcome (run scenario.start)
    = Returned
        (mkOutput
           [mkGranule (Some "G1") (Some [mkKeyEntry "a.nc" "dest"])
              (Some [mkFile "a.nc" "dest" true (Some "")])]
           "4f2a") /\
    forall out,
      outcome (run scenario.start) = Returned out -> out_job_id out = "4f2a".
Proof.
  eexists. split; [reflexivity|]. split; [reflexivity|].
  exact (proj1
           (task_keeps_the_job_id scenario.probes scenario.always_restored
              scenario.queue_up scenario.clock no_number no_number "4f2a"
              queue_only
              (mkTaskEvent (Some "glacier")
                 [mkGranule (Some "G1") (Some [mkKeyEntry "a.nc" "dest"])
                    None]
                 None)
              _ scenario.start eq_refl)).
Defined.

(** ** shared_recovery.py: update_status_for_file

    The status update of the shared library, up to the message it hands to
    [post_entry_to_queue].  [utcnow] is the clock, read a first time for
    ['last_update'] and a second time for ['completion_time']. *)

Module shared_recovery_status.

Import shared_recovery.

(** What the function raises: the [AttributeError] of an attribute that
    the enumeration does not have, the [TypeError] of [len(None)], and the
    [Exception] it raises itself, with its message. *)
Inductive Error : Type :=
| AttributeError (attribute : string)
| TypeError (message : string)
| PlainException (message : string).

(** [RequestMethod.<attribute>]: the members of the enumeration are
    [NEW_JOB] and [UPDATE_FILE]. *)
Definition RequestMethod_getattr (attribute : string)
    : Error + RequestMethod :=
  if String.eqb attribute "NEW_JOB" then inr NEW_JOB
  else if String.eqb attribute "UPDATE_FILE" then inr UPDATE_FILE
  else inl (AttributeError attribute).

(** [len(x)] on an [Optional[str]]. *)
Definition len (x : option string) : Error + nat :=
  match x with
  | Some text => inr (String.length text)
  | None => inl (TypeError "object of type 'NoneType' has no len()")
  end.

Definition is_None {A} (x : option A) : bool :=
  match x with
  | Some _ => false
  | None => true
  end.

Definition update_status_for_file (utcnow : nat -> string) (clock : nat)
    (job_id granule_id filename : string) (status_id : OrcaStatus)
    (error_message : option string) (db_queue_url : string)
    : Error + Message :=
  let last_update := utcnow clock in
  let new_data :=
    [("job_id", json.JStr job_id); ("granule_id", json.JStr granule_id);
     ("filename", json.JStr filename);
     ("last_update", json.JStr last_update);
     ("status_id", json.JInt (OrcaStatus_value status_id))] in
  let with_completion :=
    (new_data ++ [("completion_time", json.JStr (utcnow (S clock)))])%list in
  let filled : Error + json.dict :=
    match status_id with
    | SUCCESS => inr with_completion
    | FAILED =>
        (* [if len(error_message) == 0 or error_message is None: raise] *)
        match len error_message with
        | inl e => inl e
        | inr n =>
            if ((n =? 0)%nat || is_None error_message)%bool then
              inl (PlainException "error message is required.")
            else
              match error_message with
              | Some text =>
                  inr
                    (with_completion
                     ++ [("error_message", json.JStr text)])%list
              | None =>
                  inl (TypeError "object of type 'NoneType' has no len()")
              end
        end
    | _ => inr new_data
    end in
  match filled with
  | inl e => inl e
  | inr new_data =>
      match RequestMethod_getattr "UPDATE" with
      | inl e => inl e
      | inr request_method =>
          inr
            (post_entry_to_queue "orca_recoverfile" new_data request_method
               db_queue_url)
      end
  end.

End shared_recovery_status.

(** X20.  [update_status_for_file] never posts.  It asks the enumeration
    [RequestMethod] for [UPDATE], which is not one of its members
    ([NEW_JOB] and [UPDATE_FILE]), so every call that gets as far as the
    post ends in [AttributeError].  The calls that do not get that far are
    those for FAILED without a usable message: an empty message raises the
    exception "error message is required.", and an absent one the
    [TypeError] of [len(None)], which comes before the test [is None]
    that was written for it. *)
Theorem update_status_for_file_never_posts
    (utcnow : nat -> string) (clock : nat)
    (job_id granule_id filename : string)
    (status_id : shared_recovery.OrcaStatus) (error_message : option string)
    (db_queue_url : string) :
  let r :=
    shared_recovery_status.update_status_for_file utcnow clock job_id
      granule_id filename status_id error_message db_queue_url in
  (forall m, r <> inr m) /\
  (r = inl (shared_recovery_status.PlainException
              "error message is required.") <->
   status_id = shared_recovery.FAILED /\ error_message = Some "") /\
  ((exists message, r = inl (shared_recovery_status.TypeError message)) <->
   status_id = shared_recovery.FAILED /\ error_message = None) /\
  (r = inl (shared_recovery_status.AttributeError "UPDATE") <->
   ~ (status_id = shared_recovery.FAILED /\
      (error_message = None \/ error_message = Some ""))).
Proof.
  intros r. unfold r, shared_recovery_status.update_status_for_file.
  destruct status_id, error_message as [[|c text]|]; cbn;
    repeat split; intros;
    repeat match goal with
           | H : exists _, _ |- _ => destruct H
           | H : _ /\ _ |- _ => destruct H
           | H : _ \/ _ |- _ => destruct H
           end;
    try discriminate; try congruence; eauto;
    try (intros (_ & [H'|H']); discriminate);
    try (intros (H' & _); discriminate);
    try match goal with
        | H : ~ _ |- _ => exfalso; apply H; auto
        end.
Qed.

(** ** shared_db.py

    The configuration read from the environment and from Secrets Manager,
    and the two connections built from it.  A connection is modelled by
    the URL it is created from. *)

Module shared_db.

(** The dictionary [json.loads] reads from the secret. *)
Definition Config : Type := string -> option string.

Inductive Error : Type :=
| PlainException (message : string)
| KeyError (k : string)
| ValueError (text : string).

(** A reading of a secret: the region of the client and the id asked
    for. *)
Record SecretRequest : Type := mkSecretRequest {
  region_name : string;
  SecretId : string
}.

(** The URL that [URL.create] builds from its keyword arguments: the port
    is kept as the integer that [int(port)] gives. *)
Record URL : Type := mkURL {
  drivername : string;
  host : string;
  port : Z;
  database : string;
  username : string;
  password : string
}.

(** [create_engine(connection_url, future=True)]: the engine is built from
    the URL and connects to nothing before it is used. *)
Definition Engine : Type := URL.

Definition is_unset (x : option string) : bool :=
  match x with
  | None => true
  | Some text => (String.length text =? 0)%nat
  end.

Section Configuration.

(** [os.getenv(k, None)] *)
Variable getenv : string -> option string.

(** What the [try] block of [get_configuration] reads for a request: the
    dictionary, or [None] when anything in the block raises. *)
Variable read_secret : SecretRequest -> option Config.

(** The result, and the secrets the function set out to read. *)
Definition get_configuration : (Error + Config) * list SecretRequest :=
  match getenv "PREFIX" with
  | Some prefix =>
      if is_unset (Some prefix) then
        (inl (PlainException "Environment variable PREFIX is not set."), [])
      else
        match getenv "AWS_REGION" with
        | Some aws_region =>
            if is_unset (Some aws_region) then
              (inl
                 (PlainException
                    "Runtime environment variable AWS_REGION is not set."),
               [])
            else
              let request :=
                mkSecretRequest aws_region
                  (prefix ++ "-orca-db-login-secret") in
              (match read_secret request with
               | Some config => inr config
               | None =>
                   inl
                     (PlainException
                        "Failed to retrieve secret manager value.")
               end,
               [request])
        | None =>
            (inl
               (PlainException
                  "Runtime environment variable AWS_REGION is not set."),
             [])
        end
  | None =>
      (inl (PlainException "Environment variable PREFIX is not set."), [])
  end.

End Configuration.

(** [config[k]] *)
Definition item (config : Config) (k : string) : Error + string :=
  match config k with
  | Some v => inr v
  | None => inl (KeyError k)
  end.

Section Connections.

(** [int(text)] on a string, [None] when it raises [ValueError]. *)
Variable int : string -> option Z.

(** [URL.create] converts the port with [int], which raises [ValueError]
    on a text that is not a number. *)
Definition _create_connection (host port database username password : string)
    : Error + Engine :=
  match int port with
  | Some n => inr (mkURL "postgresql" host n database username password)
  | None => inl (ValueError port)
  end.

(** The keyword arguments are evaluated from left to right, after the
    database was chosen. *)
Definition connection (config : Config) (database : Error + string)
    (username_key password_key : string) : Error + Engine :=
  match database with
  | inl e => inl e
  | inr database =>
  match item config "host" with
  | inl e => inl e
  | inr host =>
  match item config "port" with
  | inl e => inl e
  | inr port =>
  match item config username_key with
  | inl e => inl e
  | inr username =>
  match item config password_key with
  | inl e => inl e
  | inr password => _create_connection host port database username password
  end
  end
  end
  end
  end.

Definition get_admin_connection (config : Config) (database : option string)
    : Error + Engine :=
  let admin_database :=
    if is_unset database then item config "admin_database"
    else
      match database with
      | Some database => inr database
      | None => item config "admin_database"
      end in
  connection config admin_database "admin_username" "admin_password".

(** Here the database is the third keyword argument: it is looked up after
    the host and the port. *)
Definition get_user_connection (config : Config) : Error + Engine :=
  match item config "host" with
  | inl e => inl e
  | inr host =>
  match item config "port" with
  | inl e => inl e
  | inr port =>
  match item config "user_database" with
  | inl e => inl e
  | inr database =>
  match item config "user_username" with
  | inl e => inl e
  | inr username =>
  match item config "user_password" with
  | inl e => inl e
  | inr password => _create_connection host port database username password
  end
  end
  end
  end
  end.

End Connections.

End shared_db.

Lemma is_unset_false x :
  shared_db.is_unset x = false <-> exists text, x = Some text /\ text <> "".
Proof.
  destruct x as [[|c text]|]; cbn; split; try discriminate; eauto.
  - intros (text & [= <-] & H). congruence.
  - intros _. eexists. split; [reflexivity|discriminate].
  - intros (text & H & _). discriminate.
Qed.

(** X21.  [get_configuration] returns a configuration exactly when
    [PREFIX] and [AWS_REGION] are both set to a text that is not empty and
    the secret [<PREFIX>-orca-db-login-secret] is read in that region; the
    configuration is then what was read.  It sets out to read that one
    secret and no other, and none at all when one of the two variables is
    missing or empty.  A missing [PREFIX] is reported first, whatever
    [AWS_REGION] holds, and every failure of the reading comes out as the
    same exception. *)
Theorem get_configuration_reads_one_secret
    (getenv : string -> option string)
    (read_secret : shared_db.SecretRequest -> option shared_db.Config) :
  let r := shared_db.get_configuration getenv read_secret in
  let set (k : string) (text : string) :=
    getenv k = Some text /\ text <> "" in
  (forall config,
     fst r = inr config <->
     exists prefix aws_region,
       set "PREFIX" prefix /\ set "AWS_REGION" aws_region /\
       read_secret
         (shared_db.mkSecretRequest aws_region
            (prefix ++ "-orca-db-login-secret"))
       = Some config) /\
  (forall request,
     In request (snd r) ->
     snd r = [request] /\
     exists prefix aws_region,
       set "PREFIX" prefix /\ set "AWS_REGION" aws_region /\
       request
       = shared_db.mkSecretRequest aws_region
           (prefix ++ "-orca-db-login-secret")) /\
  ((forall prefix, ~ set "PREFIX" prefix) ->
   r = (inl
          (shared_db.PlainException
             "Environment variable PREFIX is not set."),
        [])) /\
  (forall prefix,
     set "PREFIX" prefix ->
     (forall aws_region, ~ set "AWS_REGION" aws_region) ->
     r = (inl
            (shared_db.PlainException
               "Runtime environment variable AWS_REGION is not set."),
          [])) /\
  (forall prefix aws_region,
     set "PREFIX" prefix ->
     set "AWS_REGION" aws_region ->
     read_secret
       (shared_db.mkSecretRequest aws_region
          (prefix ++ "-orca-db-login-secret"))
     = None ->
     fst r
     = inl
         (shared_db.PlainException
            "Failed to retrieve secret manager value.")).
Proof.
  intros r set. unfold r, set, shared_db.get_configuration. clear r set.
  cbv beta.
  destruct (getenv "PREFIX") as [prefix|] eqn:Hp.
  2: { split; [|split; [|split; [|split]]]; cbn [fst snd].
       - intros config. split; [discriminate|].
         intros (p & a & (H1 & _) & _). discriminate.
       - intros request [].
       - reflexivity.
       - intros p (H1 & _). discriminate.
       - intros p a (H1 & _). discriminate. }
  destruct (shared_db.is_unset (Some prefix)) eqn:Hpe.
  { assert (Hempty : prefix = "").
    { destruct prefix; [reflexivity|discriminate]. }
    subst prefix.
    split; [|split; [|split; [|split]]]; cbn [fst snd].
    - intros config. split; [discriminate|].
      intros (p & a & (H1 & H1') & _). congruence.
    - intros request [].
    - reflexivity.
    - intros p (H1 & H1'). congruence.
    - intros p a (H1 & H1'). congruence. }
  apply is_unset_false in Hpe. destruct Hpe as (p & [= <-] & Hpne).
  destruct (getenv "AWS_REGION") as [aws_region|] eqn:Ha.
  2: { split; [|split; [|split; [|split]]]; cbn [fst snd].
       - intros config. split; [discriminate|].
         intros (p & a & _ & (H2 & _) & _). discriminate.
       - intros request [].
       - intros H. now destruct (H prefix).
       - reflexivity.
       - intros p a _ (H2 & _). discriminate. }
  destruct (shared_db.is_unset (Some aws_region)) eqn:Hae.
  { assert (Hempty : aws_region = "").
    { destruct aws_region; [reflexivity|discriminate]. }
    subst aws_region.
    split; [|split; [|split; [|split]]]; cbn [fst snd].
    - intros config. split; [discriminate|].
      intros (p & a & _ & (H2 & H2') & _). congruence.
    - intros request [].
    - intros H. now destruct (H prefix).
    - reflexivity.
    - intros p a _ (H2 & H2'). congruence. }
  apply is_unset_false in Hae. destruct Hae as (a & [= <-] & Hane).
  cbv zeta. cbn [fst snd].
  assert (Hsame : forall p a,
            Some prefix = Some p /\ p <> "" ->
            Some aws_region = Some a /\ a <> "" ->
            p = prefix /\ a = aws_region).
  { intros p a (H1 & _) (H2 & _). split; congruence. }
  split; [|split; [|split; [|split]]].
  - intros config. split.
    + destruct (read_secret _) eqn:Hs; [|discriminate].
      intros [= <-]. exists prefix, aws_region. auto.
    + intros (p & a & H1 & H2 & Hs).
      destruct (Hsame p a H1 H2) as (-> & ->). now rewrite Hs.
  - intros request [<-|[]]. split; [reflexivity|].
    exists prefix, aws_region. auto.
  - intros H. now destruct (H prefix).
  - intros p _ H. now destruct (H aws_region).
  - intros p a H1 H2 Hs. destruct (Hsame p a H1 H2) as (-> & ->).
    now rewrite Hs.
Qed.

(** X22.  [get_user_connection] builds its connection from five entries
    of the configuration and from nothing else: the host, the port and the
    database, name and password of the application user.  It returns
    exactly when the five are there and the port is the text of a number,
    and the connection then holds these entries.  It raises the [KeyError]
    of the first entry that is missing, in that order; when the five are
    there and the port is no number it raises the [ValueError] of
    [int(port)].  The entries of the administrator have no part in it. *)
Theorem get_user_connection_uses_the_user_entries
    (int : string -> option Z) (config : shared_db.Config) :
  let user_entries :=
    ["host"; "port"; "user_database"; "user_username"; "user_password"] in
  (forall url,
     shared_db.get_user_connection int config = inr url <->
     shared_db.drivername url = "postgresql" /\
     config "host" = Some (shared_db.host url) /\
     (exists text,
        config "port" = Some text /\ int text = Some (shared_db.port url)) /\
     config "user_database" = Some (shared_db.database url) /\
     config "user_username" = Some (shared_db.username url) /\
     config "user_password" = Some (shared_db.password url)) /\
  (forall e,
     shared_db.get_user_connection int config = inl e ->
     (exists before k after,
        user_entries = before ++ k :: after /\
        e = shared_db.KeyError k /\
        config k = None /\
        forall k', In k' before -> config k' <> None) \/
     (exists text,
        e = shared_db.ValueError text /\
        config "port" = Some text /\
        int text = None /\
        forall k, In k user_entries -> config k <> None)) /\
  (forall config',
     (forall k, In k user_entries -> config' k = config k) ->
     shared_db.get_user_connection int config'
     = shared_db.get_user_connection int config).
Proof.
  intros user_entries. unfold user_entries. clear user_entries.
  split; [|split].
  - intros [driver h p d u w].
    unfold shared_db.get_user_connection, shared_db.item,
      shared_db._create_connection.
    cbn [shared_db.drivername shared_db.host shared_db.port
         shared_db.database shared_db.username shared_db.password].
    destruct (config "host"), (config "port") as [text|],
      (config "user_database"), (config "user_username"),
      (config "user_password");
      try (split; intros H; [discriminate|];
           destruct H as (? & ? & (? & ? & ?) & ? & ? & ?); discriminate).
    destruct (int text) as [n|] eqn:Hn; split; intros H.
    + injection H as <- <- <- <- <- <-. repeat split; auto. eauto.
    + destruct H as (-> & [= ->] & (t & [= <-] & Ht) & [= ->] & [= ->]
                     & [= ->]).
      rewrite Hn in Ht. injection Ht as ->. reflexivity.
    + discriminate.
    + destruct H as (_ & _ & (t & [= <-] & Ht) & _). congruence.
  - intros e.
    unfold shared_db.get_user_connection, shared_db.item,
      shared_db._create_connection.
    destruct (config "host") eqn:E1.
    2: { intros [= <-]. left. exists [], "host",
           ["port"; "user_database"; "user_username"; "user_password"].
         repeat split; auto. }
    destruct (config "port") as [text|] eqn:E2.
    2: { intros [= <-]. left. exists ["host"], "port",
           ["user_database"; "user_username"; "user_password"].
         repeat split; auto. intros k' [<-|[]]. congruence. }
    destruct (config "user_database") eqn:E3.
    2: { intros [= <-]. left. exists ["host"; "port"], "user_database",
           ["user_username"; "user_password"].
         repeat split; auto. intros k' [<-|[<-|[]]]; congruence. }
    destruct (config "user_username") eqn:E4.
    2: { intros [= <-]. left.
         exists ["host"; "port"; "user_database"], "user_username",
           ["user_password"].
         repeat split; auto. intros k' [<-|[<-|[<-|[]]]]; congruence. }
    destruct (config "user_password") eqn:E5.
    2: { intros [= <-]. left.
         exists ["host"; "port"; "user_database"; "user_username"],
           "user_password", [].
         repeat split; auto.
         intros k' [<-|[<-|[<-|[<-|[]]]]]; congruence. }
    destruct (int text) eqn:Hn; [discriminate|].
    intros [= <-]. right. exists text. repeat split; auto.
    intros k [<-|[<-|[<-|[<-|[<-|[]]]]]]; congruence.
  - intros config' H.
    unfold shared_db.get_user_connection, shared_db.item.
    rewrite !H by (cbn; auto 10). reflexivity.
Qed.

(** X23.  The database of the administrator's connection is the one the
    caller names, and the ['admin_database'] of the configuration when
    the caller names none or names the empty string; a named database
    makes ['admin_database'] unnecessary.  The connection is built from
    the host, the port and the name and password of the administrator:
    [get_admin_connection] returns exactly when these entries, and the
    database, are there and the port is the text of a number.  An entry
    that is missing raises its [KeyError], the ['admin_database'] first,
    and a port that is no number raises the [ValueError] of [int(port)]
    once every entry is there.  The entries of the application user have
    no part in it. *)
Theorem get_admin_connection_database
    (int : string -> option Z) (config : shared_db.Config)
    (database : option string) :
  let named :=
    match database with
    | Some text => negb (String.eqb text "")
    | None => false
    end in
  (forall url,
     shared_db.get_admin_connection int config database = inr url <->
     shared_db.drivername url = "postgresql" /\
     config "host" = Some (shared_db.host url) /\
     (exists text,
        config "port" = Some text /\ int text = Some (shared_db.port url)) /\
     config "admin_username" = Some (shared_db.username url) /\
     config "admin_password" = Some (shared_db.password url) /\
     (if named then database = Some (shared_db.database url)
      else config "admin_database" = Some (shared_db.database url))) /\
  shared_db.get_admin_connection int config (Some "")
  = shared_db.get_admin_connection int config None /\
  (named = false -> config "admin_database" = None ->
   shared_db.get_admin_connection int config database
   = inl (shared_db.KeyError "admin_database")) /\
  (forall text,
     shared_db.get_admin_connection int config database
     = inl (shared_db.ValueError text) ->
     config "port" = Some text /\ int text = None /\
     config "host" <> None /\ config "admin_username" <> None /\
     config "admin_password" <> None /\
     (named = false -> config "admin_database" <> None)) /\
  (forall config',
     (forall k,
        In k ["host"; "port"; "admin_username"; "admin_password";
              "admin_database"] ->
        config' k = config k) ->
     shared_db.get_admin_connection int config' database
     = shared_db.get_admin_connection int config database).
Proof.
  intros named.
  assert (Hdb :
    (if shared_db.is_unset database then
       shared_db.item config "admin_database"
     else
       match database with
       | Some text => inr text
       | None => shared_db.item config "admin_database"
       end)
    = if named then
        match database with
        | Some text => inr text
        | None => inl (shared_db.KeyError "admin_database")
        end
      else shared_db.item config "admin_database").
  { unfold named. destruct database as [[|c text]|]; reflexivity. }
  split; [|split; [|split; [|split]]].
  - intros [driver h p d u w].
    unfold shared_db.get_admin_connection. cbv zeta. rewrite Hdb.
    unfold shared_db.connection, shared_db.item,
      shared_db._create_connection.
    cbn [shared_db.drivername shared_db.host shared_db.port
         shared_db.database shared_db.username shared_db.password].
    destruct named eqn:Hnamed.
    + destruct database as [text0|]; [|discriminate].
      destruct (config "host"), (config "port") as [text|],
        (config "admin_username"), (config "admin_password");
        try (split; intros H; [discriminate|];
             destruct H as (? & ? & (? & ? & ?) & ? & ? & ?); discriminate).
      destruct (int text) as [n|] eqn:Hn; split; intros H.
      * injection H as <- <- <- <- <- <-. repeat split; auto. eauto.
      * destruct H as (-> & [= ->] & (t & [= <-] & Ht) & [= ->] & [= ->]
                       & [= ->]).
        rewrite Hn in Ht. injection Ht as ->. reflexivity.
      * discriminate.
      * destruct H as (_ & _ & (t & [= <-] & Ht) & _). congruence.
    + destruct (config "admin_database"), (config "host"),
        (config "port") as [text|], (config "admin_username"),
        (config "admin_password");
        try (split; intros H; [discriminate|];
             destruct H as (? & ? & (? & ? & ?) & ? & ? & ?); discriminate).
      destruct (int text) as [n|] eqn:Hn; split; intros H.
      * injection H as <- <- <- <- <- <-. repeat split; auto. eauto.
      * destruct H as (-> & [= ->] & (t & [= <-] & Ht) & [= ->] & [= ->]
                       & [= ->]).
        rewrite Hn in Ht. injection Ht as ->. reflexivity.
      * discriminate.
      * destruct H as (_ & _ & (t & [= <-] & Ht) & _). congruence.
  - reflexivity.
  - intros Hnamed Hnone.
    unfold shared_db.get_admin_connection. cbv zeta. rewrite Hdb, Hnamed.
    unfold shared_db.connection, shared_db.item. now rewrite Hnone.
  - intros text.
    unfold shared_db.get_admin_connection. cbv zeta. rewrite Hdb.
    unfold shared_db.connection, shared_db.item,
      shared_db._create_connection.
    destruct named.
    + destruct database as [text0|]; [|discriminate].
      destruct (config "host"), (config "port") as [t|],
        (config "admin_username"), (config "admin_password");
        try discriminate.
      destruct (int t) eqn:Hn; [discriminate|].
      intros [= <-]. repeat split; auto; discriminate.
    + destruct (config "admin_database"), (config "host"),
        (config "port") as [t|], (config "admin_username"),
        (config "admin_password"); try discriminate.
      destruct (int t) eqn:Hn; [discriminate|].
      intros [= <-]. repeat split; auto; discriminate.
  - intros config' H.
    unfold shared_db.get_admin_connection, shared_db.connection,
      shared_db.item.
    rewrite !H by (cbn; auto 10). reflexivity.
Qed.

(** ** The file name of a file event *)

Fixpoint has_slash (s : string) : bool :=
  match s with
  | EmptyString => false
  | String c rest => (Ascii.eqb c "/" || has_slash rest)%bool
  end.

Lemma has_slash_app a b :
  has_slash (a ++ b)%string = (has_slash a || has_slash b)%bool.
Proof.
  induction a as [|c a IH]; cbn; [reflexivity|].
  now rewrite IH, orb_assoc.
Qed.

Lemma append_empty_r s : (s ++ EmptyString)%string = s.
Proof. induction s as [|c s IH]; cbn; congruence. Qed.

(** [basename_from acc p] is the part of [acc ++ p] after its last
    slash, when [acc] has none. *)
Lemma basename_from_spec p :
  forall acc,
    has_slash acc = false ->
    exists dir,
      (acc ++ p)%string = (dir ++ py.basename_from acc p)%string /\
      (dir = EmptyString \/ exists d, dir = (d ++ "/")%string) /\
      has_slash (py.basename_from acc p) = false.
Proof.
  induction p as [|c p IH]; intros acc Hacc; cbn [py.basename_from].
  { exists EmptyString. rewrite append_empty_r. auto. }
  destruct (Ascii.eqb_spec c "/"%char) as [->|Hc].
  - destruct (IH EmptyString eq_refl) as (dir & Heq & Hdir & Hno).
    cbn [append] in Heq.
    exists (acc ++ String "/" dir)%string. split; [|split].
    + rewrite json_facts.append_assoc. cbn [append]. now rewrite <- Heq.
    + right. destruct Hdir as [->|(d & ->)].
      * exists acc. reflexivity.
      * exists (acc ++ String "/" d)%string.
        rewrite json_facts.append_assoc. reflexivity.
    + exact Hno.
  - destruct (IH (acc ++ String c EmptyString)%string) as (dir & Heq & H).
    { rewrite has_slash_app, Hacc. cbn [has_slash orb].
      destruct (Ascii.eqb_spec c "/"%char); [contradiction|reflexivity]. }
    exists dir. split; [|exact H].
    rewrite <- Heq, json_facts.append_assoc. reflexivity.
Qed.

(** The ['filename'] of a payload is the part of its ['key_path'] after the
    last slash, the whole of it when it has none. *)
Definition names_the_last_component (new_data : json.dict) : Prop :=
  exists x dir name,
    json.get "key_path" new_data = Some (json.JStr x) /\
    json.get "filename" new_data = Some (json.JStr name) /\
    name = py.basename x /\
    x = (dir ++ name)%string /\
    has_slash name = false /\
    (dir = EmptyString \/ exists d, dir = (d ++ "/")%string).

Lemma file_event_names_the_last_component job_id request_time granule_id f
    status error last_update :
  names_the_last_component
    (file_event job_id request_time granule_id f status error last_update).
Proof.
  destruct (basename_from_spec (key f) EmptyString eq_refl)
    as (dir & Heq & Hdir & Hno).
  cbn [append] in Heq. fold (py.basename (key f)) in Heq, Hno.
  exists (key f), dir, (py.basename (key f)).
  split; [destruct error; reflexivity|].
  split; [destruct error; reflexivity|]. auto.
Qed.

(** A name without a slash is the base name of every key that ends with
    it after a slash. *)
Lemma basename_of_a_name dir name :
  has_slash name = false -> py.basename (dir ++ "/" ++ name) = name.
Proof.
  intros Hno.
  assert (Hfrom : forall p acc,
            has_slash p = false ->
            py.basename_from acc p = (acc ++ p)%string).
  { induction p as [|c p IH]; intros acc Hp; cbn [py.basename_from].
    - now rewrite append_empty_r.
    - cbn in Hp. apply orb_false_iff in Hp. destruct Hp as (Hc & Hp).
      rewrite Hc, IH by exact Hp.
      rewrite json_facts.append_assoc. reflexivity. }
  assert (Hskip : forall d acc,
            py.basename_from acc (d ++ "/" ++ name) = name).
  { induction d as [|c d IH]; intros acc; cbn [append py.basename_from].
    - cbn. now rewrite Hfrom.
    - destruct (Ascii.eqb c "/"); apply IH. }
  apply Hskip.
Qed.

Lemma posted_Forall (P : json.dict -> Prop) table tr :
  Forall
    (fun e =>
       match e with
       | PostEntry table_name new_data _ => table_name = table -> P new_data
       | _ => True
       end)
    tr ->
  Forall P (posted table tr).
Proof.
  induction 1 as [|e tr He _ IH]; [constructor|].
  destruct e as [| |t d m| | |]; cbn [posted flat_map app] in *; auto.
  destruct (String.eqb_spec t table) as [Ht|Ht]; cbn [app]; auto.
Qed.

(** X24.  In every run of [process_granule], the ['filename'] of each file
    event handed to the publisher is the part of the key after its last
    slash, the whole key when it has none, and the ['key_path'] of the
    event is the key itself.  So the events tell apart two files of one
    granule by their ['key_path'], not by their ['filename']: two keys
    that end with the same name in two directories get the same
    ['filename']. *)
Theorem file_events_name_the_last_component
    (s3_restore_object : Z -> string -> string -> option ClientError)
    (sqs_send_message : nat -> option string) (utcnow : nat -> string)
    (id : string) (ks : option (list KeyEntry)) (rf : option (list File))
    (glacier_bucket : string) (restore_expire_days max_retries : Z)
    (retry_sleep_secs : seconds) (retrieval_type job_id db_queue_url : string)
    (s : State) :
  let r :=
    process_granule s3_restore_object sqs_send_message utcnow
      (mkGranule (Some id) ks rf) glacier_bucket restore_expire_days
      max_retries retry_sleep_secs retrieval_type job_id db_queue_url s in
  Forall
    (fun new_data =>
       exists x dir name,
         json.get "key_path" new_data = Some (json.JStr x) /\
         json.get "filename" new_data = Some (json.JStr name) /\
         name = py.basename x /\
         x = (dir ++ name)%string /\
         has_slash name = false /\
         (dir = EmptyString \/ exists d, dir = (d ++ "/")%string) /\
         forall dir', py.basename (dir' ++ "/" ++ name) = name)
    (posted "orca_recoverfile" (calls r)).
Proof.
  intros r.
  apply Forall_impl with (P := names_the_last_component).
  { intros new_data (x & dir & name & H1 & H2 & H3 & H4 & H5 & H6).
    exists x, dir, name. repeat split; auto.
    intros dir'. now apply basename_of_a_name. }
  apply posted_Forall. apply calls_process_granule.
  - intros; exact I.
  - intros; exact I.
  - intros s'. eapply Forall_impl; [|apply post_entry_to_queue_calls].
    intros e [->|[->|[->| ->]]]; try exact I. discriminate.
  - intros f status error last_update s' _.
    eapply Forall_impl; [|apply post_entry_to_queue_calls].
    intros e [->|[->|[->| ->]]]; try exact I.
    intros _. apply file_event_names_the_last_component.
Qed.

(** Two files of one granule, [2020/a.nc] and [2021/a.nc], that S3
    restores: their events carry the same ['filename']. *)
Lemma file_events_name_the_last_component_witness :
  let r :=
    process_granule scenario.always_restored scenario.queue_up scenario.clock
      (mkGranule (Some "G1") None
         (Some
            [mkFile "2020/a.nc" "dest" false (Some "");
             mkFile "2021/a.nc" "dest" false (Some "")]))
      "glacier" 5 2 0 "Standard" "job" "url" scenario.start in
  map (json.get "filename") (posted "orca_recoverfile" (calls r))
  = [Some (json.JStr "a.nc"); Some (json.JStr "a.nc")] /\
  map (json.get "key_path") (posted "orca_recoverfile" (calls r))
  = [Some (json.JStr "2020/a.nc"); Some (json.JStr "2021/a.nc")] /\
  Forall
    (fun new_data =>
       exists x,
         json.get "key_path" new_data = Some (json.JStr x) /\
         json.get "filename" new_data = Some (json.JStr (py.basename x)))
    (posted "orca_recoverfile" (calls r)).
Proof.
  cbv zeta. split; [reflexivity|]. split; [reflexivity|].
  eapply Forall_impl;
    [|exact (file_events_name_the_last_component scenario.always_restored
               scenario.queue_up scenario.clock "G1" None
               (Some
                  [mkFile "2020/a.nc" "dest" false (Some "");
                   mkFile "2021/a.nc" "dest" false (Some "")])
               "glacier" 5 2 0 "Standard" "job" "url" scenario.start)].
  intros new_data (x & dir & name & H1 & H2 & -> & _). now exists x.
Defined.

(** ** get_current_archive_list.py

    [task] builds the connection of the application user and then calls,
    for each record, a function that the module does not define.
    [handler] reads the configuration and hands the records to [task]. *)

Module get_current_archive_list.

Inductive Error : Type :=
| DatabaseError (e : shared_db.Error)
| NameError (name : string)
| EventKeyError (k : string).

(** The functions the module defines. *)
Definition module_functions : list string :=
  ["task"; "create_job"; "create_job_sql";
   "update_job_with_s3_inventory_in_postgres"; "update_job_sql";
   "trigger_csv_load_from_s3"; "handler"].

(** The evaluation of a name in call position: [NameError] when the module
    does not define it. *)
Definition global_function (name : string) : Error + string :=
  if existsb (String.eqb name) module_functions then inr name
  else inl (NameError name).

Section Records.

Variable Record : Type.

(** [int(text)], which [URL.create] applies to the port. *)
Variable int : string -> option Z.

(** [for record in records: create_job_with_s3_inventory_in_postgres(...)]:
    the name is evaluated before the arguments. *)
Fixpoint each_record (engine : shared_db.Engine) (records : list Record)
    : Error + unit :=
  match records with
  | [] => inr tt
  | record :: rest =>
      match global_function "create_job_with_s3_inventory_in_postgres" with
      | inl e => inl e
      | inr _ => each_record engine rest
      end
  end.

Definition task (records : list Record) (db_connect_info : shared_db.Config)
    : Error + unit :=
  match shared_db.get_user_connection int db_connect_info with
  | inl e => inl (DatabaseError e)
  | inr engine => each_record engine records
  end.

(** [Records] is [event["Records"]], [None] when the event has no such
    key; the second component is the secrets the configuration set out to
    read. *)
Definition handler (getenv : string -> option string)
    (read_secret : shared_db.SecretRequest -> option shared_db.Config)
    (Records : option (list Record))
    : (Error + unit) * list shared_db.SecretRequest :=
  let configuration := shared_db.get_configuration getenv read_secret in
  (match fst configuration with
   | inl e => inl (DatabaseError e)
   | inr db_connect_info =>
       match Records with
       | Some records => task records db_connect_info
       | None => inl (EventKeyError "Records")
       end
   end,
   snd configuration).

End Records.

End get_current_archive_list.

(** X25.  [task] of [get_current_archive_list] can process no record.
    It returns only on an empty list of records, and only when the
    connection of the application user can be built, which it builds
    first; on a list that is not empty it raises [NameError] at the first
    record, for the function [create_job_with_s3_inventory_in_postgres]
    that the module does not define.  [handler] returns under the same
    conditions, after the configuration was read. *)
Theorem archive_list_task_processes_no_record
    (Record : Type) (int : string -> option Z) (records : list Record)
    (db_connect_info : shared_db.Config) :
  let r :=
    get_current_archive_list.task Record int records db_connect_info in
  (r = inr tt <->
   records = [] /\
   exists engine,
     shared_db.get_user_connection int db_connect_info = inr engine) /\
  (forall e,
     shared_db.get_user_connection int db_connect_info = inl e ->
     r = inl (get_current_archive_list.DatabaseError e)) /\
  (forall engine,
     shared_db.get_user_connection int db_connect_info = inr engine ->
     records <> [] ->
     r = inl
           (get_current_archive_list.NameError
              "create_job_with_s3_inventory_in_postgres")) /\
  (forall getenv read_secret Records,
     fst
       (get_current_archive_list.handler Record int getenv read_secret
          Records)
     = inr tt ->
     Records = Some [] /\
     exists config,
       fst (shared_db.get_configuration getenv read_secret) = inr config).
Proof.
  intros r. unfold r, get_current_archive_list.task.
  split; [|split; [|split]].
  - destruct (shared_db.get_user_connection int db_connect_info)
      as [e|engine].
    + split; [discriminate|]. intros (_ & engine & H). discriminate.
    + destruct records as [|record rest]; cbn.
      * split; eauto.
      * split; [discriminate|]. intros (H & _). discriminate.
  - intros e ->. reflexivity.
  - intros engine -> Hne. destruct records; [contradiction|reflexivity].
  - intros getenv read_secret Records.
    unfold get_current_archive_list.handler. cbn [fst].
    destruct (fst (shared_db.get_configuration getenv read_secret))
      as [e|config]; [discriminate|].
    destruct Records as [records'|]; [|discriminate].
    unfold get_current_archive_list.task.
    destruct (shared_db.get_user_connection int config); [discriminate|].
    destruct records'; [eauto|discriminate].
Qed.

(** ** The request methods of the two modules *)

(** X26.  The two modules do not share the vocabulary of request methods:
    no value of the [RequestMethod] of [request_files] ([post], [put]) is
    a value of the [RequestMethod] of [shared_recovery] ([new_job],
    [update_file]).  So the [RequestMethod] attribute of every message
    that a run of [process_granule] sends is one that the shared
    enumeration does not have. *)
Theorem request_methods_do_not_meet
    (s3_restore_object : Z -> string -> string -> option ClientError)
    (sqs_send_message : nat -> option string) (utcnow : nat -> string)
    (id : string) (ks : option (list KeyEntry)) (rf : option (list File))
    (glacier_bucket : string) (restore_expire_days max_retries : Z)
    (retry_sleep_secs : seconds) (retrieval_type job_id db_queue_url : string)
    (s : State) :
  (forall m m',
     RequestMethod_value m <> shared_recovery.RequestMethod_value m') /\
  Forall
    (fun e =>
       match e with
       | SendMessage message =>
           forall m',
             shared_recovery.attr_RequestMethod message
             <> shared_recovery.RequestMethod_value m'
       | _ => True
       end)
    (calls
       (process_granule s3_restore_object sqs_send_message utcnow
          (mkGranule (Some id) ks rf) glacier_bucket restore_expire_days
          max_retries retry_sleep_secs retrieval_type job_id db_queue_url
          s)).
Proof.
  split.
  - intros [] []; discriminate.
  - apply calls_process_granule; auto.
    + intros s'. eapply Forall_impl; [|apply post_entry_to_queue_calls].
      intros e [->|[->|[->| ->]]]; auto. intros []; discriminate.
    + intros f status error last_update s' _.
      eapply Forall_impl; [|apply post_entry_to_queue_calls].
      intros e [->|[->|[->| ->]]]; auto. intros []; discriminate.
Qed.

(** ** How many calls a run makes on the queue *)

(** The number of calls of a kind. *)
Definition count (c : Effect -> bool) (tr : list Effect) : nat :=
  List.length (filter c tr).

Lemma count_app c t1 t2 : count c (t1 ++ t2) = (count c t1 + count c t2)%nat.
Proof. unfold count. now rewrite filter_app, length_app. Qed.

(** One call of the publisher makes [2 * max_retries] calls on the client
    at most, and [max_retries] sleeps at most. *)
Lemma post_entry_to_queue_counts sqs_send_message table new_data method url
    max_retries secs s :
  let r :=
    post_entry_to_queue sqs_send_message table new_data method url
      max_retries secs s in
  (count is_send (calls r) <= 2 * Z.to_nat max_retries)%nat /\
  (count is_Sleep (calls r) <= Z.to_nat max_retries)%nat.
Proof.
  pose proof (post_entry_attempts_bounded sqs_send_message table
                (json.dumps_indent4 new_data) method url max_retries secs
                (py.range 1 (max_retries + 1)) s
                (range_below 1 (max_retries + 1))) as H.
  cbv zeta in H. rewrite range_length in H.
  replace (max_retries + 1 - 1) with max_retries in H by lia.
  cbv zeta. unfold post_entry_to_queue. rewrite bind_emit. cbn beta.
  unfold count. cbn [calls filter is_send is_Sleep]. tauto.
Qed.

Section CountingCalls.

Variable s3_restore_object : Z -> string -> string -> option ClientError.
Variable sqs_send_message : nat -> option string.
Variable utcnow : nat -> string.

Variables (glacier_bucket : string) (restore_expire_days : Z)
  (max_retries : Z) (retry_sleep_secs : seconds) (retrieval_type : string)
  (job_id : string) (db_queue_url : string).
Variables (request_time : string) (granule_id : string).

(** The kind of calls that is counted, a bound [B] on those of one call
    of the publisher and a bound [L] on those of one sleep of the loop. *)
Variable c : Effect -> bool.
Variables B L : nat.

Hypothesis c_restore : forall k bucket x days tier,
  c (RestoreObject k bucket x days tier) = false.
Hypothesis c_post : forall table new_data s,
  (count c
     (calls
        (post_entry_to_queue sqs_send_message table new_data POST
           db_queue_url max_retries retry_sleep_secs s))
   <= B)%nat.
Hypothesis c_sleep : (count c [Sleep retry_sleep_secs] <= L)%nat.

Local Abbreviation restore_one_file' :=
  (restore_one_file s3_restore_object sqs_send_message utcnow glacier_bucket
     restore_expire_days max_retries retry_sleep_secs retrieval_type job_id
     db_queue_url request_time granule_id).
Local Abbreviation retry_loop' :=
  (retry_loop s3_restore_object sqs_send_message utcnow glacier_bucket
     restore_expire_days max_retries retry_sleep_secs retrieval_type job_id
     db_queue_url request_time granule_id).
Local Abbreviation report_failures' :=
  (report_failures sqs_send_message utcnow max_retries retry_sleep_secs
     job_id db_queue_url request_time granule_id).

Local Abbreviation left_of fs := (List.length (pending fs)).

(** The calls of a file event: the publisher returns, or a negative sleep
    raises. *)
Lemma file_event_count f status error last_update s :
  exists o tr s',
    post_status_for_file_to_queue sqs_send_message job_id granule_id
      (py.basename (key f)) (Some (key f)) (Some (dest_bucket f))
      (Some status) error (Some request_time) last_update None POST
      db_queue_url max_retries retry_sleep_secs s
    = mkRun o tr s' /\
    (count c tr <= B)%nat /\
    (o = Returned tt \/ o = Raised negative_sleep).
Proof.
  destruct (post_status_for_file_to_queue_ends sqs_send_message max_retries
              retry_sleep_secs job_id db_queue_url request_time granule_id
              f status error last_update s) as (o & q & s' & Hrun & _ & _ & Ho).
  eexists o, _, s'. split; [exact Hrun|].
  pose proof (c_post "orca_recoverfile"
                (file_event job_id request_time granule_id f status error
                   last_update) s) as Hc.
  unfold post_status_for_file_to_queue in Hrun.
  unfold file_event in Hc. rewrite Hrun in Hc.
  split; [exact Hc|]. destruct Ho as [->|(_ & -> & _)]; auto.
Qed.

(** One turn of the loop body: the calls that are counted are those of
    the one event of a file that is restored. *)
Lemma restore_one_file_count k f s :
  exists o tr s',
    restore_one_file' k f s = mkRun o tr s' /\
    ((exists f',
        o = Returned f' /\
        (count c tr + B * left_of [f'] <= B * left_of [f])%nat) \/
     o = Raised negative_sleep /\ (count c tr <= B * left_of [f])%nat).
Proof.
  unfold restore_one_file, pending. cbn [filter].
  destruct (success f) eqn:Hf.
  { exists (Returned f), [], s. split; [reflexivity|].
    left. exists f. rewrite Hf. cbn. split; [reflexivity|lia]. }
  cbn [negb List.length].
  unfold try_except_ClientError at 1.
  erewrite bind_run by apply restore_object_run.
  destruct (s3_restore_object k glacier_bucket (key f)) as [err|] eqn:Hk.
  { exists (Returned (set_err_msg f (error_str err))),
      [RestoreObject k glacier_bucket (key f) restore_expire_days
         retrieval_type],
      s.
    split; [reflexivity|]. left. exists (set_err_msg f (error_str err)).
    split; [reflexivity|]. unfold set_err_msg. cbn [success].
    rewrite Hf. cbn [negb List.length].
    unfold count. cbn [filter]. rewrite c_restore. cbn. lia. }
  destruct (file_event_count f ORCA_STATUS_PENDING None
              (utcnow (clock_reads s))
              (mkState (sqs_calls s) (S (clock_reads s))))
    as (o & tr & s' & H1 & Hc & Ho).
  match goal with
  | |- context [try_except_ClientError ?m ?h s] =>
      assert (Hin : try_except_ClientError m h s
                    = mkRun
                        match o with
                        | Returned _ => Returned (restored_file f)
                        | Raised e => Raised e
                        | OutOfFuel => OutOfFuel
                        end
                        tr s')
  end.
  { unfold try_except_ClientError. cbn [dest_bucket key].
    erewrite bind_run by apply now_run. cbn [app].
    erewrite bind_run by exact H1.
    destruct Ho as [->| ->]; cbn; now rewrite ?app_nil_r. }
  rewrite Hin. cbn [outcome calls final].
  exists
    match o with
    | Returned _ => Returned (restored_file f)
    | Raised e => Raised e
    | OutOfFuel => OutOfFuel
    end,
    (RestoreObject k glacier_bucket (key f) restore_expire_days
       retrieval_type :: tr),
    s'.
  split; [destruct Ho as [->| ->]; reflexivity|].
  unfold count in *. cbn [filter]. rewrite c_restore.
  destruct Ho as [->| ->]; [left|right].
  - exists (restored_file f). split; [reflexivity|].
    unfold restored_file. cbn [success negb filter List.length]. lia.
  - split; [reflexivity|lia].
Qed.

Lemma left_of_cons f fs : left_of (f :: fs) = (left_of [f] + left_of fs)%nat.
Proof.
  unfold pending. cbn [filter]. destruct (negb (success f)); reflexivity.
Qed.

Lemma for_each_count k fs s :
  exists o tr s',
    for_each (restore_one_file' k) fs s = mkRun o tr s' /\
    ((exists fs',
        o = Returned fs' /\
        (count c tr + B * left_of fs' <= B * left_of fs)%nat) \/
     o = Raised negative_sleep /\ (count c tr <= B * left_of fs)%nat).
Proof.
  revert s. induction fs as [|f fs IH]; intros s.
  { exists (Returned []), [], s. split; [reflexivity|].
    left. exists []. cbn. split; [reflexivity|lia]. }
  cbn [for_each].
  destruct (restore_one_file_count k f s) as (o1 & tr1 & s1 & H1 & Hc1).
  erewrite bind_run by exact H1.
  destruct Hc1 as [(f' & -> & Hc1)|(-> & Hc1)].
  2: { exists (Raised negative_sleep), tr1, s1. split; [reflexivity|].
       right. split; [reflexivity|]. rewrite (left_of_cons f). lia. }
  destruct (IH s1) as (o2 & tr & s2 & H2 & Hc2).
  erewrite bind_run by exact H2.
  destruct Hc2 as [(fs' & -> & Hc2)|(-> & Hc2)]; cbn [outcome calls final ret].
  - exists (Returned (f' :: fs')), (tr1 ++ tr), s2.
    split; [now rewrite app_nil_r|]. left. exists (f' :: fs').
    split; [reflexivity|].
    rewrite count_app, (left_of_cons f), (left_of_cons f'). lia.
  - exists (Raised negative_sleep), (tr1 ++ tr), s2.
    split; [reflexivity|]. right. split; [reflexivity|].
    rewrite count_app, (left_of_cons f). lia.
Qed.

Lemma retry_loop_count fuel k id ks fs s :
  (Z.to_nat (max_retries + 2 - k) <= fuel)%nat ->
  exists o tr s',
    retry_loop' fuel k (mkGranule id ks (Some fs)) s = mkRun o tr s' /\
    ((exists fs',
        o = Returned (mkGranule id ks (Some fs')) /\
        (count c tr + B * left_of fs'
         <= B * left_of fs + L * Z.to_nat (max_retries + 1 - k))%nat) \/
     o = Raised negative_sleep /\
     (count c tr <= B * left_of fs + L * Z.to_nat (max_retries + 1 - k))%nat).
Proof.
  revert k fs s. induction fuel as [|fuel IH]; intros k fs s Hfuel.
  - exists (Returned (mkGranule id ks (Some fs))), [], s. cbn [retry_loop].
    destruct (Z.leb_spec k (max_retries + 1)); [lia|].
    split; [reflexivity|]. left. exists fs. split; [reflexivity|].
    unfold count. cbn [filter List.length].
    generalize (L * Z.to_nat (max_retries + 1 - k))%nat. intros. lia.
  - cbn [retry_loop].
    destruct (Z.leb_spec k (max_retries + 1)) as [Hk|Hk].
    2: { exists (Returned (mkGranule id ks (Some fs))), [], s.
         split; [reflexivity|]. left. exists fs. split; [reflexivity|].
         unfold count. cbn [filter List.length].
         generalize (L * Z.to_nat (max_retries + 1 - k))%nat. intros. lia. }
    cbn [recover_files lookup]. rewrite bind_ret.
    destruct (for_each_count k fs s) as (o1 & tr1 & s1 & H1 & Hc1).
    erewrite bind_run by exact H1.
    destruct Hc1 as [(fs1 & -> & Hc1)|(-> & Hc1)].
    2: { exists (Raised negative_sleep), tr1, s1. split; [reflexivity|].
         right. split; [reflexivity|].
         generalize (L * Z.to_nat (max_retries + 1 - k))%nat. intros. lia. }
    cbn match.
    unfold set_recover_files. cbn [recover_files granuleId keys lookup].
    destruct (Z.leb_spec (k + 1) (max_retries + 1)) as [Hk1|Hk1].
    + rewrite bind_ret.
      destruct (forallb success fs1) eqn:Hall.
      * exists (Returned (mkGranule id ks (Some fs1))), tr1, s1.
        cbn [outcome calls final ret].
        rewrite app_nil_r. split; [reflexivity|]. left. exists fs1.
        split; [reflexivity|].
        generalize (L * Z.to_nat (max_retries + 1 - k))%nat. intros. lia.
      * destruct (IH (k + 1) fs1 s1 ltac:(lia))
          as (o & tr & s' & H2 & Hc2).
        erewrite bind_run by apply sleep_run.
        assert (Hn : Z.to_nat (max_retries + 1 - k)
                     = S (Z.to_nat (max_retries + 1 - (k + 1)))) by lia.
        rewrite Hn, Nat.mul_succ_r.
        set (n := Z.to_nat (max_retries + 1 - (k + 1))) in *. clearbody n.
        destruct (retry_sleep_secs <? 0).
        -- exists (Raised negative_sleep),
             (tr1 ++ [Sleep retry_sleep_secs]), s1.
           split; [reflexivity|]. right. split; [reflexivity|].
           rewrite count_app.
           generalize dependent (L * n)%nat. intros. lia.
        -- rewrite H2. cbn [outcome final calls app].
           exists o, (tr1 ++ Sleep retry_sleep_secs :: tr), s'.
           split; [reflexivity|].
           change (Sleep retry_sleep_secs :: tr)
             with ([Sleep retry_sleep_secs] ++ tr).
           rewrite !count_app.
           generalize dependent (L * n)%nat. intros.
           destruct Hc2 as [(fs' & -> & Hc2)|(-> & Hc2)]; [left|right].
           ++ exists fs'. split; [reflexivity|lia].
           ++ split; [reflexivity|lia].
    + destruct (IH (k + 1) fs1 s1 ltac:(lia))
        as (o & tr & s' & H2 & Hc2).
      rewrite H2. cbn [outcome final calls].
      exists o, (tr1 ++ tr), s'.
      split; [reflexivity|]. rewrite count_app.
      replace (Z.to_nat (max_retries + 1 - (k + 1))) with 0%nat in Hc2
        by lia.
      rewrite Nat.mul_0_r in Hc2.
      generalize (L * Z.to_nat (max_retries + 1 - k))%nat. intros.
      destruct Hc2 as [(fs' & -> & Hc2)|(-> & Hc2)]; [left|right].
      * exists fs'. split; [reflexivity|lia].
      * split; [reflexivity|lia].
Qed.

Lemma report_failures_count fs any s :
  (count c (calls (report_failures' fs any s)) <= B * left_of fs)%nat.
Proof.
  revert any s. induction fs as [|f fs IH]; intros any s.
  { cbn. lia. }
  cbn [report_failures]. rewrite left_of_cons.
  unfold pending at 1. cbn [filter].
  destruct (success f) eqn:Hf; cbn [negb List.length].
  - specialize (IH any s). lia.
  - erewrite bind_run by apply now_run. cbn [app].
    destruct (file_event_count f ORCA_STATUS_FAILED (err_msg f)
                (utcnow (clock_reads s))
                (mkState (sqs_calls s) (S (clock_reads s))))
      as (o & tr & s1 & H1 & Hc & Ho).
    erewrite bind_run by exact H1.
    destruct Ho as [->| ->]; cbn [calls].
    + rewrite count_app. specialize (IH true s1). lia.
    + lia.
Qed.

End CountingCalls.

(** The calls of a kind in a run of [process_granule]: those of one call
    of the publisher for the job and of one for each file that entered
    with [success] false, and those of the sleeps of the loop. *)
Lemma process_granule_count
    (s3_restore_object : Z -> string -> string -> option ClientError)
    (sqs_send_message : nat -> option string) (utcnow : nat -> string)
    (id : string) (ks : option (list KeyEntry)) (fs : list File)
    (glacier_bucket : string) (restore_expire_days max_retries : Z)
    (retry_sleep_secs : seconds) (retrieval_type job_id db_queue_url : string)
    (c : Effect -> bool) (B L : nat) (s : State) :
  (forall k bucket x days tier,
     c (RestoreObject k bucket x days tier) = false) ->
  (forall table new_data s',
     (count c
        (calls
           (post_entry_to_queue sqs_send_message table new_data POST
              db_queue_url max_retries retry_sleep_secs s'))
      <= B)%nat) ->
  (count c [Sleep retry_sleep_secs] <= L)%nat ->
  (count c
     (calls
        (process_granule s3_restore_object sqs_send_message utcnow
           (mkGranule (Some id) ks (Some fs)) glacier_bucket
           restore_expire_days max_retries retry_sleep_secs retrieval_type
           job_id db_queue_url s))
   <= B * (1 + List.length (pending fs)) + L * Z.to_nat max_retries)%nat.
Proof.
  intros Hrestore Hpost Hsleep. unfold process_granule.
  erewrite bind_run by apply now_run. cbn [calls app].
  cbn [granuleId lookup]. rewrite bind_ret.
  unfold post_status_for_job_to_queue. cbn [option_map set_if_not_None app].
  pose proof (Hpost "orca_recoveryjob"
                (job_event glacier_bucket job_id (utcnow (clock_reads s)) id)
                (mkState (sqs_calls s) (S (clock_reads s)))) as Hjob.
  destruct (post_entry_to_queue_ends sqs_send_message "orca_recoveryjob"
              (job_event glacier_bucket job_id (utcnow (clock_reads s)) id)
              POST db_queue_url max_retries retry_sleep_secs
              (mkState (sqs_calls s) (S (clock_reads s))))
    as (o0 & q & s0 & H0 & _ & _ & Ho0).
  rewrite H0 in Hjob. cbn [calls] in Hjob.
  unfold job_event in H0, Hjob. erewrite bind_run by exact H0.
  destruct Ho0 as [->|(_ & -> & _)].
  2: { cbn [calls].
       generalize dependent (L * Z.to_nat max_retries)%nat. intros.
       generalize dependent (B * List.length (pending fs))%nat. intros.
       lia. }
  cbn [calls].
  destruct (retry_loop_count s3_restore_object sqs_send_message utcnow
              glacier_bucket restore_expire_days max_retries retry_sleep_secs
              retrieval_type job_id db_queue_url (utcnow (clock_reads s)) id
              c B L Hrestore Hpost Hsleep (Z.to_nat (max_retries + 1)) 1
              (Some id) ks fs s0 ltac:(lia))
    as (o1 & tr1 & s1 & H1 & Hc1).
  erewrite bind_run by exact H1.
  replace (max_retries + 1 - 1) with max_retries in Hc1 by lia.
  set (n := Z.to_nat max_retries) in *. clearbody n.
  destruct Hc1 as [(fs' & -> & Hc1)|(-> & Hc1)].
  2: { cbn [calls]. rewrite count_app. lia. }
  cbn [calls].
  unfold after_retries. cbn [recover_files lookup]. rewrite bind_ret.
  pose proof (report_failures_count sqs_send_message utcnow max_retries
                retry_sleep_secs job_id db_queue_url
                (utcnow (clock_reads s)) id c B L Hpost Hsleep fs' false s1)
    as Hc2.
  match goal with
  | |- context [bind ?m ?f s1] =>
      assert (Hcalls : calls (bind m f s1) = calls (m s1))
  end.
  { unfold bind.
    destruct (outcome (report_failures _ _ _ _ _ _ _ _ fs' false s1))
      as [[|]| |]; cbn [calls raise ret]; now rewrite ?app_nil_r. }
  rewrite Hcalls, !count_app. lia.
Qed.

(** X27.  What a run of [process_granule] costs on the queue, whatever S3
    and the queue answer.  With [n] files that entered with [success]
    false, it sleeps [max_retries * (n + 2)] times at most, each time for
    [retry_sleep_secs], and makes [2 * max_retries * (n + 1)] calls on the
    SQS client at most: one call of the publisher for the job and one for
    each such file, of [max_retries] attempts each, and [max_retries]
    sleeps between the passes. *)
Theorem calls_on_the_queue_are_bounded
    (s3_restore_object : Z -> string -> string -> option ClientError)
    (sqs_send_message : nat -> option string) (utcnow : nat -> string)
    (id : string) (ks : option (list KeyEntry)) (fs : list File)
    (glacier_bucket : string) (restore_expire_days max_retries : Z)
    (retry_sleep_secs : seconds) (retrieval_type job_id db_queue_url : string)
    (s : State) :
  let r :=
    process_granule s3_restore_object sqs_send_message utcnow
      (mkGranule (Some id) ks (Some fs)) glacier_bucket restore_expire_days
      max_retries retry_sleep_secs retrieval_type job_id db_queue_url s in
  let n := List.length (pending fs) in
  (count is_Sleep (calls r) <= Z.to_nat max_retries * (n + 2))%nat /\
  (count is_send (calls r) <= 2 * Z.to_nat max_retries * (n + 1))%nat /\
  Forall
    (fun e =>
       match e with
       | Sleep secs => secs = retry_sleep_secs
       | _ => True
       end)
    (calls r).
Proof.
  intros r n. split; [|split].
  - pose proof (process_granule_count s3_restore_object sqs_send_message
                  utcnow id ks fs glacier_bucket restore_expire_days
                  max_retries retry_sleep_secs retrieval_type job_id
                  db_queue_url is_Sleep (Z.to_nat max_retries) 1 s) as H.
    fold r n in H.
    assert (Hle : (count is_Sleep (calls r)
                   <= Z.to_nat max_retries * (1 + n)
                      + 1 * Z.to_nat max_retries)%nat).
    { apply H; [reflexivity| |cbn; lia].
      intros table new_data s'.
      apply (post_entry_to_queue_counts sqs_send_message table new_data POST
               db_queue_url max_retries retry_sleep_secs s'). }
    set (m := Z.to_nat max_retries) in *. clearbody m. lia.
  - pose proof (process_granule_count s3_restore_object sqs_send_message
                  utcnow id ks fs glacier_bucket restore_expire_days
                  max_retries retry_sleep_secs retrieval_type job_id
                  db_queue_url is_send (2 * Z.to_nat max_retries) 0 s) as H.
    fold r n in H.
    assert (Hle : (count is_send (calls r)
                   <= 2 * Z.to_nat max_retries * (1 + n)
                      + 0 * Z.to_nat max_retries)%nat).
    { apply H; [reflexivity| |cbn; lia].
      intros table new_data s'.
      apply (post_entry_to_queue_counts sqs_send_message table new_data POST
               db_queue_url max_retries retry_sleep_secs s'). }
    set (m := Z.to_nat max_retries) in *. clearbody m. lia.
  - apply calls_process_granule; auto.
    + intros s'. eapply Forall_impl; [|apply post_entry_to_queue_calls].
      intros e [->|[->|[->| ->]]]; auto.
    + intros f status error last_update s' _.
      eapply Forall_impl; [|apply post_entry_to_queue_calls].
      intros e [->|[->|[->| ->]]]; auto.
Qed.

(** ** The events of a run on a queue that accepts every call *)

(** The status events handed to the publisher, and the messages sent. *)
Definition handed (tr : list Effect)
    : list (string * json.dict * RequestMethod) :=
  flat_map
    (fun e =>
       match e with
       | PostEntry table_name new_data request_method =>
           [(table_name, new_data, request_method)]
       | _ => []
       end)
    tr.

Definition sent (tr : list Effect) : list shared_recovery.Message :=
  flat_map
    (fun e =>
       match e with
       | SendMessage m => [m]
       | _ => []
       end)
    tr.

(** The message of an event. *)
Definition message_of (db_queue_url : string)
    (event : string * json.dict * RequestMethod) : shared_recovery.Message :=
  let '(table_name, new_data, request_method) := event in
  queue_message table_name (json.dumps_indent4 new_data) request_method
    db_queue_url.

(** A property of lists of calls that holds of the empty list and of two
    lists put end to end holds of the calls of a sequence when it holds of
    the calls of each part. *)
Section CallsTogether.

Variable Q : list Effect -> Prop.
Hypothesis Q_nil : Q [].
Hypothesis Q_app : forall t1 t2, Q t1 -> Q t2 -> Q (t1 ++ t2).

Lemma together_bind {A B} (m : M A) (f : A -> M B) s :
  Q (calls (m s)) ->
  (forall a s', Q (calls (f a s'))) ->
  Q (calls (bind m f s)).
Proof.
  intros Hm Hf. unfold bind. destruct (outcome (m s)); cbn [calls]; auto.
Qed.

Lemma together_try_except_ClientError {A} (m : M A)
    (h : ClientError -> M A) s :
  Q (calls (m s)) ->
  (forall err s', Q (calls (h err s'))) ->
  Q (calls (try_except_ClientError m h s)).
Proof.
  intros Hm Hh. unfold try_except_ClientError.
  destruct (outcome (m s)) as [a|[k|err|why|msg|msg]|]; cbn [calls]; auto.
Qed.

Lemma together_lookup {A} k (x : option A) s : Q (calls (lookup k x s)).
Proof. destruct x; exact Q_nil. Qed.

Lemma together_for_each {A} (body : A -> M A) l :
  (forall a s, Q (calls (body a s))) ->
  forall s, Q (calls (for_each body l s)).
Proof.
  intros Hbody. induction l as [|a l IH]; intros s; cbn [for_each].
  - exact Q_nil.
  - apply together_bind; [apply Hbody|]. intros a' s'.
    apply together_bind; [apply IH|]. intros l' s''. exact Q_nil.
Qed.

Variable s3_restore_object : Z -> string -> string -> option ClientError.
Variable sqs_send_message : nat -> option string.
Variable utcnow : nat -> string.

Variables (glacier_bucket : string) (restore_expire_days : Z)
  (max_retries : Z) (retry_sleep_secs : seconds) (retrieval_type : string)
  (job_id : string) (db_queue_url : string).

Hypothesis Q_restore :
  forall k x,
    Q [RestoreObject k glacier_bucket x restore_expire_days retrieval_type].
Hypothesis Q_sleep : Q [Sleep retry_sleep_secs].
Hypothesis Q_post :
  forall table_name new_data s,
    Q (calls
         (post_entry_to_queue sqs_send_message table_name new_data POST
            db_queue_url max_retries retry_sleep_secs s)).

Lemma together_restore_one_file request_time granule_id k f s :
  Q (calls
       (restore_one_file s3_restore_object sqs_send_message utcnow
          glacier_bucket restore_expire_days max_retries retry_sleep_secs
          retrieval_type job_id db_queue_url request_time granule_id k f s)).
Proof.
  unfold restore_one_file.
  destruct (success f); [exact Q_nil|].
  apply together_try_except_ClientError; [|intros; exact Q_nil].
  apply together_bind.
  { rewrite restore_object_run. cbn [calls]. apply Q_restore. }
  intros _ s1. cbn [key dest_bucket].
  apply together_try_except_ClientError; [|intros; exact Q_nil].
  apply together_bind; [exact Q_nil|]. intros last_update s2.
  apply together_bind; [|intros; exact Q_nil].
  apply Q_post.
Qed.

Lemma together_retry_loop request_time granule_id fuel k granule s :
  Q (calls
       (retry_loop s3_restore_object sqs_send_message utcnow glacier_bucket
          restore_expire_days max_retries retry_sleep_secs retrieval_type
          job_id db_queue_url request_time granule_id fuel k granule s)).
Proof.
  revert k granule s.
  induction fuel as [|fuel IH]; intros k granule s; cbn [retry_loop];
    destruct (k <=? max_retries + 1); try exact Q_nil.
  apply together_bind; [apply together_lookup|]. intros files s1.
  apply together_bind.
  { apply together_for_each. intros f s'. apply together_restore_one_file. }
  intros files' s2.
  destruct (k + 1 <=? max_retries + 1); [|apply IH].
  apply together_bind; [apply together_lookup|]. intros files'' s3.
  destruct (forallb success files''); [exact Q_nil|].
  apply together_bind; [|intros; apply IH].
  rewrite sleep_run. exact Q_sleep.
Qed.

Lemma together_report_failures request_time granule_id files any s :
  Q (calls
       (report_failures sqs_send_message utcnow max_retries retry_sleep_secs
          job_id db_queue_url request_time granule_id files any s)).
Proof.
  revert any s. induction files as [|f files IH]; intros any s;
    cbn [report_failures]; [exact Q_nil|].
  destruct (success f); cbn [negb]; [apply IH|].
  apply together_bind; [exact Q_nil|]. intros last_update s1.
  apply together_bind; [|intros; apply IH].
  apply Q_post.
Qed.

Lemma together_process_granule granule s :
  Q (calls
       (process_granule s3_restore_object sqs_send_message utcnow granule
          glacier_bucket restore_expire_days max_retries retry_sleep_secs
          retrieval_type job_id db_queue_url s)).
Proof.
  unfold process_granule.
  apply together_bind; [exact Q_nil|]. intros request_time s1.
  apply together_bind; [apply together_lookup|]. intros granule_id s2.
  apply together_bind; [apply Q_post|]. intros _ s3.
  apply together_bind; [apply together_retry_loop|]. intros granule' s4.
  unfold after_retries.
  apply together_bind; [apply together_lookup|]. intros files s5.
  apply together_bind; [apply together_report_failures|]. intros any s6.
  destruct any; exact Q_nil.
Qed.

End CallsTogether.

Lemma handed_app t1 t2 : handed (t1 ++ t2) = handed t1 ++ handed t2.
Proof. apply flat_map_app. Qed.

Lemma sent_app t1 t2 : sent (t1 ++ t2) = sent t1 ++ sent t2.
Proof. apply flat_map_app. Qed.

(** X29.  On a queue that accepts every call and with [max_retries] at
    least 1, every status event that a run of [process_granule] hands to
    the publisher is sent, once and in the order of the events: the
    messages sent are the messages of the events handed over, one for
    each, and the calls on the SQS client are two for each event.  So it
    is whatever S3 answers and whatever the sleep, and whether the run
    returns or raises. *)
Theorem events_are_sent_once
    (s3_restore_object : Z -> string -> string -> option ClientError)
    (sqs_send_message : nat -> option string) (utcnow : nat -> string)
    (granule : Granule) (glacier_bucket : string)
    (restore_expire_days max_retries : Z) (retry_sleep_secs : seconds)
    (retrieval_type job_id db_queue_url : string) (s : State) :
  1 <= max_retries ->
  (forall n, sqs_send_message n = None) ->
  let r :=
    process_granule s3_restore_object sqs_send_message utcnow granule
      glacier_bucket restore_expire_days max_retries retry_sleep_secs
      retrieval_type job_id db_queue_url s in
  sent (calls r) = map (message_of db_queue_url) (handed (calls r)) /\
  count is_send (calls r) = (2 * List.length (handed (calls r)))%nat.
Proof.
  intros Hmax Hup r.
  apply (together_process_granule
           (fun tr =>
              sent tr = map (message_of db_queue_url) (handed tr) /\
              count is_send tr = (2 * List.length (handed tr))%nat)).
  - split; reflexivity.
  - intros t1 t2 (H1 & H1') (H2 & H2').
    rewrite sent_app, handed_app, map_app, count_app, length_app, H1, H2.
    split; [reflexivity|lia].
  - intros k x. split; reflexivity.
  - split; reflexivity.
  - intros table_name new_data s'.
    rewrite post_entry_to_queue_delivers_once by auto.
    cbn [calls]. split; reflexivity.
Qed.

(** The run of one file that S3 restores at once, with one retry allowed:
    the job event and the file event are sent. *)
Lemma events_are_sent_once_witness :
  1 <= 1 /\
  (forall n, scenario.queue_up n = None) /\
  let r :=
    process_granule scenario.always_restored scenario.queue_up scenario.clock
      (mkGranule (Some "G1") None (Some scenario.one_file)) "glacier" 5 1 0
      "Standard" "job" "url" scenario.start in
  List.length (handed (calls r)) = 2%nat /\
  sent (calls r) = map (message_of "url") (handed (calls r)).
Proof.
  assert (H1 : 1 <= 1) by lia.
  assert (H2 : forall n, scenario.queue_up n = None) by reflexivity.
  split; [exact H1|]. split; [exact H2|].
  cbv zeta. split; [reflexivity|].
  exact (proj1
           (events_are_sent_once scenario.always_restored scenario.queue_up
              scenario.clock
              (mkGranule (Some "G1") None (Some scenario.one_file)) "glacier"
              5 1 0 "Standard" "job" "url" scenario.start H1 H2)).
Defined.
